(** * Search aggregation utilities of [open_deep_research/utils.py]

    A shallow embedding of the search helpers of the module: the
    configuration filter [get_search_params], the source formatter
    [deduplicate_and_format_sources] and the sequential batch loops of
    [perplexity_search], [exa_search], [arxiv_search_async] and
    [pubmed_search_async], followed by the properties proved about them.

    Conventions of the embedding.
    - A Python [str] is a [string]; [len], slicing, [in], [join] and
      [strip] are written out in [Module Py].
    - A Python [int] is a [Z].  A Python [float] is the rational number
      ([Q]) it stands for.  The scores the arXiv and PubMed adapters
      compute are doubles: their arithmetic is rounded to the nearest
      double, ties to even, as written out in [Module F64].  A list is far
      shorter than [2^1024], so neither an infinity nor a NaN arises
      there.  The sleep durations ([0.25], [0.9 * delay], ...) are kept as
      exact rationals.
    - A [dict] with free-form keys is a [gmap string V]; the dict built by
      the formatter, whose iteration order matters, is an insertion-ordered
      association list.
    - A remote provider is a function from the position of the query in the
      batch and the query text to either the exception it raised or the
      payload it returned.  A batch returns either the exception that
      escaped it or its list of responses, together with the trace of the
      requests it issued and of the pauses it took.
    - The [print] calls of the module are diagnostics; they change neither
      a returned value nor the control flow and are left out. *)

From Stdlib Require Import Ascii QArith Qminmax Lqa Qround Qpower Qabs.
From Stdlib Require Import Qreduction.
From Stdlib Require PrimFloat FloatOps SpecFloat Uint63.
From stdpp Require Import gmap strings list fin_maps pretty.
Close Scope Q_scope.

(** ** Python strings *)

Module Py.

Definition nl : string := String "010"%char "".

(** [len(s)] *)
Definition len (s : string) : Z := Z.of_nat (String.length s).

(** The first [n] characters of [s] (all of [s] when it is shorter). *)
Fixpoint take (n : nat) (s : string) : string :=
  match n, s with
  | S n', String c s' => String c (take n' s')
  | _, _ => ""
  end.

(** [s[:k]]: a negative bound counts from the end of the string. *)
Definition slice_to (k : Z) (s : string) : string :=
  if (0 <=? k)%Z then take (Z.to_nat k) s
  else take (Z.to_nat (len s + k)) s.

(** [s.startswith(p)] *)
Fixpoint startswith (p s : string) : bool :=
  match p, s with
  | "", _ => true
  | String a p', String b s' => bool_decide (a = b) && startswith p' s'
  | String _ _, "" => false
  end.

(** [needle in hay] *)
Fixpoint contains (needle hay : string) : bool :=
  startswith needle hay ||
  match hay with
  | "" => false
  | String _ hay' => contains needle hay'
  end.

(** [sep.join(parts)] *)
Fixpoint join (sep : string) (parts : list string) : string :=
  match parts with
  | [] => ""
  | [p] => p
  | p :: ps => p +:+ sep +:+ join sep ps
  end.

(** [c.isspace()] for a character below 256. *)
Definition isspace (c : ascii) : bool :=
  let n := Ascii.nat_of_ascii c in
  ((9 <=? n) && (n <=? 13)) || ((28 <=? n) && (n <=? 32))
  || (n =? 133) || (n =? 160).

Fixpoint lstrip (s : string) : string :=
  match s with
  | String c s' => if isspace c then lstrip s' else s
  | "" => ""
  end.

Definition rstrip (s : string) : string :=
  String.rev (lstrip (String.rev s)).

(** [s.strip()] *)
Definition strip (s : string) : string := rstrip (lstrip s).

(** Strings made of whitespace only (the empty string included). *)
Fixpoint blank (s : string) : bool :=
  match s with
  | String c s' => isspace c && blank s'
  | "" => true
  end.

(** Truth value of a string and of a list. *)
Definition truthy (s : string) : bool := negb (bool_decide (s = "")).

Definition nonempty {A} (l : list A) : bool :=
  match l with [] => false | _ => true end.

(** Truth value of an optional argument: [None] and the empty value are
    both false. *)
Definition given {A} (o : option (list A)) : bool :=
  match o with Some l => nonempty l | None => false end.

Definition given_str (o : option string) : bool :=
  match o with Some s => truthy s | None => false end.

End Py.

(** ** Result schema *)

(** The [raw_content] entry of a result dict: the key may be missing, may
  hold [None], or may hold a string. *)
Inductive raw_field : Type :=
| RawAbsent
| RawNone
| RawStr (s : string).

(** A result dict: [title], [url], [content], [score], [raw_content]. *)
Record SearchResult : Type := mkResult {
title : string;
url : string;
content : string;
score : Q;
raw_content : raw_field
}.

(** A response dict whose ["results"] are of type [R].
  [follow_up_questions] and [answer] are always [None] in the adapters
  below and are not represented; [error] is the optional ["error"] key. *)
Record Response (R : Type) : Type := mkResponse {
query : string;
images : list string;
results : list R;
error : option string
}.

Arguments mkResponse {R} _ _ _ _.
Arguments query {R} _.
Arguments images {R} _.
Arguments results {R} _.
Arguments error {R} _.

(** The responses whose results follow the schema above. *)
Abbreviation QueryResponse := (Response SearchResult).

(** Exceptions, by the class the module raises or catches them as. *)
Inductive exn : Type :=
| ValueError (msg : string)
| IndexError (msg : string)
| TypeError (msg : string)
| ProviderError (msg : string).

(** [str(e)] *)
Definition str_exn (e : exn) : string :=
match e with
| ValueError m | IndexError m | TypeError m | ProviderError m => m
end.

(** What a batch does besides computing its value. *)
Inductive event : Type :=
| Request (i : nat) (q : string)
| Sleep (seconds : Q).

(** The response appended for a query whose processing raised [e]. *)
Definition failed_response (q : string) (e : exn) : QueryResponse :=
{| query := q; images := []; results := []; error := Some (str_exn e) |}.

(** ** Configuration filter *)

Module Config.

(** The table [SEARCH_API_PARAMS] with [.get(search_api, [])]. *)
Definition SEARCH_API_PARAMS (search_api : string) : list string :=
  if bool_decide (search_api = "exa") then
    ["max_characters"; "num_results"; "include_domains";
     "exclude_domains"; "subpages"]
  else if bool_decide (search_api = "tavily") then []
  else if bool_decide (search_api = "perplexity") then []
  else if bool_decide (search_api = "arxiv") then
    ["load_max_docs"; "get_full_documents"; "load_all_available_meta"]
  else if bool_decide (search_api = "pubmed") then
    ["top_k_results"; "email"; "api_key"; "doc_content_chars_max"]
  else [].

Definition known_apis : list string :=
  ["exa"; "tavily"; "perplexity"; "arxiv"; "pubmed"].

Section Filter.
Context {V : Type}.

(** The final dict comprehension, for a given list of accepted keys. *)
Definition filter_accepted (accepted_params : list string)
    (search_api_config : gmap string V) : gmap string V :=
  filter (λ kv, kv.1 ∈ accepted_params) search_api_config.

(** [get_search_params(search_api, search_api_config)]; [None] is an
    absent configuration. *)
Definition get_search_params (search_api : string)
    (search_api_config : option (gmap string V)) : gmap string V :=
  let accepted_params := SEARCH_API_PARAMS search_api in
  match search_api_config with
  | None => ∅
  | Some cfg =>
      if bool_decide (cfg = ∅) then ∅
      else filter_accepted accepted_params cfg
  end.
End Filter.

End Config.

(** ** Effects of a batch

    A computation threads the trace of the batch and may raise. *)

Definition M (A : Type) : Type := list event → list event * (exn + A).

Definition ret {A} (a : A) : M A := λ t, (t, inr a).

Definition raise {A} (e : exn) : M A := λ t, (t, inl e).

Definition bind {A B} (m : M A) (k : A → M B) : M B :=
  λ t, match m t with
       | (t', inl e) => (t', inl e)
       | (t', inr a) => k a t'
       end.

(** [try: body / except Exception as e: handler e] *)
Definition try_except {A} (body : M A) (handler : exn → M A) : M A :=
  λ t, match body t with
       | (t', inl e) => handler e t'
       | (t', inr a) => (t', inr a)
       end.

(** [await asyncio.sleep(seconds)] *)
Definition sleep (seconds : Q) : M unit := λ t, (t ++ [Sleep seconds], inr tt).

(** One request to the provider for the query at position [i]. *)
Definition request {A} (provider : nat → string → exn + A)
    (i : nat) (q : string) : M A :=
  λ t, (t ++ [Request i q], provider i q).

(** [if cond: body] for a body without a value. *)
Definition when (cond : bool) (body : M unit) : M unit :=
  if cond then body else ret tt.

Definition run {A} (m : M A) : list event * (exn + A) := m [].

Global Instance M_ret : MRet M := @ret.
Global Instance M_bind : MBind M := λ A B k m, bind m k.

(** ** Formatter *)

Module Formatter.

(** [d[k] = v] on an insertion-ordered dict: a key already present keeps
    its position and takes the new value, a new key goes to the end. *)
Fixpoint dict_set (k : string) (v : SearchResult)
    (d : list (string * SearchResult)) : list (string * SearchResult) :=
  match d with
  | [] => [(k, v)]
  | (k', v') :: d' =>
      if bool_decide (k' = k) then (k', v) :: d'
      else (k', v') :: dict_set k v d'
  end.

(** [sources_list]: every [response['results']], in order. *)
Definition sources_list (search_response : list QueryResponse)
    : list SearchResult :=
  foldl (λ acc response, acc ++ results response) [] search_response.

(** [{source['url']: source for source in sources_list}] *)
Definition unique_sources (sources : list SearchResult)
    : list (string * SearchResult) :=
  foldl (λ d source, dict_set (url source) source d) [] sources.

Definition truncation_marker : string := "... [truncated]".

(** The text of [raw_content] as the loop body prints it. *)
Definition limited_raw_content (max_tokens_per_source : Z)
    (source : SearchResult) : string :=
  let char_limit := (max_tokens_per_source * 4)%Z in
  let raw :=
    match raw_content source with
    | RawAbsent => ""
    | RawNone => ""
    | RawStr s => s
    end in
  if (char_limit <? Py.len raw)%Z
  then Py.slice_to char_limit raw +:+ truncation_marker
  else raw.

(** What one iteration of the formatting loop appends. *)
Definition format_source (max_tokens_per_source : Z)
    (include_raw_content : bool) (source : SearchResult) : string :=
  "Source " +:+ title source +:+ ":" +:+ Py.nl +:+ "===" +:+ Py.nl
  +:+ "URL: " +:+ url source +:+ Py.nl +:+ "===" +:+ Py.nl
  +:+ "Most relevant content from source: " +:+ content source
  +:+ Py.nl +:+ "===" +:+ Py.nl
  +:+ (if include_raw_content then
         "Full source content limited to " +:+ pretty max_tokens_per_source
         +:+ " tokens: "
         +:+ limited_raw_content max_tokens_per_source source
         +:+ Py.nl +:+ Py.nl
       else "").

Definition header : string := "Sources:" +:+ Py.nl +:+ Py.nl.

(** The text before the final [strip]. *)
Definition formatted_text (search_response : list QueryResponse)
    (max_tokens_per_source : Z) (include_raw_content : bool) : string :=
  foldl (λ text source,
           text +:+ format_source max_tokens_per_source
                      include_raw_content source)
        header
        (unique_sources (sources_list search_response)).*2.

Definition deduplicate_and_format_sources
    (search_response : list QueryResponse) (max_tokens_per_source : Z)
    (include_raw_content : bool) : string :=
  Py.strip (formatted_text search_response max_tokens_per_source
              include_raw_content).

(** *** Two readings of "deduplicated by URL"

    Both keep one entry per URL, at the place where the URL first occurs;
    they differ in which entry of that URL is kept. *)

(** The URLs of a list, each at its first occurrence. *)
Fixpoint first_occurrences (urls : list string) : list string :=
  match urls with
  | [] => []
  | u :: urls' => u :: filter (λ v, v ≠ u) (first_occurrences urls')
  end.

Definition first_with_url (u : string) (sources : list SearchResult)
    : option SearchResult :=
  head (filter (λ s, url s = u) sources).

Definition last_with_url (u : string) (sources : list SearchResult)
    : option SearchResult :=
  last (filter (λ s, url s = u) sources).

(** The spec's reading: the first entry of each URL is kept. *)
Definition first_write_wins (sources : list SearchResult)
    : list SearchResult :=
  omap (λ u, first_with_url u sources) (first_occurrences (url <$> sources)).

(** The other reading: the last entry of each URL is kept. *)
Definition last_write_wins (sources : list SearchResult)
    : list SearchResult :=
  omap (λ u, last_with_url u sources) (first_occurrences (url <$> sources)).

(** Texts put one after the other. *)
Definition blocks (texts : list string) : string :=
  foldr String.append "" texts.

(** A result, and a response, with the [raw_content] key removed. *)
Definition without_raw (source : SearchResult) : SearchResult :=
  {| title := title source; url := url source; content := content source;
     score := score source; raw_content := RawAbsent |}.

Definition without_raw_content (response : QueryResponse) : QueryResponse :=
  {| query := query response; images := images response;
     results := without_raw <$> results response; error := error response |}.

(** Two results of one response that share a URL. *)
Definition duplicated_first : SearchResult :=
  mkResult "Alpha" "https://x.example/page" "first snippet" 1%Q RawAbsent.

Definition duplicated_second : SearchResult :=
  mkResult "Beta" "https://x.example/page" "second snippet" 1%Q RawAbsent.

End Formatter.

(** ** Perplexity adapter *)

Module Perplexity.

(** What one call gives once [raise_for_status], [response.json()] and
    [data["choices"][0]["message"]["content"]] went through: the answer
    text and the optional ["citations"] list.  Any exception of these steps
    is the provider's failure. *)
Record payload : Type := mkPayload {
  answer : string;
  citations : option (list string)
}.

Definition default_citations : list string := ["https://perplexity.ai"].

Definition primary_result (citation answer_text : string) : SearchResult :=
  {| title := "Perplexity Search, Source 1";
     url := citation;
     content := answer_text;
     raw_content := RawStr answer_text;
     score := 1%Q |}.

Definition secondary_result (i : nat) (citation : string) : SearchResult :=
  {| title := "Perplexity Search, Source " +:+ pretty i;
     url := citation;
     content := "See primary source for full content";
     raw_content := RawNone;
     score := (1 # 2)%Q |}.

(** The body of the loop from the parsed response on: the response dict
    of one query. *)
Definition build_response (query_text : string) (data : payload)
    : M QueryResponse :=
  let content_text := answer data in
  let cites := default default_citations (citations data) in
  first ← match cites with
          | [] => raise (IndexError "list index out of range")
          | c :: _ => ret c
          end;
  let first_result := primary_result first content_text in
  let others := imap (λ j c, secondary_result (j + 2) c) (drop 1 cites) in
  ret {| query := query_text; images := [];
         results := first_result :: others; error := None |}.

Fixpoint loop (post : nat → string → exn + payload) (i : nat)
    (search_queries : list string) (search_docs : list QueryResponse)
    : M (list QueryResponse) :=
  match search_queries with
  | [] => ret search_docs
  | query_text :: rest =>
      data ← request post i query_text;
      response ← build_response query_text data;
      loop post (S i) rest (search_docs ++ [response])
  end.

Definition perplexity_search (post : nat → string → exn + payload)
    (search_queries : list string) : M (list QueryResponse) :=
  loop post 0 search_queries [].

(** A provider that fails on every query, one that answers with two
    citations, and one that answers without a citations list. *)
Definition always_failing : nat → string → exn + payload :=
  λ _ _, inl (ProviderError "500 Server Error").

Definition two_citations : nat → string → exn + payload :=
  λ _ _, inr (mkPayload "The answer."
                (Some ["https://a.example"; "https://b.example"])).

Definition no_citations : nat → string → exn + payload :=
  λ _ _, inr (mkPayload "The answer." None).

End Perplexity.

(** ** Exa adapter *)

Module Exa.

(** An attribute of a provider object as [get_value] reads it: the
    attribute (or dict key) may be missing, may hold [None], or may hold a
    value. *)
Inductive attr (A : Type) : Type :=
| Missing
| HoldsNone
| Holds (a : A).

Arguments Missing {A}.
Arguments HoldsNone {A}.
Arguments Holds {A} a.

(** [get_value(item, key, default)]: the default stands in for a missing
    attribute only; an attribute that holds [None] is returned as it is.
    The [None] of the result is Python's [None]. *)
Definition get_value {A} (item : attr A) (dflt : option A) : option A :=
  match item with
  | Missing => dflt
  | HoldsNone => None
  | Holds a => Some a
  end.

(** The fields read from a result or from a subpage. *)
Record page : Type := mkPage {
  p_title : attr string;
  p_url : attr string;
  p_text : attr string;
  p_summary : attr string;
  p_score : attr Q
}.

(** A main result.  [image] is read with the default [None], so a missing
    image and an image that holds [None] are the same [None]. *)
Record result : Type := mkExaResult {
  r_page : page;
  r_subpages : attr (list page);
  r_image : option string
}.

(** A result dict as this adapter builds it: every value is what
    [get_value] returned, and may be [None]. *)
Record entry : Type := mkEntry {
  e_title : option string;
  e_url : option string;
  e_content : option string;
  e_score : option Q;
  e_raw_content : option string
}.

(** The keyword arguments of [exa.search_and_contents]. *)
Record kwargs : Type := mkKwargs {
  kw_text : option Z;
  kw_summary : bool;
  kw_num_results : Z;
  kw_subpages : option Z;
  kw_include_domains : option (list string);
  kw_exclude_domains : option (list string)
}.

Record params : Type := mkParams {
  max_characters : option Z;
  num_results : Z;
  include_domains : option (list string);
  exclude_domains : option (list string);
  subpages : option Z
}.

Definition provider : Type := nat → string → kwargs → exn + list result.

(** The dict built by [exa_search_fn]. *)
Definition build_kwargs (ps : params) : kwargs :=
  {| kw_text := max_characters ps;
     kw_summary := true;
     kw_num_results := num_results ps;
     kw_subpages := subpages ps;
     kw_include_domains :=
       if Py.given (include_domains ps) then include_domains ps else None;
     kw_exclude_domains :=
       if Py.given (include_domains ps) then None
       else if Py.given (exclude_domains ps) then exclude_domains ps
       else None |}.

(** Summary and text combined. *)
Definition combined_content (p : page) : option string :=
  let text_content := get_value (p_text p) (Some "") in
  let summary_content := get_value (p_summary p) (Some "") in
  if Py.given_str summary_content then
    if Py.given_str text_content
    then Some (default "" summary_content +:+ Py.nl +:+ Py.nl
               +:+ default "" text_content)
    else summary_content
  else text_content.

Definition result_entry (p : page) : entry :=
  {| e_title := get_value (p_title p) (Some "");
     e_url := get_value (p_url p) (Some "");
     e_content := combined_content p;
     e_score := get_value (p_score p) (Some 0%Q);
     e_raw_content := get_value (p_text p) (Some "") |}.

(** One pass over pages, skipping the URLs already seen. *)
Definition add_pages (pages : list page)
    (st : list entry * gset (option string))
    : list entry * gset (option string) :=
  foldl (λ st p,
           let u := get_value (p_url p) (Some "") in
           if bool_decide (u ∈ st.2) then st
           else (st.1 ++ [result_entry p], {[u]} ∪ st.2))
        st pages.

(** The pass over the subpages of every main result.  [for subpage in
    subpages_list] raises when the [subpages] attribute holds [None]. *)
Fixpoint add_subpages (results_list : list result)
    (st : list entry * gset (option string))
    : exn + list entry * gset (option string) :=
  match results_list with
  | [] => inr st
  | r :: rest =>
      match get_value (r_subpages r) (Some []) with
      | Some subpages_list => add_subpages rest (add_pages subpages_list st)
      | None => inl (TypeError "'NoneType' object is not iterable")
      end
  end.

Definition collect_images (results_list : list result) : list string :=
  foldl (λ imgs r,
           match r_image r with
           | Some image =>
               if Py.truthy image && negb (bool_decide (image ∈ imgs))
               then imgs ++ [image] else imgs
           | None => imgs
           end)
        [] results_list.

(** The part of [process_query] that follows the request. *)
Definition format_response (ps : params) (query_text : string)
    (results_list : list result) : exn + Response entry :=
  let st := add_pages (r_page <$> results_list) ([], ∅) in
  match
    match subpages ps with
    | Some _ => add_subpages results_list st
    | None => inr st
    end
  with
  | inl e => inl e
  | inr st =>
      inr {| query := query_text; images := collect_images results_list;
             results := st.1; error := None |}
  end.

Definition process_query (exa : provider) (ps : params) (i : nat)
    (query_text : string) : M (Response entry) :=
  response ← request (λ i q, exa i q (build_kwargs ps)) i query_text;
  match format_response ps query_text response with
  | inl e => raise e
  | inr formatted => ret formatted
  end.

Fixpoint loop (exa : provider) (ps : params) (i : nat)
    (search_queries : list string) (search_docs : list (Response entry))
    : M (list (Response entry)) :=
  match search_queries with
  | [] => ret search_docs
  | query_text :: rest =>
      search_docs ←
        try_except
          (when (0 <? i) (sleep (1 # 4)%Q);;
           result ← process_query exa ps i query_text;
           ret (search_docs ++ [result]))
          (λ e,
             let search_docs :=
               search_docs ++ [mkResponse query_text [] [] (Some (str_exn e))] in
             when (Py.contains "429" (str_exn e)) (sleep 1%Q);;
             ret search_docs);
      loop exa ps (S i) rest search_docs
  end.

Definition exa_search (exa : provider) (search_queries : list string)
    (ps : params) : M (list (Response entry)) :=
  if Py.given (include_domains ps) && Py.given (exclude_domains ps)
  then raise (ValueError
                "Cannot specify both include_domains and exclude_domains")
  else loop exa ps 0 search_queries [].

(** The default arguments, and a call that gives both domain lists. *)
Definition default_params : params :=
  {| max_characters := None; num_results := 5; include_domains := None;
     exclude_domains := None; subpages := None |}.

Definition both_domains : params :=
  {| max_characters := None; num_results := 5;
     include_domains := Some ["arxiv.org"];
     exclude_domains := Some ["example.com"]; subpages := None |}.

(** A provider that fails on every query with a rate-limit error. *)
Definition always_failing : provider :=
  λ _ _ _, inl (ProviderError "429 Too Many Requests").

(** A call that asks for subpages, and a provider whose second result
    has neither text nor score and holds [None] as its subpages. *)
Definition with_subpages : params :=
  {| max_characters := None; num_results := 5; include_domains := None;
     exclude_domains := None; subpages := Some 1%Z |}.

Definition lacking_subpages : provider :=
  λ _ _ _,
    inr [mkExaResult
           (mkPage (Holds "A") (Holds "https://a.example") (Holds "one")
              HoldsNone (Holds 1%Q))
           (Holds []) None;
         mkExaResult
           (mkPage (Holds "B") (Holds "https://b.example") HoldsNone
              (Holds "Summary.") HoldsNone)
           HoldsNone None].

(** *** The batch, query by query

    What the loop appends for the query at position [i], and what it does
    around it. *)

(** What [process_query] gives for the query at position [i]: the
    exception of the request or of the formatting, or the response. *)
Definition processed (exa : provider) (ps : params) (i : nat)
    (query_text : string) : exn + Response entry :=
  match exa i query_text (build_kwargs ps) with
  | inl e => inl e
  | inr results_list => format_response ps query_text results_list
  end.

Definition outcome (exa : provider) (ps : params) (i : nat)
    (query_text : string) : Response entry :=
  match processed exa ps i query_text with
  | inl e => mkResponse query_text [] [] (Some (str_exn e))
  | inr formatted => formatted
  end.

Definition events (exa : provider) (ps : params) (i : nat)
    (query_text : string) : list event :=
  (if 0 <? i then [Sleep (1 # 4)%Q] else [])
  ++ [Request i query_text]
  ++ match processed exa ps i query_text with
     | inl e => if Py.contains "429" (str_exn e) then [Sleep 1%Q] else []
     | inr _ => []
     end.

(** *** The pages of a response

    The pages the two passes go through, in the order they go through
    them, and those of them whose URL has not occurred before.  There is
    no such list when subpages were asked for and the [subpages] attribute
    of a main result holds [None]. *)

Definition page_url (p : page) : option string :=
  get_value (p_url p) (Some "").

Fixpoint subpages_in_order (results_list : list result) : option (list page) :=
  match results_list with
  | [] => Some []
  | r :: rest =>
      match r_subpages r with
      | HoldsNone => None
      | Missing => subpages_in_order rest
      | Holds subpages_list => (subpages_list ++.) <$> subpages_in_order rest
      end
  end.

Definition all_pages (ps : params) (results_list : list result)
    : option (list page) :=
  match subpages ps with
  | Some _ => ((r_page <$> results_list) ++.) <$> subpages_in_order results_list
  | None => Some (r_page <$> results_list)
  end.

Fixpoint first_by_url (pages : list page) : list page :=
  match pages with
  | [] => []
  | p :: pages' =>
      p :: filter (λ p', page_url p' ≠ page_url p) (first_by_url pages')
  end.

(** Whether the provider fails on the query with a rate-limit message. *)
Definition rate_limited (exa : provider) (ps : params) (i : nat)
    (query_text : string) : bool :=
  match exa i query_text (build_kwargs ps) with
  | inl e => Py.contains "429" (str_exn e)
  | inr _ => false
  end.

End Exa.

(** ** Doubles

    The value of a double is a rational number, and an operation on
    doubles returns the double nearest to the exact result (IEEE 754
    binary64, round to nearest, ties to even). *)

Module F64.

(** [2^k], for an exponent of either sign. *)
Definition pow2 (k : Z) : Q := (2 ^ k)%Q.

(** The binary exponent of a positive rational: the [e] with
    [2^e <= x < 2^(e+1)]. *)
Definition exponent (x : Q) : Z :=
  let c := (Z.log2 (Qnum x) - Z.log2 (Z.pos (Qden x)))%Z in
  if Qle_bool (pow2 c) x then c else (c - 1)%Z.

(** The integer nearest to [m]; of two equally near ones, the even one. *)
Definition nearest_even (m : Q) : Z :=
  let f := Qfloor m in
  match (m - inject_Z f ?= 1 # 2)%Q with
  | Lt => f
  | Gt => (f + 1)%Z
  | Eq => if Z.even f then f else (f + 1)%Z
  end.

(** The spacing of the doubles around a positive [x]: 53 significant
    bits, and [2^-1074] in the subnormal range. *)
Definition ulp (x : Q) : Q := pow2 (Z.max (exponent x) (-1022) - 52).

Definition round_positive (x : Q) : Q :=
  (inject_Z (nearest_even (x / ulp x)) * ulp x)%Q.

(** Round to nearest, ties to even.  The result is in lowest terms. *)
Definition round (x : Q) : Q :=
  let x := Qred x in
  match (x ?= 0)%Q with
  | Eq => 0%Q
  | Gt => Qred (round_positive x)
  | Lt => Qred (- round_positive (- x))
  end.

(** [float(n)] and the arithmetic of two doubles. *)
Definition of_int (n : Z) : Q := round (inject_Z n).
Definition sub (x y : Q) : Q := round (x - y).
Definition mul (x y : Q) : Q := round (x * y).
Definition div (x y : Q) : Q := round (x / y).

(** Half the spacing of the doubles just below 1. *)
Definition half_ulp : Q := 1 # 18014398509481984.

(** The rational value of a double of the kernel, for comparison. *)
Definition of_float (f : PrimFloat.float) : option Q :=
  match FloatOps.Prim2SF f with
  | SpecFloat.S754_zero _ => Some 0%Q
  | SpecFloat.S754_finite s m e =>
      let v := (inject_Z (Z.pos m) * pow2 e)%Q in
      Some (Qred (if s then - v else v)%Q)
  | _ => None
  end.

Definition float_of_nat (n : nat) : PrimFloat.float :=
  PrimFloat.of_uint63 (Uint63.of_Z (Z.of_nat n)).

(** Whether a double of the kernel is a given rational in lowest terms. *)
Definition same_value (f : PrimFloat.float) (x : Q) : bool :=
  match of_float f with
  | Some v => bool_decide (Qnum v = Qnum x ∧ Qden v = Qden x)
  | None => false
  end.

End F64.

(** ** Synthetic scores of the arXiv and PubMed adapters *)

(** [1.0 / (len(docs) + 1) if docs else 0] *)
Definition score_decrement {A} (docs : list A) : Q :=
  if Py.nonempty docs
  then F64.div 1 (F64.of_int (Z.of_nat (length docs) + 1))
  else 0%Q.

(** [base_score - (i * score_decrement)] with [base_score = 1.0] *)
Definition rank_score {A} (docs : list A) (i : nat) : Q :=
  F64.sub 1 (F64.mul (F64.of_int (Z.of_nat i)) (score_decrement docs)).

(** The same score computed with the doubles of the kernel, for [n]
    documents. *)
Definition kernel_score (n i : nat) : option Q :=
  F64.of_float
    (PrimFloat.sub (F64.float_of_nat 1)
       (PrimFloat.mul (F64.float_of_nat i)
          (PrimFloat.div (F64.float_of_nat 1) (F64.float_of_nat (n + 1))))).

(** The exact step [1 / (n + 1)] between the scores of [n] documents. *)
Definition exact_step (n : nat) : Q := (1 / inject_Z (Z.of_nat n + 1))%Q.

(** The shape of the scores of one response with [n] documents: the first
    is 1, each next one is lower, by [1 / (n + 1)] up to the rounding of
    the three operations that compute a score, and the last is above 0. *)
Definition descending_scores (n : nat) (rs : list SearchResult) : Prop :=
  (∃ r0, rs !! 0 = Some r0 ∧ score r0 = 1%Q)
  ∧ (∀ k a b, rs !! k = Some a → rs !! S k = Some b →
       (score b < score a)%Q
       ∧ (Qabs (score a - score b - exact_step n) <= 5 * F64.half_ulp)%Q)
  ∧ (∃ rl, last rs = Some rl ∧ (0 < score rl)%Q).

(** The bounds on the scores are for fewer than [2^26] documents. *)
Definition few {A} (docs : list A) : Prop :=
  (Z.of_nat (length docs) < 2 ^ 26)%Z.

(** ** arXiv adapter *)

Module Arxiv.

(** [doc.metadata], key by key ([None]: the key is missing), and
    [doc.page_content].  [md_Published] is the text the publication date
    prints as. *)
Record document : Type := mkDocument {
  md_entry_id : option string;
  md_Title : option string;
  md_Summary : option string;
  md_Authors : option string;
  md_Published : option string;
  md_primary_category : option string;
  md_categories : option (list string);
  md_comment : option string;
  md_journal_ref : option string;
  md_doi : option string;
  md_links : option (list string);
  page_content : string
}.

Definition provider : Type := nat → string → exn + list document.

(** A part added when the key is present. *)
Definition part_if_present (label : string) (field : option string)
    : list string :=
  match field with Some v => [label +:+ v] | None => [] end.

(** A part added when the key is present and its value is not empty. *)
Definition part_if_given (label : string) (field : option string)
    : list string :=
  match field with
  | Some v => if Py.truthy v then [label +:+ v] else []
  | None => []
  end.

Definition content_parts (doc : document) : list string :=
  part_if_present "Summary: " (md_Summary doc)
  ++ part_if_present "Authors: " (md_Authors doc)
  ++ part_if_given "Published: " (md_Published doc)
  ++ part_if_present "Primary Category: " (md_primary_category doc)
  ++ (match md_categories doc with
      | Some (c :: cs) => ["Categories: " +:+ Py.join ", " (c :: cs)]
      | _ => []
      end)
  ++ part_if_given "Comment: " (md_comment doc)
  ++ part_if_given "Journal Reference: " (md_journal_ref doc)
  ++ part_if_given "DOI: " (md_doi doc)
  ++ (match md_links doc with
      | Some links =>
          match List.find (Py.contains "pdf") links with
          | Some pdf_link => ["PDF: " +:+ pdf_link]
          | None => []
          end
      | None => []
      end).

Definition make_result (get_full_documents : bool) (docs : list document)
    (i : nat) (doc : document) : SearchResult :=
  {| title := default "" (md_Title doc);
     url := default "" (md_entry_id doc);
     content := Py.join Py.nl (content_parts doc);
     score := rank_score docs i;
     raw_content :=
       if get_full_documents then RawStr (page_content doc) else RawNone |}.

Definition process_single_query (retriever : provider)
    (get_full_documents : bool) (i : nat) (query_text : string)
    : M QueryResponse :=
  try_except
    (docs ← request retriever i query_text;
     ret {| query := query_text; images := [];
            results := imap (make_result get_full_documents docs) docs;
            error := None |})
    (λ e, ret (failed_response query_text e)).

Fixpoint loop (retriever : provider) (get_full_documents : bool) (i : nat)
    (search_queries : list string) (search_docs : list QueryResponse)
    : M (list QueryResponse) :=
  match search_queries with
  | [] => ret search_docs
  | query_text :: rest =>
      search_docs ←
        try_except
          (when (0 <? i) (sleep 3%Q);;
           result ← process_single_query retriever get_full_documents
                      i query_text;
           ret (search_docs ++ [result]))
          (λ e,
             let search_docs := search_docs ++ [failed_response query_text e] in
             when (Py.contains "429" (str_exn e)
                   || Py.contains "Too Many Requests" (str_exn e))
               (sleep 5%Q);;
             ret search_docs);
      loop retriever get_full_documents (S i) rest search_docs
  end.

Definition arxiv_search_async (retriever : provider)
    (search_queries : list string) (get_full_documents : bool)
    : M (list QueryResponse) :=
  loop retriever get_full_documents 0 search_queries [].

(** A document with three links, two of them to a PDF. *)
Definition sample_document : document :=
  {| md_entry_id := Some "http://arxiv.org/abs/2401.00001v1";
     md_Title := Some "A title";
     md_Summary := Some "A summary.";
     md_Authors := Some "A. Author";
     md_Published := Some "2024-01-01";
     md_primary_category := None;
     md_categories := None;
     md_comment := None;
     md_journal_ref := None;
     md_doi := None;
     md_links := Some ["http://arxiv.org/abs/2401.00001v1";
                       "http://arxiv.org/pdf/2401.00001v1";
                       "http://mirror.example/pdf/2401.00001"];
     page_content := "Full text." |}.

(** *** The batch, query by query *)

Definition outcome (retriever : provider) (get_full_documents : bool)
    (i : nat) (query_text : string) : QueryResponse :=
  match retriever i query_text with
  | inl e => failed_response query_text e
  | inr docs =>
      {| query := query_text; images := [];
         results := imap (make_result get_full_documents docs) docs;
         error := None |}
  end.

Definition events (i : nat) (query_text : string) : list event :=
  (if 0 <? i then [Sleep 3%Q] else []) ++ [Request i query_text].

End Arxiv.

(** ** PubMed adapter *)

Module Pubmed.

(** A record of [wrapper.lazy_load], key by key. *)
Record document : Type := mkDocument {
  d_uid : option string;
  d_Title : option string;
  d_Published : option string;
  d_Copyright : option string;
  d_Summary : option string
}.

Definition provider : Type := nat → string → exn + list document.

Definition part_if_given (label : string) (field : option string)
    : list string :=
  match field with
  | Some v => if Py.truthy v then [label +:+ v] else []
  | None => []
  end.

Definition content_parts (doc : document) : list string :=
  part_if_given "Published: " (d_Published doc)
  ++ part_if_given "Copyright Information: " (d_Copyright doc)
  ++ part_if_given "Summary: " (d_Summary doc).

Definition make_url (doc : document) : string :=
  let uid := default "" (d_uid doc) in
  if Py.truthy uid
  then "https://pubmed.ncbi.nlm.nih.gov/" +:+ uid +:+ "/"
  else "".

Definition make_result (docs : list document) (i : nat) (doc : document)
    : SearchResult :=
  {| title := default "" (d_Title doc);
     url := make_url doc;
     content := Py.join Py.nl (content_parts doc);
     score := rank_score docs i;
     raw_content := RawStr (default "" (d_Summary doc)) |}.

Definition process_single_query (wrapper : provider) (i : nat)
    (query_text : string) : M QueryResponse :=
  try_except
    (docs ← request wrapper i query_text;
     ret {| query := query_text; images := [];
            results := imap (make_result docs) docs;
            error := None |})
    (λ e, ret (failed_response query_text e)).

(** The two variables the loop updates. *)
Record loop_state : Type := mkState {
  search_docs : list QueryResponse;
  delay : Q
}.

Definition initial_delay : Q := 1%Q.

Fixpoint loop (wrapper : provider) (i : nat) (search_queries : list string)
    (st : loop_state) : M loop_state :=
  match search_queries with
  | [] => ret st
  | query_text :: rest =>
      st ←
        try_except
          (when (0 <? i) (sleep (delay st));;
           result ← process_single_query wrapper i query_text;
           let docs := search_docs st ++ [result] in
           if Py.nonempty (results result)
           then ret (mkState docs (Qmax (1 # 2) (delay st * (9 # 10))))
           else ret (mkState docs (delay st)))
          (λ e,
             ret (mkState (search_docs st ++ [failed_response query_text e])
                          (Qmin 5 (delay st * (3 # 2)))));
      loop wrapper (S i) rest st
  end.

(** The state the loop ends in; the function returns its [search_docs]. *)
Definition pubmed_batch (wrapper : provider) (search_queries : list string)
    : M loop_state :=
  loop wrapper 0 search_queries (mkState [] initial_delay).

Definition pubmed_search_async (wrapper : provider)
    (search_queries : list string) : M (list QueryResponse) :=
  st ← pubmed_batch wrapper search_queries;
  ret (search_docs st).

(** *** The batch, query by query *)

Definition outcome (wrapper : provider) (i : nat) (query_text : string)
    : QueryResponse :=
  match wrapper i query_text with
  | inl e => failed_response query_text e
  | inr docs =>
      {| query := query_text; images := [];
         results := imap (make_result docs) docs;
         error := None |}
  end.

(** The delay after the query at position [i], from the delay before it. *)
Definition delay_after (wrapper : provider) (i : nat) (query_text : string)
    (d : Q) : Q :=
  if Py.nonempty (results (outcome wrapper i query_text))
  then Qmax (1 # 2) (d * (9 # 10))
  else d.

Fixpoint final_delay (wrapper : provider) (i : nat)
    (search_queries : list string) (d : Q) : Q :=
  match search_queries with
  | [] => d
  | query_text :: rest =>
      final_delay wrapper (S i) rest (delay_after wrapper i query_text d)
  end.

Fixpoint events (wrapper : provider) (i : nat)
    (search_queries : list string) (d : Q) : list event :=
  match search_queries with
  | [] => []
  | query_text :: rest =>
      (if 0 <? i then [Sleep d] else [])
      ++ [Request i query_text]
      ++ events wrapper (S i) rest (delay_after wrapper i query_text d)
  end.

Definition sample_docs : list document :=
  [mkDocument (Some "31452104") (Some "First") None None (Some "Abstract 1");
   mkDocument (Some "29320478") (Some "Second") None None (Some "Abstract 2")].

(** A provider that answers every query with two records. *)
Definition two_records : provider := λ _ _, inr sample_docs.

(** Two records without an identifier, and a provider that answers with
    them. *)
Definition no_uid_docs : list document :=
  [mkDocument None (Some "First") None None (Some "Abstract 1");
   mkDocument (Some "") (Some "Second") None None (Some "Abstract 2")].

Definition no_uid_records : provider := λ _ _, inr no_uid_docs.

(** A provider that answers the first three queries with one record and
    fails from the fourth on. *)
Definition three_then_failing : provider :=
  λ i _,
    if i <? 3
    then inr [mkDocument (Some "1") (Some "T") None None (Some "S")]
    else inl (ProviderError "HTTP Error 429: Too Many Requests").

End Pubmed.

(** ** Observations on a trace *)

(** The requests of a trace, in order. *)
Definition requests_of (t : list event) : list (nat * string) :=
  omap (λ ev, match ev with Request i q => Some (i, q) | Sleep _ => None end) t.

(** The pauses of a trace, in order, and their sum. *)
Definition pauses_of (t : list event) : list Q :=
  omap (λ ev, match ev with Sleep d => Some d | Request _ _ => None end) t.

Definition total_sleep (t : list event) : Q :=
  foldr Qplus 0%Q (pauses_of t).

(** A response and the outcome of the processing it answers: the response
    carries no error exactly when the processing returned, and a response
    that carries an error has neither results nor images. *)
Definition error_or_results {A R} (outcome : exn + A) (r : Response R)
    : Prop :=
  (error r = None ↔ ∃ v, outcome = inr v)
  ∧ (error r ≠ None → results r = [] ∧ images r = []).

(** ** Section report *)

Module Report.

(** The fields of a [Section] that [format_sections] reads; [content] is
    [None] when the attribute holds [None]. *)
Record Section_ : Type := mkSection {
  name : string;
  description : string;
  research : bool;
  content_text : option string
}.

(** [str(b)] for a boolean. *)
Definition str_bool (b : bool) : string := if b then "True" else "False".

(** ['=' * n] *)
Fixpoint rule (n : nat) : string :=
  match n with
  | 0 => ""
  | S n' => String "="%char (rule n')
  end.

(** The text one iteration appends for the section numbered [idx]. *)
Definition section_block (idx : nat) (section : Section_) : string :=
  Py.nl
  +:+ rule 60 +:+ Py.nl
  +:+ "Section " +:+ pretty idx +:+ ": " +:+ name section +:+ Py.nl
  +:+ rule 60 +:+ Py.nl
  +:+ "Description:" +:+ Py.nl
  +:+ description section +:+ Py.nl
  +:+ "Requires Research: " +:+ Py.nl
  +:+ str_bool (research section) +:+ Py.nl
  +:+ Py.nl
  +:+ "Content:" +:+ Py.nl
  +:+ (if Py.given_str (content_text section)
       then default "" (content_text section)
       else "[Not yet written]")
  +:+ Py.nl
  +:+ Py.nl.

(** The loop over [enumerate(sections, idx)], from the text built so far. *)
Fixpoint format_from (idx : nat) (sections : list Section_)
    (formatted_str : string) : string :=
  match sections with
  | [] => formatted_str
  | section :: rest =>
      format_from (S idx) rest (formatted_str +:+ section_block idx section)
  end.

Definition format_sections (sections : list Section_) : string :=
  format_from 1 sections "".

(** A section that has not been written yet. *)
Definition unwritten : Section_ :=
  mkSection "Introduction" "What the report is about" false None.

End Report.

(** ** Tavily adapter *)

Module Tavily.

(** [asyncio.gather] over one search per query.  The searches run
    concurrently: [completion] lists the positions of the searches in the
    order in which they finish.  The first search to finish with an
    exception makes the call raise that exception; when none does, the
    call returns the responses in the order of the queries. *)
Section Gather.
Context {R : Type}.
Variable search : nat → string → exn + R.

(** The exception of the first search, in order of completion, that
    raised. *)
Fixpoint first_raised (search_queries : list string) (completion : list nat)
    : option exn :=
  match completion with
  | [] => None
  | i :: completion' =>
      match search_queries !! i with
      | Some q =>
          match search i q with
          | inl e => Some e
          | inr _ => first_raised search_queries completion'
          end
      | None => first_raised search_queries completion'
      end
  end.

(** The responses in the order of the queries, when every search
    returned. *)
Fixpoint collect (i : nat) (search_queries : list string)
    : exn + list R :=
  match search_queries with
  | [] => inr []
  | q :: rest =>
      match search i q with
      | inl e => inl e
      | inr r =>
          match collect (S i) rest with
          | inl e => inl e
          | inr rs => inr (r :: rs)
          end
      end
  end.

Definition tavily_search_async (search_queries : list string)
    (completion : list nat) : exn + list R :=
  match first_raised search_queries completion with
  | Some e => inl e
  | None => collect 0 search_queries
  end.

End Gather.

(** A search that answers every query with the query itself. *)
Definition echo : nat → string → exn + string := λ _ q, inr q.

End Tavily.

(** ** Vapi resources *)

Module Vapi.

(** The exceptions of this part of the module: a missing key of a JSON
    object, a request that failed ([requests] raised, [raise_for_status]
    raised, or the body was not JSON), a file that could not be opened. *)
Inductive error : Type :=
  | KeyError (key : string)
  | RequestError (msg : string)
  | OSError (msg : string).

(** The body of a POST, as far as the functions below fill it in. *)
Inductive body : Type :=
  | FileUpload (file_name : string)
  | QueryTool (name file_id : string).

(** What a function does to the outside. *)
Inductive call : Type :=
  | Get (url : string)
  | Delete (url : string)
  | Post (url : string) (b : body)
  | Open (path : string).

(** The keys read from a listed file, tool or assistant: ["id"], ["name"],
    ["originalName"] and, for a tool, ["function"]["name"] ([None] when
    ["function"] or its ["name"] is missing). *)
Record resource : Type := mkResource {
  res_id : option string;
  res_name : option string;
  res_originalName : option string;
  res_function_name : option string
}.

(** The remote service and the file system: what the call made after
    [n] earlier calls returns or raises.  A POST returns the ["id"] entry
    of its JSON object, if there is one. *)
Record remote : Type := mkRemote {
  on_list : nat → string → error + list resource;
  on_delete : nat → string → error + unit;
  on_post : nat → string → error + option string;
  on_open : nat → string → error + unit
}.

Definition V (A : Type) : Type := list call → list call * (error + A).

Definition vret {A} (a : A) : V A := λ t, (t, inr a).

Definition vraise {A} (e : error) : V A := λ t, (t, inl e).

Definition vbind {A B} (m : V A) (k : A → V B) : V B :=
  λ t, match m t with
       | (t', inl e) => (t', inl e)
       | (t', inr a) => k a t'
       end.

Global Instance V_ret : MRet V := @vret.
Global Instance V_bind : MBind V := λ A B k m, vbind m k.

(** [obj[key]] *)
Definition item (key : string) (field : option string) : V string :=
  match field with
  | Some v => vret v
  | None => vraise (KeyError key)
  end.

Definition file_url : string := "https://api.vapi.ai/file".
Definition tool_url : string := "https://api.vapi.ai/tool".
Definition assistant_url : string := "https://api.vapi.ai/assistant".

Definition get_list (url : string) (rm : remote) : V (list resource) :=
  λ t, (t ++ [Get url], on_list rm (length t) url).

Definition delete_at (url : string) (rm : remote) (id : string) : V unit :=
  λ t, (t ++ [Delete (url +:+ "/" +:+ id)],
        on_delete rm (length t) (url +:+ "/" +:+ id)).

Definition list_vapi_files : remote → V (list resource) := get_list file_url.
Definition delete_vapi_file : remote → string → V unit := delete_at file_url.
Definition list_vapi_tools : remote → V (list resource) := get_list tool_url.
Definition delete_vapi_tool : remote → string → V unit := delete_at tool_url.
Definition list_vapi_assistants : remote → V (list resource) :=
  get_list assistant_url.
Definition delete_vapi_assistant : remote → string → V unit :=
  delete_at assistant_url.

(** The tests of the three loops of [cleanup_vapi_resources_by_name]. *)
Definition file_matches (file_name : string) (file : resource) : bool :=
  bool_decide (res_name file = Some file_name)
  || bool_decide (res_originalName file = Some file_name).

Definition tool_matches (tool_name : string) (tool : resource) : bool :=
  bool_decide (res_function_name tool = Some tool_name).

Definition assistant_matches (assistant_name : string)
    (assistant : resource) : bool :=
  bool_decide (res_name assistant = Some assistant_name).

(** One of the three loops: for every listed resource that matches, the
    message is built (reading the name, then the id) and the resource is
    deleted. *)
Fixpoint delete_matching (matches : resource → bool)
    (shown_name : resource → V string) (delete : string → V unit)
    (listed : list resource) : V unit :=
  match listed with
  | [] => mret tt
  | r :: rest =>
      (if matches r then
         shown_name r;;
         id ← item "id" (res_id r);
         delete id
       else mret tt);;
      delete_matching matches shown_name delete rest
  end.

Definition cleanup_vapi_resources_by_name (rm : remote)
    (file_name tool_name assistant_name : option string) : V unit :=
  (if Py.given_str file_name then
     files ← list_vapi_files rm;
     delete_matching (file_matches (default "" file_name))
       (λ file, item "name" (res_name file)) (delete_vapi_file rm) files
   else mret tt);;
  (if Py.given_str tool_name then
     tools ← list_vapi_tools rm;
     delete_matching (tool_matches (default "" tool_name))
       (λ tool, item "name" (res_function_name tool))
       (delete_vapi_tool rm) tools
   else mret tt);;
  (if Py.given_str assistant_name then
     assistants ← list_vapi_assistants rm;
     delete_matching (assistant_matches (default "" assistant_name))
       (λ assistant, item "name" (res_name assistant))
       (delete_vapi_assistant rm) assistants
   else mret tt).

Definition open_file (rm : remote) (path : string) : V unit :=
  λ t, (t ++ [Open path], on_open rm (length t) path).

Definition post (rm : remote) (url : string) (b : body) : V (option string) :=
  λ t, (t ++ [Post url b], on_post rm (length t) url).

(** [upload_file_to_vapi]; [path_name] stands for [pathlib.Path(p).name]. *)
Definition upload_file_to_vapi (rm : remote) (path_name : string → string)
    (file_path : string) (file_name : option string) : V string :=
  let file_name :=
    match file_name with
    | None => path_name file_path
    | Some n => n
    end in
  cleanup_vapi_resources_by_name rm (Some file_name) None None;;
  open_file rm file_path;;
  response ← post rm file_url (FileUpload file_name);
  item "id" response.

Definition create_query_tool (rm : remote) (file_id name : string)
    : V string :=
  cleanup_vapi_resources_by_name rm None (Some name) None;;
  response ← post rm tool_url (QueryTool name file_id);
  item "id" response.

(** The calls a trace holds: its deletions and its uploads. *)
Definition deletions (t : list call) : list string :=
  omap (λ c, match c with Delete u => Some u | _ => None end) t.

Definition posts (t : list call) : list (string * body) :=
  omap (λ c, match c with Post u b => Some (u, b) | _ => None end) t.

(** A remote on which every call succeeds and which lists [listed]. *)
Definition obliging (listed : list resource) : remote :=
  {| on_list := λ _ _, inr listed;
     on_delete := λ _ _, inr tt;
     on_post := λ _ _, inr (Some "new-id");
     on_open := λ _ _, inr tt |}.

(** The same remote with a file system that cannot open the file. *)
Definition unreadable (listed : list resource) : remote :=
  {| on_list := λ _ _, inr listed;
     on_delete := λ _ _, inr tt;
     on_post := λ _ _, inr (Some "new-id");
     on_open := λ _ _, inl (OSError "No such file or directory") |}.

Definition sample_files : list resource :=
  [mkResource (Some "f1") (Some "bill.pdf") (Some "bill.pdf") None;
   mkResource (Some "f2") (Some "notes.pdf") (Some "notes.pdf") None;
   mkResource (Some "f3") (Some "renamed.pdf") (Some "bill.pdf") None].

(** Three listed files, the second without a ["name"] entry. *)
Definition notes_file : resource :=
  mkResource (Some "f2") (Some "notes.pdf") (Some "notes.pdf") None.

Definition nameless_file : resource :=
  mkResource (Some "f9") None (Some "bill.pdf") None.

Definition bill_file : resource :=
  mkResource (Some "f1") (Some "bill.pdf") (Some "bill.pdf") None.

End Vapi.

(** * Properties *)

(** ** Strings *)

Section PyFacts.

Lemma string_app_cons (c : ascii) (s1 s2 : string) :
  String c s1 +:+ s2 = String c (s1 +:+ s2).
Proof. reflexivity. Qed.

Lemma string_length_app (s1 s2 : string) :
  String.length (s1 +:+ s2) = String.length s1 + String.length s2.
Proof.
  induction s1 as [|c s1 IH]; [done|].
  rewrite string_app_cons. simpl. by rewrite IH.
Qed.

Lemma string_app_nil_r (s : string) : s +:+ "" = s.
Proof.
  induction s as [|c s IH]; [done|]. by rewrite string_app_cons, IH.
Qed.

Lemma string_app_assoc (s1 s2 s3 : string) :
  (s1 +:+ s2) +:+ s3 = s1 +:+ s2 +:+ s3.
Proof.
  induction s1 as [|c s1 IH]; [done|]. by rewrite !string_app_cons, IH.
Qed.

Lemma take_length (n : nat) (s : string) :
  n ≤ String.length s → String.length (Py.take n s) = n.
Proof.
  revert s. induction n as [|n IH]; intros s Hn.
  - by destruct s.
  - destruct s as [|c s]; simpl in *; [lia|]. rewrite IH; lia.
Qed.

Lemma take_prefix (n : nat) (s : string) : ∃ rest, s = Py.take n s +:+ rest.
Proof.
  revert s. induction n as [|n IH]; intros s.
  - exists s. by destruct s.
  - destruct s as [|c s]; [by exists "" |].
    destruct (IH s) as [rest Hrest]. exists rest. simpl.
    rewrite string_app_cons. by rewrite <- Hrest.
Qed.

Lemma take_all (n : nat) (s : string) :
  String.length s ≤ n → Py.take n s = s.
Proof.
  revert s. induction n as [|n IH]; intros s Hn.
  - destruct s; simpl in *; [done | lia].
  - destruct s as [|c s]; simpl in *; [done|]. rewrite IH; [done | lia].
Qed.

Lemma slice_to_nonneg (k : Z) (s : string) :
  (0 ≤ k)%Z → Py.slice_to k s = Py.take (Z.to_nat k) s.
Proof. intros Hk. unfold Py.slice_to. by rewrite (Zle_imp_le_bool _ _ Hk). Qed.

End PyFacts.

(** ** Configuration filter *)

Section ConfigFacts.
Context {V : Type}.
Implicit Types (cfg : gmap string V) (k search_api : string).

Lemma filter_accepted_lookup accepted cfg k (v : V) :
  Config.filter_accepted accepted cfg !! k = Some v
  ↔ cfg !! k = Some v ∧ k ∈ accepted.
Proof. unfold Config.filter_accepted. by rewrite map_lookup_filter_Some. Qed.

Lemma get_search_params_filter search_api (config : option (gmap string V)) :
  Config.get_search_params search_api config
  = Config.filter_accepted (Config.SEARCH_API_PARAMS search_api)
      (default ∅ config).
Proof.
  unfold Config.get_search_params, Config.filter_accepted.
  destruct config as [cfg|]; simpl.
  - case_bool_decide as Hcfg; [|done]. subst cfg. by rewrite map_filter_empty.
  - by rewrite map_filter_empty.
Qed.

Lemma unknown_api_accepts_nothing search_api :
  search_api ∉ Config.known_apis → Config.SEARCH_API_PARAMS search_api = [].
Proof.
  intros Hnot. unfold Config.SEARCH_API_PARAMS.
  repeat case_bool_decide; try done;
    exfalso; apply Hnot; subst; unfold Config.known_apis; set_solver.
Qed.

End ConfigFacts.

(** C7.  [get_search_params] is a function of its two arguments, defined
    on every provider identifier and every configuration, present or
    absent.  Its result holds exactly the entries of the configuration
    whose key is in the accepted-key list of the provider; an absent
    configuration gives the empty mapping; an identifier outside the table
    gives the empty mapping; and with the accepted keys ["a"; "b"] the
    configuration {"a": 1, "c": 2} is filtered to {"a": 1}. *)
Theorem get_search_params_subset :
  (∀ (V : Type) (search_api : string) (cfg : gmap string V) k v,
     Config.get_search_params search_api (Some cfg) !! k = Some v
     ↔ cfg !! k = Some v ∧ k ∈ Config.SEARCH_API_PARAMS search_api)
  ∧ (∀ (V : Type) (search_api : string),
       Config.get_search_params search_api (@None (gmap string V)) = ∅)
  ∧ (∀ (V : Type) (search_api : string) (config : option (gmap string V)),
       search_api ∉ Config.known_apis →
       Config.get_search_params search_api config = ∅)
  ∧ Config.filter_accepted ["a"; "b"]
      ({["a" := 1%Z; "c" := 2%Z]} : gmap string Z) = {["a" := 1%Z]}.
Proof.
  split; [|split; [|split]].
  - intros V api cfg k v. rewrite get_search_params_filter. simpl.
    apply filter_accepted_lookup.
  - done.
  - intros V api config Hunknown. rewrite get_search_params_filter.
    rewrite (unknown_api_accepts_nothing _ Hunknown).
    apply map_eq. intros k. rewrite lookup_empty.
    destruct (Config.filter_accepted [] (default ∅ config) !! k) as [v|] eqn:Hk;
      [|done].
    apply filter_accepted_lookup in Hk as [_ Hin]. set_solver.
  - vm_compute. reflexivity.
Qed.

(** The same filtering on an entry of the table. *)
Example get_search_params_exa :
  Config.get_search_params "exa"
    (Some ({["num_results" := 3%Z; "top_k_results" := 7%Z]} : gmap string Z))
  = {["num_results" := 3%Z]}.
Proof. vm_compute. reflexivity. Qed.

Lemma get_search_params_subset_witness :
  ("serpapi" ∉ Config.known_apis)
  ∧ Config.get_search_params "serpapi"
      (Some ({["num_results" := 3%Z]} : gmap string Z)) = ∅.
Proof.
  assert (Hunknown : "serpapi" ∉ Config.known_apis).
  { unfold Config.known_apis. intros Hin.
    repeat (apply elem_of_cons in Hin as [Heq | Hin]; [discriminate Heq|]).
    by apply elem_of_nil in Hin. }
  split; [exact Hunknown|].
  exact (proj1 (proj2 (proj2 get_search_params_subset)) Z "serpapi"
           (Some {["num_results" := 3%Z]}) Hunknown).
Defined.

(** ** Formatter: the truncation of [raw_content] *)

Section FormatterFacts.
Import Formatter.

Lemma limited_raw_content_truncated max_tokens source raw :
  (0 ≤ max_tokens)%Z →
  raw_content source = RawStr raw →
  (max_tokens * 4 < Py.len raw)%Z →
  ∃ kept rest,
    raw = kept +:+ rest
    ∧ Py.len kept = (max_tokens * 4)%Z
    ∧ limited_raw_content max_tokens source = kept +:+ truncation_marker.
Proof.
  intros Hmax Hraw Hlong. unfold limited_raw_content. rewrite Hraw.
  assert ((max_tokens * 4 <? Py.len raw)%Z = true) as ->
    by by apply Z.ltb_lt.
  rewrite slice_to_nonneg by lia.
  destruct (take_prefix (Z.to_nat (max_tokens * 4)) raw) as [rest Hrest].
  exists (Py.take (Z.to_nat (max_tokens * 4)) raw), rest.
  split; [exact Hrest|]. split; [|done].
  unfold Py.len in *. rewrite take_length; lia.
Qed.

Lemma limited_raw_content_fits max_tokens source raw :
  raw_content source = RawStr raw →
  (Py.len raw ≤ max_tokens * 4)%Z →
  limited_raw_content max_tokens source = raw.
Proof.
  intros Hraw Hfits. unfold limited_raw_content. rewrite Hraw.
  assert ((max_tokens * 4 <? Py.len raw)%Z = false) as ->
    by by apply Z.ltb_ge.
  done.
Qed.

Lemma limited_raw_content_missing max_tokens source :
  (0 ≤ max_tokens)%Z →
  raw_content source = RawAbsent ∨ raw_content source = RawNone →
  limited_raw_content max_tokens source = "".
Proof.
  intros Hmax Hraw. unfold limited_raw_content.
  assert ((max_tokens * 4 <? Py.len "")%Z = false) as Hfits.
  { apply Z.ltb_ge. unfold Py.len. simpl. lia. }
  destruct Hraw as [-> | ->]; by rewrite Hfits.
Qed.

Lemma format_source_raw_section max_tokens source :
  format_source max_tokens true source
  = format_source max_tokens false source
    +:+ "Full source content limited to " +:+ pretty max_tokens
    +:+ " tokens: " +:+ limited_raw_content max_tokens source
    +:+ Py.nl +:+ Py.nl.
Proof.
  unfold format_source. rewrite !string_app_assoc. reflexivity.
Qed.

End FormatterFacts.

(** ** The final [strip] *)

Section StripFacts.

Lemma rev_app_spec (s acc : string) :
  String.rev_app s acc = String.rev s +:+ acc.
Proof.
  unfold String.rev. revert acc.
  induction s as [|c s IH]; intros acc; [done|].
  simpl. rewrite (IH (String c acc)), (IH (String c "")).
  by rewrite string_app_assoc.
Qed.

Lemma rev_cons (c : ascii) (s : string) :
  String.rev (String c s) = String.rev s +:+ String c "".
Proof. unfold String.rev at 1. simpl. apply rev_app_spec. Qed.

Lemma rev_app_distr (s1 s2 : string) :
  String.rev (s1 +:+ s2) = String.rev s2 +:+ String.rev s1.
Proof.
  induction s1 as [|c s1 IH]; [by rewrite string_app_nil_r|].
  rewrite string_app_cons, !rev_cons, IH. by rewrite string_app_assoc.
Qed.

Lemma rev_involutive (s : string) : String.rev (String.rev s) = s.
Proof.
  induction s as [|c s IH]; [done|].
  by rewrite rev_cons, rev_app_distr, IH.
Qed.

Lemma blank_rev (s : string) :
  Py.blank s = true → Py.blank (String.rev s) = true.
Proof.
  assert (Happ : ∀ a b, Py.blank a = true → Py.blank b = true →
                        Py.blank (a +:+ b) = true).
  { induction a as [|c a IH]; intros b Ha Hb; [done|].
    rewrite string_app_cons. simpl in *.
    apply andb_true_iff in Ha as [-> Ha]. by apply IH. }
  induction s as [|c s IH]; [done|]. simpl. intros [Hc Hs]%andb_true_iff.
  rewrite rev_cons. apply Happ; [by apply IH|]. simpl. by rewrite Hc.
Qed.

Lemma lstrip_spec (s : string) :
  ∃ ws, s = ws +:+ Py.lstrip s ∧ Py.blank ws = true.
Proof.
  induction s as [|c s (ws & Hs & Hws)]; [by exists ""|].
  simpl. destruct (Py.isspace c) eqn:Hc.
  - exists (String c ws). rewrite string_app_cons, <- Hs.
    split; [done|]. simpl. by rewrite Hc.
  - by exists "".
Qed.

Lemma rstrip_spec (s : string) :
  ∃ ws, s = Py.rstrip s +:+ ws ∧ Py.blank ws = true.
Proof.
  unfold Py.rstrip.
  destruct (lstrip_spec (String.rev s)) as (ws & Hs & Hws).
  exists (String.rev ws). split; [|by apply blank_rev].
  rewrite <- rev_app_distr, <- Hs. by rewrite rev_involutive.
Qed.

(** On a text that does not start with whitespace, [strip] only removes
    whitespace at the end. *)
Lemma strip_trailing_only (c : ascii) (s : string) :
  Py.isspace c = false →
  ∃ ws, String c s = Py.strip (String c s) +:+ ws ∧ Py.blank ws = true.
Proof.
  intros Hc. unfold Py.strip.
  assert (Py.lstrip (String c s) = String c s) as -> by (simpl; by rewrite Hc).
  apply rstrip_spec.
Qed.

End StripFacts.

(** ** Formatter: deduplication *)

Section DedupFacts.
Import Formatter.
Implicit Types (l : list SearchResult) (u k : string) (s v : SearchResult).

Lemma sources_list_flat (search_response : list QueryResponse) :
  sources_list search_response = search_response ≫= results.
Proof.
  unfold sources_list.
  enough (∀ acc, foldl (λ acc r, acc ++ results r) acc search_response
                 = acc ++ (search_response ≫= results)) as H by apply (H []).
  induction search_response as [|r rs IH]; intros acc; simpl.
  - by rewrite app_nil_r.
  - rewrite IH. by rewrite <- app_assoc.
Qed.

Lemma unique_sources_snoc l s :
  unique_sources (l ++ [s]) = dict_set (url s) s (unique_sources l).
Proof. unfold unique_sources. by rewrite foldl_app. Qed.

Lemma first_occurrences_elem (u : string) (us : list string) :
  u ∈ first_occurrences us ↔ u ∈ us.
Proof.
  induction us as [|x us IH]; simpl; [done|].
  rewrite !elem_of_cons, list_elem_of_filter, IH.
  destruct (decide (u = x)); tauto.
Qed.

Lemma first_occurrences_NoDup (us : list string) :
  NoDup (first_occurrences us).
Proof.
  induction us as [|x us IH]; simpl; [constructor|].
  constructor.
  - rewrite list_elem_of_filter. intros [Hne _]. by apply Hne.
  - by apply NoDup_filter.
Qed.

Lemma first_occurrences_snoc (us : list string) (u : string) :
  first_occurrences (us ++ [u])
  = if decide (u ∈ us) then first_occurrences us
    else first_occurrences us ++ [u].
Proof.
  induction us as [|x us IH]; [done|]. simpl.
  rewrite IH. destruct (decide (u ∈ us)) as [Hin|Hnin].
  - rewrite decide_True; [done | by apply list_elem_of_further].
  - rewrite filter_app. destruct (decide (u = x)) as [->|Hne].
    + rewrite decide_True by apply list_elem_of_here.
      rewrite filter_cons_False by (intros Hx; by apply Hx).
      by rewrite filter_nil, app_nil_r.
    + rewrite decide_False.
      2:{ rewrite elem_of_cons. intros [?|?]; done. }
      by rewrite filter_cons_True, filter_nil.
Qed.

Lemma last_with_url_snoc u l s :
  last_with_url u (l ++ [s])
  = if decide (url s = u) then Some s else last_with_url u l.
Proof.
  unfold last_with_url. rewrite filter_app.
  destruct (decide (url s = u)) as [Heq|Hne].
  - rewrite filter_cons_True by done. rewrite filter_nil. apply last_snoc.
  - rewrite filter_cons_False by done. by rewrite filter_nil, app_nil_r.
Qed.

(** A survivor is an entry with no later entry of its URL. *)
Lemma last_with_url_Some u l s :
  last_with_url u l = Some s
  ↔ url s = u ∧ ∃ l1 l2, l = l1 ++ s :: l2 ∧ ∀ x, x ∈ l2 → url x ≠ u.
Proof.
  induction l as [|y l IH] using rev_ind.
  - split; [done|]. intros (_ & l1 & l2 & Hl & _). by destruct l1.
  - rewrite last_with_url_snoc. destruct (decide (url y = u)) as [Hy|Hy].
    + split.
      * intros [= ->]. split; [done|]. exists l, []. split; [done|].
        intros x Hx. by apply elem_of_nil in Hx.
      * intros (Hs & l1 & l2 & Hl & Hlater).
        destruct l2 as [|z l2 _] using rev_ind.
        -- apply app_inj_tail in Hl as [_ ->]. done.
        -- rewrite app_comm_cons, app_assoc in Hl.
           apply app_inj_tail in Hl as [_ ->].
           exfalso. apply (Hlater z); [|done].
           apply elem_of_app. right. apply list_elem_of_here.
    + rewrite IH. split.
      * intros (Hs & l1 & l2 & -> & Hlater). split; [done|].
        exists l1, (l2 ++ [y]). split; [by rewrite <- app_assoc|].
        intros x [Hx|Hx]%elem_of_app; [by apply Hlater|].
        apply list_elem_of_singleton in Hx as ->. done.
      * intros (Hs & l1 & l2 & Hl & Hlater). split; [done|].
        destruct l2 as [|z l2 _] using rev_ind.
        -- apply app_inj_tail in Hl as [_ ->]. done.
        -- rewrite app_comm_cons, app_assoc in Hl.
           apply app_inj_tail in Hl as [-> ->].
           exists l1, l2. split; [done|].
           intros x Hx. apply Hlater, elem_of_app. by left.
Qed.

(** One store into the dict, for keys listed without repetition. *)
Lemma dict_set_Forall2 (P Q : string → SearchResult → Prop)
    (ks : list string) (d : list (string * SearchResult)) k v :
  NoDup ks →
  Forall2 (λ u kv, kv.1 = u ∧ P u kv.2) ks d →
  (∀ u x, u ≠ k → P u x → Q u x) →
  Q k v →
  Forall2 (λ u kv, kv.1 = u ∧ Q u kv.2)
    (if decide (k ∈ ks) then ks else ks ++ [k]) (dict_set k v d).
Proof.
  intros Hnd Hall Hother Hnew.
  induction Hall as [|u [k' x] ks d [Hk HP] Hall IH].
  - simpl. constructor; [done | constructor].
  - simpl in Hk. subst k'. apply NoDup_cons in Hnd as [Hu Hnd]. simpl.
    case_bool_decide as Hkey.
    + subst k. rewrite decide_True by apply list_elem_of_here.
      constructor; [done|].
      clear IH. induction Hall as [|u' [k'' x'] ks d [Hk' HP'] Hall IH];
        [constructor|].
      simpl in *. subst k''.
      apply not_elem_of_cons in Hu as [Hne Hu].
      apply NoDup_cons in Hnd as [_ Hnd].
      constructor; [|by apply IH].
      split; [done|]. simpl. apply Hother; [done|]. exact HP'.
    + specialize (IH Hnd).
      destruct (decide (k ∈ ks)) as [Hin|Hnin].
      * rewrite decide_True by (by apply list_elem_of_further).
        constructor; [|done]. split; [done|]. by apply Hother.
      * rewrite decide_False.
        2:{ rewrite elem_of_cons. intros [?|?]; done. }
        simpl. constructor; [|done]. split; [done|]. by apply Hother.
Qed.

(** The dict of the formatter: its keys are the URLs at their first
    occurrence, and each key holds the last entry of that URL. *)
Lemma unique_sources_spec l :
  Forall2 (λ u kv, kv.1 = u ∧ last_with_url u l = Some kv.2)
    (first_occurrences (url <$> l)) (unique_sources l).
Proof.
  induction l as [|s l IH] using rev_ind; [constructor|].
  rewrite unique_sources_snoc, fmap_app. simpl.
  rewrite first_occurrences_snoc.
  rewrite (decide_ext _ (url s ∈ first_occurrences (url <$> l)))
    by (by rewrite first_occurrences_elem).
  apply (dict_set_Forall2 (λ u x, last_with_url u l = Some x)
           (λ u x, last_with_url u (l ++ [s]) = Some x)).
  - apply first_occurrences_NoDup.
  - exact IH.
  - intros u x Hne Hx. rewrite last_with_url_snoc.
    by rewrite decide_False.
  - rewrite last_with_url_snoc. by rewrite decide_True.
Qed.

Lemma unique_sources_keys l :
  (unique_sources l).*1 = first_occurrences (url <$> l).
Proof.
  generalize (unique_sources_spec l).
  generalize (first_occurrences (url <$> l)) (unique_sources l).
  intros ks d Hall. induction Hall as [|u kv ks d [Hk _] _ IH]; [done|].
  csimpl. by rewrite Hk, IH.
Qed.

Lemma unique_sources_values l :
  (unique_sources l).*2 = last_write_wins l.
Proof.
  unfold last_write_wins. generalize (unique_sources_spec l).
  generalize (first_occurrences (url <$> l)) (unique_sources l).
  intros ks d Hall. induction Hall as [|u kv ks d [_ Hv] _ IH]; [done|].
  csimpl. rewrite Hv. csimpl. by rewrite IH.
Qed.

Lemma last_write_wins_urls l :
  url <$> last_write_wins l = first_occurrences (url <$> l).
Proof.
  rewrite <- unique_sources_values. generalize (unique_sources_spec l).
  generalize (first_occurrences (url <$> l)) (unique_sources l).
  intros ks d Hall. induction Hall as [|u kv ks d [_ Hv] _ IH]; [done|].
  csimpl. apply last_with_url_Some in Hv as [-> _]. by rewrite IH.
Qed.

Lemma last_write_wins_elem l s :
  s ∈ last_write_wins l
  ↔ ∃ l1 l2, l = l1 ++ s :: l2 ∧ ∀ x, x ∈ l2 → url x ≠ url s.
Proof.
  unfold last_write_wins. rewrite list_elem_of_omap. split.
  - intros (u & _ & Hlast). apply last_with_url_Some in Hlast as [<- H]. done.
  - intros Hdec. exists (url s). split.
    + apply first_occurrences_elem. destruct Hdec as (l1 & l2 & -> & _).
      rewrite fmap_app. apply elem_of_app. right. simpl.
      apply list_elem_of_here.
    + by apply last_with_url_Some.
Qed.

Lemma formatted_text_blocks (search_response : list QueryResponse)
    (max_tokens_per_source : Z) (include_raw_content : bool) :
  formatted_text search_response max_tokens_per_source include_raw_content
  = header
    +:+ blocks (format_source max_tokens_per_source include_raw_content
                  <$> last_write_wins (sources_list search_response)).
Proof.
  unfold formatted_text. rewrite unique_sources_values.
  generalize (last_write_wins (sources_list search_response)).
  generalize header.
  intros text kept. revert text.
  induction kept as [|s kept IH]; intros text; csimpl.
  - unfold blocks. simpl. by rewrite string_app_nil_r.
  - rewrite IH. unfold blocks. simpl. by rewrite string_app_assoc.
Qed.

Lemma blocks_app (xs ys : list string) :
  blocks (xs ++ ys) = blocks xs +:+ blocks ys.
Proof.
  unfold blocks. induction xs as [|x xs IH]; [done|].
  simpl. by rewrite IH, string_app_assoc.
Qed.

(** The block of every kept source stands in the text. *)
Lemma formatted_text_contains_block (search_response : list QueryResponse)
    (max_tokens_per_source : Z) (include_raw_content : bool) s :
  s ∈ last_write_wins (sources_list search_response) →
  ∃ before after,
    formatted_text search_response max_tokens_per_source include_raw_content
    = before
      +:+ format_source max_tokens_per_source include_raw_content s
      +:+ after.
Proof.
  intros Hs. rewrite formatted_text_blocks.
  apply list_elem_of_split in Hs as (l1 & l2 & ->).
  rewrite fmap_app, blocks_app. csimpl.
  eexists (header +:+ blocks _), (blocks _).
  unfold blocks at 2. simpl. by rewrite string_app_assoc.
Qed.

End DedupFacts.

(** ** Results on the formatter *)

(** With a negative budget every text is longer than the limit, and the
    bound of the slice counts from the end of the text. *)
Example negative_budget_slices_from_end :
  Formatter.limited_raw_content (-1)
    (mkResult "T" "https://a.example" "snippet" 1%Q (RawStr "abcdefgh"))
  = "abcd... [truncated]"
  ∧ Formatter.limited_raw_content (-1)
      (mkResult "T" "https://a.example" "snippet" 1%Q RawNone)
    = "... [truncated]".
Proof. split; reflexivity. Qed.

(** C1 (as the code has it).  The formatter prints one block per URL, in
    the order in which the URLs first occur in the merged results, and the
    block of a URL is that of the LAST entry carrying it: an entry is
    printed exactly when no later entry has its URL.  The returned text is
    the header followed by these blocks, with the whitespace at its end
    removed. *)
Theorem dedup_keeps_last_entry (search_response : list QueryResponse)
    (max_tokens_per_source : Z) (include_raw_content : bool) :
  let merged := Formatter.sources_list search_response in
  let kept := Formatter.last_write_wins merged in
  merged = search_response ≫= results
  ∧ Formatter.deduplicate_and_format_sources search_response
      max_tokens_per_source include_raw_content
    = Py.strip (Formatter.header
                +:+ Formatter.blocks
                      (Formatter.format_source max_tokens_per_source
                         include_raw_content <$> kept))
  ∧ (∃ ws, Formatter.header
           +:+ Formatter.blocks
                 (Formatter.format_source max_tokens_per_source
                    include_raw_content <$> kept)
           = Formatter.deduplicate_and_format_sources search_response
               max_tokens_per_source include_raw_content +:+ ws
           ∧ Py.blank ws = true)
  ∧ NoDup (url <$> kept)
  ∧ url <$> kept = Formatter.first_occurrences (url <$> merged)
  ∧ (∀ s, s ∈ kept
          ↔ ∃ before after, merged = before ++ s :: after
                            ∧ ∀ x, x ∈ after → url x ≠ url s).
Proof.
  intros merged kept. split; [apply sources_list_flat|].
  assert (Hout : Formatter.deduplicate_and_format_sources search_response
            max_tokens_per_source include_raw_content
          = Py.strip (Formatter.header
                      +:+ Formatter.blocks
                            (Formatter.format_source max_tokens_per_source
                               include_raw_content <$> kept))).
  { unfold Formatter.deduplicate_and_format_sources.
    by rewrite formatted_text_blocks. }
  split; [exact Hout|]. split.
  - rewrite Hout. unfold Formatter.header.
    apply (strip_trailing_only "S"). reflexivity.
  - split; [|split].
    + unfold kept. rewrite last_write_wins_urls.
      apply first_occurrences_NoDup.
    + apply last_write_wins_urls.
    + apply last_write_wins_elem.
Qed.

(** C1 as stated fails: of two results with one URL and different
    contents, the block printed is that of the second. *)
Lemma first_write_wins_refuted :
  url Formatter.duplicated_first = url Formatter.duplicated_second
  ∧ content Formatter.duplicated_first ≠ content Formatter.duplicated_second
  ∧ Formatter.first_write_wins
      [Formatter.duplicated_first; Formatter.duplicated_second]
    = [Formatter.duplicated_first]
  ∧ (Formatter.unique_sources
       [Formatter.duplicated_first; Formatter.duplicated_second]).*2
    = [Formatter.duplicated_second]
  ∧ Formatter.deduplicate_and_format_sources
      [mkResponse "q" []
         [Formatter.duplicated_first; Formatter.duplicated_second] None]
      100 false
    = "Sources:" +:+ Py.nl +:+ Py.nl
      +:+ "Source Beta:" +:+ Py.nl +:+ "===" +:+ Py.nl
      +:+ "URL: https://x.example/page" +:+ Py.nl +:+ "===" +:+ Py.nl
      +:+ "Most relevant content from source: second snippet"
      +:+ Py.nl +:+ "==="
  ∧ Formatter.deduplicate_and_format_sources
      [mkResponse "q" []
         [Formatter.duplicated_first; Formatter.duplicated_second] None]
      100 false
    ≠ Formatter.deduplicate_and_format_sources
        [mkResponse "q" [] [Formatter.duplicated_first] None] 100 false.
Proof.
  repeat split; try (vm_compute; reflexivity); vm_compute; discriminate.
Qed.

(** ** Batches *)

Ltac unfold_M :=
  unfold mbind, M_bind, bind, try_except, when, sleep, request, mret, M_ret,
    ret, raise.

Section BatchFacts.

(** Positions shifted by the number of queries already handled. *)
Lemma imap_shift {A B} (f : nat → A → B) (i : nat) (l : list A) :
  imap ((λ j, f (i + j)) ∘ S) l = imap (λ j, f (S i + j)) l.
Proof. apply imap_ext. intros j x _. simpl. f_equal. lia. Qed.

Lemma imap_queries {A} (f : nat → string → A) (g : A → string)
    (qs : list string) :
  (∀ i q, g (f i q) = q) → g <$> imap f qs = qs.
Proof.
  intros Hg. revert f Hg. induction qs as [|q qs IH]; intros f Hg; [done|].
  csimpl. rewrite Hg. f_equal. apply IH. intros i q'. apply Hg.
Qed.

End BatchFacts.

(** *** Exa *)

Section ExaFacts.
Import Exa.
Variables (exa : provider) (ps : params).

Lemma exa_loop_spec (search_queries : list string) (i : nat)
    (search_docs : list (Response entry)) (t : list event) :
  loop exa ps i search_queries search_docs t
  = (t ++ mjoin (imap (λ j, events exa ps (i + j)) search_queries),
     inr (search_docs ++ imap (λ j, outcome exa ps (i + j)) search_queries)).
Proof.
  revert i search_docs t.
  induction search_queries as [|q qs IH]; intros i docs t.
  - simpl. unfold_M. by rewrite !app_nil_r.
  - cbn [loop]. unfold_M. unfold process_query. unfold_M.
    csimpl. rewrite !imap_shift. rewrite Nat.add_0_r.
    unfold events at 1, outcome at 1, processed.
    destruct (0 <? i); simpl;
      destruct (exa i q (build_kwargs ps)) as [e|rl]; simpl;
      try destruct (format_response ps q rl) as [e|formatted]; simpl;
      try destruct (Py.contains "429" (str_exn e)); simpl;
      rewrite IH; f_equal;
      rewrite <- ?app_assoc; simpl; try done;
      by rewrite <- ?app_assoc.
Qed.

(** The formatting of a payload raises one exception only. *)
Lemma add_subpages_error (results_list : list result)
    (st : list entry * gset (option string)) (e : exn) :
  add_subpages results_list st = inl e →
  e = TypeError "'NoneType' object is not iterable".
Proof.
  revert st. induction results_list as [|r rl IH]; intros st; [done|].
  simpl. destruct (get_value (r_subpages r) (Some [])); [apply IH|].
  by intros [= <-].
Qed.

Lemma format_response_error (q : string) (results_list : list result)
    (e : exn) :
  format_response ps q results_list = inl e →
  e = TypeError "'NoneType' object is not iterable".
Proof.
  unfold format_response. destruct (subpages ps); [|done].
  destruct (add_subpages _ _) as [e'|st] eqn:Hsub; [|done].
  intros [= <-]. by apply add_subpages_error in Hsub.
Qed.

Lemma format_response_query (q : string) (results_list : list result)
    (formatted : Response entry) :
  format_response ps q results_list = inr formatted →
  query formatted = q ∧ error formatted = None.
Proof.
  unfold format_response.
  destruct (match subpages ps with Some _ => _ | None => _ end); [done|].
  by intros [= <-].
Qed.

Lemma exa_outcome_query (i : nat) (q : string) :
  query (outcome exa ps i q) = q.
Proof.
  unfold outcome, processed.
  destruct (exa i q (build_kwargs ps)) as [e|rl]; [done|].
  destruct (format_response ps q rl) as [e|formatted] eqn:Hf; [done|].
  by apply format_response_query in Hf as [-> _].
Qed.

Lemma exa_search_spec (search_queries : list string) :
  Py.given (include_domains ps) && Py.given (exclude_domains ps) = false →
  run (exa_search exa search_queries ps)
  = (mjoin (imap (events exa ps) search_queries),
     inr (imap (outcome exa ps) search_queries)).
Proof.
  intros Hguard. unfold run, exa_search. rewrite Hguard.
  by rewrite exa_loop_spec.
Qed.

End ExaFacts.

(** *** arXiv *)

Section ArxivFacts.
Import Arxiv.
Variables (retriever : provider) (get_full_documents : bool).

(** The query handler catches every exception of the retriever. *)
Lemma arxiv_process_single_query_spec (i : nat) (q : string)
    (t : list event) :
  process_single_query retriever get_full_documents i q t
  = (t ++ [Request i q], inr (outcome retriever get_full_documents i q)).
Proof.
  unfold process_single_query, outcome. unfold_M.
  by destruct (retriever i q).
Qed.

Lemma arxiv_loop_spec (search_queries : list string) (i : nat)
    (search_docs : list QueryResponse) (t : list event) :
  loop retriever get_full_documents i search_queries search_docs t
  = (t ++ mjoin (imap (λ j, events (i + j)) search_queries),
     inr (search_docs
          ++ imap (λ j, outcome retriever get_full_documents (i + j))
               search_queries)).
Proof.
  revert i search_docs t.
  induction search_queries as [|q qs IH]; intros i docs t.
  - simpl. unfold_M. by rewrite !app_nil_r.
  - cbn [loop]. unfold mbind, M_bind, bind, try_except at 1.
    unfold when, sleep, mret, M_ret, ret.
    csimpl. rewrite !imap_shift, Nat.add_0_r. unfold events at 1.
    destruct (0 <? i); rewrite arxiv_process_single_query_spec, IH;
      f_equal; rewrite <- ?app_assoc; simpl; try done;
      by rewrite <- ?app_assoc.
Qed.

Lemma arxiv_outcome_query (i : nat) (q : string) :
  query (outcome retriever get_full_documents i q) = q.
Proof. unfold outcome. by destruct (retriever i q). Qed.

Lemma arxiv_search_spec (search_queries : list string) :
  run (arxiv_search_async retriever search_queries get_full_documents)
  = (mjoin (imap events search_queries),
     inr (imap (outcome retriever get_full_documents) search_queries)).
Proof. unfold run, arxiv_search_async. by rewrite arxiv_loop_spec. Qed.

End ArxivFacts.

(** *** PubMed *)

Section PubmedFacts.
Import Pubmed.
Variable wrapper : provider.

(** The query handler catches every exception of the wrapper. *)
Lemma pubmed_process_single_query_spec (i : nat) (q : string)
    (t : list event) :
  process_single_query wrapper i q t
  = (t ++ [Request i q], inr (outcome wrapper i q)).
Proof.
  unfold process_single_query, outcome. unfold_M.
  by destruct (wrapper i q).
Qed.

Lemma pubmed_loop_spec (search_queries : list string) (i : nat)
    (st : loop_state) (t : list event) :
  loop wrapper i search_queries st t
  = (t ++ events wrapper i search_queries (delay st),
     inr (mkState
            (search_docs st
             ++ imap (λ j, outcome wrapper (i + j)) search_queries)
            (final_delay wrapper i search_queries (delay st)))).
Proof.
  revert i st t.
  induction search_queries as [|q qs IH]; intros i [docs d] t.
  - simpl. unfold_M. by rewrite !app_nil_r.
  - cbn [loop events final_delay]. unfold mbind, M_bind, bind, try_except at 1.
    unfold when, sleep, mret, M_ret, ret.
    csimpl. rewrite !imap_shift, Nat.add_0_r. unfold delay_after.
    destruct (0 <? i); rewrite pubmed_process_single_query_spec;
      destruct (Py.nonempty (results (outcome wrapper i q)));
      rewrite IH; simpl; f_equal; rewrite <- ?app_assoc; simpl; try done;
      by rewrite <- ?app_assoc.
Qed.

Lemma pubmed_outcome_query (i : nat) (q : string) :
  query (outcome wrapper i q) = q.
Proof. unfold outcome. by destruct (wrapper i q). Qed.

Lemma pubmed_batch_spec (search_queries : list string) :
  run (pubmed_batch wrapper search_queries)
  = (events wrapper 0 search_queries initial_delay,
     inr (mkState (imap (outcome wrapper) search_queries)
            (final_delay wrapper 0 search_queries initial_delay))).
Proof. unfold run, pubmed_batch. by rewrite pubmed_loop_spec. Qed.

Lemma pubmed_search_spec (search_queries : list string) :
  run (pubmed_search_async wrapper search_queries)
  = (events wrapper 0 search_queries initial_delay,
     inr (imap (outcome wrapper) search_queries)).
Proof.
  unfold run, pubmed_search_async. unfold mbind, M_bind, bind.
  fold (run (pubmed_batch wrapper search_queries)).
  by rewrite pubmed_batch_spec.
Qed.

End PubmedFacts.

(** *** Perplexity *)

Section PerplexityFacts.
Import Perplexity.
Variable post : nat → string → exn + payload.

(** The response built from a parsed answer, when one is built. *)
Lemma build_response_inr (q : string) (data : payload) (t t' : list event)
    (r : QueryResponse) :
  build_response q data t = (t', inr r) →
  t' = t
  ∧ ∃ c cs,
      default default_citations (citations data) = c :: cs
      ∧ r = {| query := q; images := [];
               results := primary_result c (answer data)
                          :: imap (λ j, secondary_result (j + 2)) cs;
               error := None |}.
Proof.
  unfold build_response. unfold_M.
  destruct (default default_citations (citations data)) as [|c cs];
    [discriminate|].
  intros [= <- <-]. split; [done|]. exists c, cs. split; [done|].
  simpl. by rewrite drop_0.
Qed.

(** Every response of a batch that returned comes from a request that
    succeeded. *)
Lemma perplexity_loop_inr (search_queries : list string) (i : nat)
    (search_docs out : list QueryResponse) (t t' : list event) :
  loop post i search_queries search_docs t = (t', inr out) →
  ∃ new,
    out = search_docs ++ new
    ∧ length new = length search_queries
    ∧ ∀ j r, new !! j = Some r →
        ∃ q data t1,
          search_queries !! j = Some q
          ∧ post (i + j) q = inr data
          ∧ build_response q data t1 = (t1, inr r).
Proof.
  revert i search_docs t.
  induction search_queries as [|q qs IH]; intros i docs t.
  - simpl. unfold_M. intros [= <- <-]. exists []. by rewrite app_nil_r.
  - cbn [loop]. unfold mbind, M_bind, bind at 1. unfold request.
    destruct (post i q) as [e|data] eqn:Hpost; [discriminate|].
    unfold bind at 1.
    destruct (build_response q data (t ++ [Request i q])) as [t1 [e|r]]
      eqn:Hbuild; [discriminate|].
    intros Hloop. apply IH in Hloop as (new & -> & Hlen & Hnew).
    exists (r :: new). split; [by rewrite <- app_assoc|].
    split; [simpl; by rewrite Hlen|].
    intros [|j] r' Hj; simpl in Hj.
    + injection Hj as <-. exists q, data, (t ++ [Request i q]).
      rewrite Nat.add_0_r. split; [done|]. split; [done|].
      apply build_response_inr in Hbuild as Hshape.
      destruct Hshape as [-> _]. exact Hbuild.
    + destruct (Hnew j r' Hj) as (q' & data' & t2 & Hq' & Hpost' & Hbuild').
      exists q', data', t2. split; [done|]. split; [|done].
      by replace (i + S j) with (S i + j) by lia.
Qed.

(** A request that raises ends the batch with an exception. *)
Lemma perplexity_loop_raises (search_queries : list string) (i j : nat)
    (search_docs : list QueryResponse) (t : list event) (q : string)
    (e : exn) :
  search_queries !! j = Some q →
  post (i + j) q = inl e →
  ∃ t' e', loop post i search_queries search_docs t = (t', inl e').
Proof.
  revert i j search_docs t.
  induction search_queries as [|q0 qs IH]; intros i j docs t Hj Hpost;
    [done|].
  cbn [loop]. unfold mbind, M_bind, bind at 1. unfold request.
  destruct (post i q0) as [e0|data] eqn:Hpost0; [by eauto|].
  unfold bind at 1.
  destruct (build_response q0 data (t ++ [Request i q0])) as [t1 [e1|r]];
    [by eauto|].
  destruct j as [|j]; simpl in Hj.
  - injection Hj as ->. rewrite Nat.add_0_r in Hpost. congruence.
  - eapply (IH (S i) j); [done|].
    by replace (S i + j) with (i + S j) by lia.
Qed.

End PerplexityFacts.

(** ** Results on the batches *)

(** C2.  Each sequential adapter returns one response per query, in the
    order of the queries, whatever the provider does: the response at
    position [i] carries the query at position [i], and a query on which
    the provider fails is answered by a response with no results and the
    message of the failure.  For [exa_search] this is the behaviour of a
    call whose domain filters pass the check made before the loop. *)
Theorem positional_alignment :
  (∀ (exa : Exa.provider) (ps : Exa.params) (search_queries : list string),
     Py.given (Exa.include_domains ps) && Py.given (Exa.exclude_domains ps)
     = false →
     ∃ t docs,
       run (Exa.exa_search exa search_queries ps) = (t, inr docs)
       ∧ length docs = length search_queries
       ∧ query <$> docs = search_queries
       ∧ ∀ i q e, search_queries !! i = Some q →
           exa i q (Exa.build_kwargs ps) = inl e →
           docs !! i = Some (mkResponse q [] [] (Some (str_exn e))))
  ∧ (∀ (retriever : Arxiv.provider) (get_full_documents : bool)
       (search_queries : list string),
       ∃ t docs,
         run (Arxiv.arxiv_search_async retriever search_queries
                get_full_documents) = (t, inr docs)
         ∧ length docs = length search_queries
         ∧ query <$> docs = search_queries
         ∧ ∀ i q e, search_queries !! i = Some q →
             retriever i q = inl e →
             docs !! i = Some (mkResponse q [] [] (Some (str_exn e))))
  ∧ (∀ (wrapper : Pubmed.provider) (search_queries : list string),
       ∃ t docs,
         run (Pubmed.pubmed_search_async wrapper search_queries)
         = (t, inr docs)
         ∧ length docs = length search_queries
         ∧ query <$> docs = search_queries
         ∧ ∀ i q e, search_queries !! i = Some q →
             wrapper i q = inl e →
             docs !! i = Some (mkResponse q [] [] (Some (str_exn e)))).
Proof.
  split; [|split].
  - intros exa ps qs Hguard. eexists _, _.
    split; [by apply exa_search_spec|].
    split; [by rewrite length_imap|].
    split; [apply imap_queries; intros; apply exa_outcome_query|].
    intros i q e Hq He. rewrite list_lookup_imap, Hq. simpl.
    unfold Exa.outcome, Exa.processed. by rewrite He.
  - intros retriever full qs. eexists _, _.
    split; [by apply arxiv_search_spec|].
    split; [by rewrite length_imap|].
    split; [apply imap_queries; intros; apply arxiv_outcome_query|].
    intros i q e Hq He. rewrite list_lookup_imap, Hq. simpl.
    unfold Arxiv.outcome. by rewrite He.
  - intros wrapper qs. eexists _, _.
    split; [by apply pubmed_search_spec|].
    split; [by rewrite length_imap|].
    split; [apply imap_queries; intros; apply pubmed_outcome_query|].
    intros i q e Hq He. rewrite list_lookup_imap, Hq. simpl.
    unfold Pubmed.outcome. by rewrite He.
Qed.

Lemma positional_alignment_witness :
  Py.given (Exa.include_domains Exa.default_params)
  && Py.given (Exa.exclude_domains Exa.default_params) = false
  ∧ ∃ t docs,
      run (Exa.exa_search Exa.always_failing ["a"; "b"] Exa.default_params)
      = (t, inr docs)
      ∧ length docs = length ["a"; "b"]
      ∧ query <$> docs = ["a"; "b"]
      ∧ ∀ i q e, ["a"; "b"] !! i = Some q →
          Exa.always_failing i q (Exa.build_kwargs Exa.default_params)
          = inl e →
          docs !! i = Some (mkResponse q [] [] (Some (str_exn e))).
Proof.
  split; [reflexivity|].
  apply (proj1 positional_alignment Exa.always_failing Exa.default_params
           ["a"; "b"]).
  reflexivity.
Defined.

(** C9.  When both domain lists are given, [exa_search] raises
    [ValueError] at once: the trace of the call is empty (no request, no
    pause) and no response is returned. *)
Theorem exa_domain_filters_exclusive (exa : Exa.provider)
    (search_queries : list string) (ps : Exa.params) :
  Py.given (Exa.include_domains ps) = true →
  Py.given (Exa.exclude_domains ps) = true →
  run (Exa.exa_search exa search_queries ps)
  = ([], inl (ValueError
                "Cannot specify both include_domains and exclude_domains")).
Proof.
  intros Hinc Hexc. unfold run, Exa.exa_search. by rewrite Hinc, Hexc.
Qed.

Lemma exa_domain_filters_exclusive_witness :
  Py.given (Exa.include_domains Exa.both_domains) = true
  ∧ Py.given (Exa.exclude_domains Exa.both_domains) = true
  ∧ run (Exa.exa_search Exa.always_failing ["a"; "b"] Exa.both_domains)
    = ([], inl (ValueError
                  "Cannot specify both include_domains and exclude_domains")).
Proof.
  split; [reflexivity|]. split; [reflexivity|].
  apply (exa_domain_filters_exclusive Exa.always_failing ["a"; "b"]
           Exa.both_domains); reflexivity.
Defined.

(** C5 (as the code has it).  In [exa_search], the adapter that paces
    its requests, called with domain filters that pass the check: a query
    on which the provider fails gets a response with no results and the
    message of the failure, the batch still returns one response per
    query in the order of the queries, every query is requested, and the
    failed request is followed by one pause of 1 second exactly when the
    message contains "429".  [perplexity_search] has no handler: as soon
    as the provider fails on one query, the batch raises and returns no
    response. *)
Theorem failure_isolation :
  (∀ (exa : Exa.provider) (ps : Exa.params) (search_queries : list string)
     i q e,
     Py.given (Exa.include_domains ps) && Py.given (Exa.exclude_domains ps)
     = false →
     search_queries !! i = Some q →
     exa i q (Exa.build_kwargs ps) = inl e →
     ∃ t docs,
       run (Exa.exa_search exa search_queries ps) = (t, inr docs)
       ∧ docs !! i = Some (mkResponse q [] [] (Some (str_exn e)))
       ∧ query <$> docs = search_queries
       ∧ t = mjoin (imap (Exa.events exa ps) search_queries)
       ∧ Exa.events exa ps i q
         = (if 0 <? i then [Sleep (1 # 4)%Q] else [])
           ++ [Request i q]
           ++ (if Py.contains "429" (str_exn e) then [Sleep 1%Q] else []))
  ∧ (∀ (post : nat → string → exn + Perplexity.payload)
       (search_queries : list string) i q e,
       search_queries !! i = Some q →
       post i q = inl e →
       ∃ t e', run (Perplexity.perplexity_search post search_queries)
               = (t, inl e')).
Proof.
  split.
  - intros exa ps qs i q e Hguard Hq He. eexists _, _.
    split; [by apply exa_search_spec|].
    split.
    { rewrite list_lookup_imap, Hq. simpl.
      unfold Exa.outcome, Exa.processed. by rewrite He. }
    split; [apply imap_queries; intros; apply exa_outcome_query|].
    split; [done|].
    unfold Exa.events, Exa.processed. by rewrite He.
  - intros post qs i q e Hq He.
    unfold run, Perplexity.perplexity_search.
    by apply (perplexity_loop_raises post qs 0 i [] [] q e).
Qed.

Lemma failure_isolation_witness :
  Py.given (Exa.include_domains Exa.default_params)
  && Py.given (Exa.exclude_domains Exa.default_params) = false
  ∧ ["a"; "b"] !! 0 = Some "a"
  ∧ Exa.always_failing 0 "a" (Exa.build_kwargs Exa.default_params)
    = inl (ProviderError "429 Too Many Requests")
  ∧ ∃ t docs,
      run (Exa.exa_search Exa.always_failing ["a"; "b"] Exa.default_params)
      = (t, inr docs)
      ∧ docs !! 0
        = Some (mkResponse "a" [] []
                  (Some (str_exn (ProviderError "429 Too Many Requests"))))
      ∧ query <$> docs = ["a"; "b"]
      ∧ t = mjoin (imap (Exa.events Exa.always_failing Exa.default_params)
                     ["a"; "b"])
      ∧ Exa.events Exa.always_failing Exa.default_params 0 "a"
        = (if 0 <? 0 then [Sleep (1 # 4)%Q] else [])
          ++ [Request 0 "a"]
          ++ (if Py.contains "429"
                   (str_exn (ProviderError "429 Too Many Requests"))
              then [Sleep 1%Q] else []).
Proof.
  split; [reflexivity|]. split; [reflexivity|]. split; [reflexivity|].
  apply (proj1 failure_isolation Exa.always_failing Exa.default_params
           ["a"; "b"] 0 "a" (ProviderError "429 Too Many Requests"));
    reflexivity.
Defined.

(** C5 as stated fails on [perplexity_search]: with a provider that fails
    on the first of two queries, the call raises after the first request;
    no response with an error field is produced and the second query is
    never requested. *)
Lemma perplexity_failure_aborts_batch :
  run (Perplexity.perplexity_search Perplexity.always_failing ["a"; "b"])
  = ([Request 0 "a"], inl (ProviderError "500 Server Error")).
Proof. reflexivity. Qed.

(** C8.  In a batch of [perplexity_search] that returns, the response of
    every query carries that query and no error; its first result has the
    first citation as URL, the whole answer as [content] and as
    [raw_content], and the score 1.0; and each further citation, in order,
    gives a result with the content "See primary source for full content",
    [raw_content] set to [None] and the score 0.5. *)
Theorem perplexity_citation_mapping
    (post : nat → string → exn + Perplexity.payload)
    (search_queries : list string) (t : list event)
    (docs : list QueryResponse) :
  run (Perplexity.perplexity_search post search_queries) = (t, inr docs) →
  length docs = length search_queries
  ∧ ∀ i r, docs !! i = Some r →
      ∃ q data c cs,
        search_queries !! i = Some q
        ∧ post i q = inr data
        ∧ default Perplexity.default_citations (Perplexity.citations data)
          = c :: cs
        ∧ query r = q ∧ error r = None
        ∧ length (results r) = S (length cs)
        ∧ results r !! 0
          = Some (mkResult "Perplexity Search, Source 1" c
                    (Perplexity.answer data) 1%Q
                    (RawStr (Perplexity.answer data)))
        ∧ ∀ j cj, cs !! j = Some cj →
            results r !! S j
            = Some (mkResult ("Perplexity Search, Source " +:+ pretty (j + 2))
                      cj "See primary source for full content" (1 # 2)%Q
                      RawNone).
Proof.
  unfold run, Perplexity.perplexity_search. intros Hrun.
  apply perplexity_loop_inr in Hrun as (new & -> & Hlen & Hnew).
  split; [done|]. intros i r Hr.
  destruct (Hnew i r Hr) as (q & data & t1 & Hq & Hpost & Hbuild).
  apply build_response_inr in Hbuild as (_ & c & cs & Hcites & ->).
  exists q, data, c, cs. simpl.
  split; [done|]. split; [done|]. split; [done|]. split; [done|].
  split; [done|]. split; [by rewrite length_imap|]. split; [done|].
  intros j cj Hj. rewrite list_lookup_imap, Hj. done.
Qed.

Lemma perplexity_citation_mapping_witness :
  run (Perplexity.perplexity_search Perplexity.two_citations
         ["climate policy 2024"])
  = ([Request 0 "climate policy 2024"],
     inr [mkResponse "climate policy 2024" []
            [Perplexity.primary_result "https://a.example" "The answer.";
             Perplexity.secondary_result 2 "https://b.example"] None])
  ∧ ∀ i r,
      [mkResponse "climate policy 2024" []
         [Perplexity.primary_result "https://a.example" "The answer.";
          Perplexity.secondary_result 2 "https://b.example"] None] !! i
      = Some r →
      ∃ q data c cs,
        ["climate policy 2024"] !! i = Some q
        ∧ Perplexity.two_citations i q = inr data
        ∧ default Perplexity.default_citations (Perplexity.citations data)
          = c :: cs
        ∧ query r = q ∧ error r = None
        ∧ length (results r) = S (length cs)
        ∧ results r !! 0
          = Some (mkResult "Perplexity Search, Source 1" c
                    (Perplexity.answer data) 1%Q
                    (RawStr (Perplexity.answer data)))
        ∧ ∀ j cj, cs !! j = Some cj →
            results r !! S j
            = Some (mkResult ("Perplexity Search, Source " +:+ pretty (j + 2))
                      cj "See primary source for full content" (1 # 2)%Q
                      RawNone).
Proof.
  assert (Hrun :
    run (Perplexity.perplexity_search Perplexity.two_citations
           ["climate policy 2024"])
    = ([Request 0 "climate policy 2024"],
       inr [mkResponse "climate policy 2024" []
              [Perplexity.primary_result "https://a.example" "The answer.";
               Perplexity.secondary_result 2 "https://b.example"] None]))
    by reflexivity.
  split; [exact Hrun|].
  exact (proj2 (perplexity_citation_mapping Perplexity.two_citations
                  ["climate policy 2024"] _ _ Hrun)).
Defined.

(** C10.  In a batch of [perplexity_search] that returns, no response is
    empty; and when the provider gave no ["citations"] list for a query,
    the response of that query has exactly one result: the answer, under
    the URL "https://perplexity.ai", with the score 1.0. *)
Theorem perplexity_success_nonempty
    (post : nat → string → exn + Perplexity.payload)
    (search_queries : list string) (t : list event)
    (docs : list QueryResponse) :
  run (Perplexity.perplexity_search post search_queries) = (t, inr docs) →
  ∀ i r, docs !! i = Some r →
    results r ≠ []
    ∧ ∀ q data, search_queries !! i = Some q → post i q = inr data →
        Perplexity.citations data = None →
        results r
        = [mkResult "Perplexity Search, Source 1" "https://perplexity.ai"
             (Perplexity.answer data) 1%Q (RawStr (Perplexity.answer data))].
Proof.
  unfold run, Perplexity.perplexity_search. intros Hrun i r Hr.
  apply perplexity_loop_inr in Hrun as (new & -> & Hlen & Hnew).
  destruct (Hnew i r Hr) as (q & data & t1 & Hq & Hpost & Hbuild).
  apply build_response_inr in Hbuild as (_ & c & cs & Hcites & ->).
  split; [done|].
  intros q' data' Hq' Hpost' Hnone. simpl in *.
  rewrite Hq in Hq'. injection Hq' as <-.
  rewrite Hpost in Hpost'. injection Hpost' as <-.
  rewrite Hnone in Hcites. injection Hcites as <- <-. done.
Qed.

Lemma perplexity_success_nonempty_witness :
  run (Perplexity.perplexity_search Perplexity.no_citations ["q"])
  = ([Request 0 "q"],
     inr [mkResponse "q" []
            [Perplexity.primary_result "https://perplexity.ai" "The answer."]
            None])
  ∧ [mkResponse "q" []
       [Perplexity.primary_result "https://perplexity.ai" "The answer."]
       None] !! 0
    = Some (mkResponse "q" []
              [Perplexity.primary_result "https://perplexity.ai" "The answer."]
              None)
  ∧ results (mkResponse "q" []
               [Perplexity.primary_result "https://perplexity.ai"
                  "The answer."] None) ≠ [].
Proof.
  assert (Hrun :
    run (Perplexity.perplexity_search Perplexity.no_citations ["q"])
    = ([Request 0 "q"],
       inr [mkResponse "q" []
              [Perplexity.primary_result "https://perplexity.ai"
                 "The answer."] None]))
    by reflexivity.
  split; [exact Hrun|]. split; [reflexivity|].
  exact (proj1 (perplexity_success_nonempty Perplexity.no_citations ["q"]
                  _ _ Hrun 0 _ eq_refl)).
Defined.

(** ** Doubles *)

Section F64Facts.
Import F64.
Local Open Scope Q_scope.

Lemma pow2_pos (k : Z) : 0 < pow2 k.
Proof. apply Qpower_0_lt. reflexivity. Qed.

Lemma pow2_le (a b : Z) : (a <= b)%Z → pow2 a <= pow2 b.
Proof. intros H. apply Qpower_le_compat_l; [done|]. discriminate. Qed.

Lemma pow2_0 : pow2 0 == 1.
Proof. reflexivity. Qed.

Lemma pow2_nonneg (k : Z) : (0 <= k)%Z → pow2 k == inject_Z (2 ^ k).
Proof. intros H. unfold pow2. by rewrite Zpower_Qpower. Qed.

Lemma pow2_add (a b : Z) : pow2 (a + b) == pow2 a * pow2 b.
Proof. apply Qpower_plus. discriminate. Qed.

Lemma nearest_even_close (m : Q) :
  m - (1 # 2) <= inject_Z (nearest_even m)
  ∧ inject_Z (nearest_even m) <= m + (1 # 2).
Proof.
  unfold nearest_even.
  pose proof (Qfloor_le m) as Hlo. pose proof (Qlt_floor m) as Hhi.
  rewrite inject_Z_plus in Hhi. change (inject_Z 1) with 1 in Hhi.
  destruct (Qcompare_spec (m - inject_Z (Qfloor m)) (1 # 2)) as [He|Hl|Hg].
  - destruct (Z.even (Qfloor m)).
    + lra.
    + rewrite inject_Z_plus. change (inject_Z 1) with 1. lra.
  - lra.
  - rewrite inject_Z_plus. change (inject_Z 1) with 1. lra.
Qed.

Lemma nearest_even_nonneg (m : Q) : 0 <= m → (0 <= nearest_even m)%Z.
Proof.
  intros Hm. unfold nearest_even.
  assert (0 <= Qfloor m)%Z as Hf.
  { change 0%Z with (Qfloor 0). by apply Qfloor_resp_le. }
  destruct (_ ?= _); [destruct (Z.even _)| |]; lia.
Qed.

Lemma nearest_even_int (m : Q) (k : Z) :
  m == inject_Z k → nearest_even m = k.
Proof.
  intros Hm. unfold nearest_even.
  rewrite (Qfloor_comp _ _ Hm), Qfloor_Z.
  destruct (Qcompare_spec (m - inject_Z k) (1 # 2)) as [He|Hl|Hg];
    [exfalso; lra | done | exfalso; lra].
Qed.

Lemma exponent_below_one (x : Q) : 0 < x → x < 1 → (exponent x <= -1)%Z.
Proof.
  intros Hpos Hlt. unfold exponent.
  destruct x as [a b]. unfold Qlt in Hpos, Hlt.
  cbn [Qnum Qden] in *.
  assert (Z.log2 a <= Z.log2 (Z.pos b))%Z as Hlog
    by (apply Z.log2_le_mono; lia).
  destruct (Qle_bool _ _) eqn:Hle; [|lia].
  apply Qle_bool_iff in Hle.
  destruct (decide (Z.log2 a - Z.log2 (Z.pos b) <= -1)%Z) as [|Hc]; [done|].
  assert (Z.log2 a - Z.log2 (Z.pos b) = 0)%Z as Hzero by lia.
  rewrite Hzero in Hle. exfalso.
  unfold Qle in Hle. simpl in Hle. lia.
Qed.

Lemma ulp_below_one (x : Q) : 0 < x → x < 1 → ulp x <= 2 * half_ulp.
Proof.
  intros Hpos Hlt. unfold ulp.
  pose proof (exponent_below_one x Hpos Hlt) as He.
  apply Qle_trans with (pow2 (-53)).
  - apply pow2_le. lia.
  - by vm_compute.
Qed.

Lemma round_positive_close (x : Q) :
  0 < x →
  x - (1 # 2) * ulp x <= round_positive x
  ∧ round_positive x <= x + (1 # 2) * ulp x
  ∧ 0 <= round_positive x.
Proof.
  intros Hpos. unfold round_positive.
  assert (0 < ulp x) as Hu by apply pow2_pos.
  set (u := ulp x) in *.
  pose proof (nearest_even_close (x / u)) as [Hlo Hhi].
  assert (0 <= nearest_even (x / u))%Z as Hnn.
  { apply nearest_even_nonneg. apply Qle_shift_div_l; [done|]. lra. }
  rewrite Zle_Qle in Hnn. change (inject_Z 0) with 0 in Hnn.
  set (r := inject_Z (nearest_even (x / u))) in *.
  assert (x / u * u == x) as Hx by (field; lra).
  set (m := x / u) in *.
  assert (0 <= (r - (m - (1 # 2))) * u) as H1
    by (apply Qmult_le_0_compat; lra).
  assert (0 <= (m + (1 # 2) - r) * u) as H2
    by (apply Qmult_le_0_compat; lra).
  assert (0 <= r * u) as H3 by (apply Qmult_le_0_compat; lra).
  split; [|split]; nra.
Qed.

Lemma round_comp (x y : Q) : x == y → round x = round y.
Proof. intros H. unfold round. by rewrite (Qred_complete x y H). Qed.

Lemma round_0 (x : Q) : x == 0 → round x = 0.
Proof. intros H. by rewrite (round_comp x 0 H). Qed.

Lemma round_1 (x : Q) : x == 1 → round x = 1.
Proof. intros H. by rewrite (round_comp x 1 H). Qed.

(** Rounding moves a number of the unit interval by at most half the
    spacing of the doubles below 1, and not below 0. *)
Lemma round_unit (x : Q) :
  0 <= x → x <= 1 →
  x - half_ulp <= round x ∧ round x <= x + half_ulp ∧ 0 <= round x.
Proof.
  intros H0 H1.
  destruct (Qeq_dec x 0) as [Hz|Hz].
  { rewrite (round_0 x Hz). unfold half_ulp. lra. }
  destruct (Qeq_dec x 1) as [Ho|Ho].
  { rewrite (round_1 x Ho). unfold half_ulp. lra. }
  assert (0 < x) as Hpos by lra. assert (x < 1) as Hlt by lra.
  unfold round.
  pose proof (Qred_correct x) as Hred.
  set (x' := Qred x) in *.
  assert (0 < x') as Hpos' by lra. assert (x' < 1) as Hlt' by lra.
  apply Qgt_alt in Hpos' as Hcmp. rewrite Hcmp.
  rewrite Qred_correct.
  pose proof (round_positive_close x' Hpos') as (Hlo & Hhi & Hnn).
  pose proof (ulp_below_one x' Hpos' Hlt') as Hu.
  lra.
Qed.

Lemma Qred_inject_Z (k : Z) : Qred (inject_Z k) = inject_Z k.
Proof.
  unfold Qred, inject_Z.
  pose proof (Z.ggcd_gcd k 1) as Hg.
  pose proof (Z.ggcd_correct_divisors k 1) as Hd.
  destruct (Z.ggcd k 1) as [g [a b]]. cbn [fst snd] in *.
  rewrite Z.gcd_1_r in Hg. subst g. destruct Hd as [Ha Hb].
  replace a with k by lia. replace b with 1%Z by lia. reflexivity.
Qed.

(** Integers below [2^53] are doubles. *)
Lemma of_int_exact (k : Z) :
  (0 <= k < 2 ^ 53)%Z → of_int k == inject_Z k.
Proof.
  intros [Hk0 Hk]. unfold of_int, round. rewrite Qred_inject_Z.
  destruct (decide (k = 0%Z)) as [->|Hne]; [reflexivity|].
  assert (0 < k)%Z as Hpos by lia.
  assert (0 < inject_Z k) as HposQ.
  { change 0 with (inject_Z 0). by rewrite <- Zlt_Qlt. }
  apply Qgt_alt in HposQ as Hcmp. rewrite Hcmp. rewrite Qred_correct.
  unfold round_positive, ulp.
  assert (exponent (inject_Z k) = Z.log2 k) as He.
  { unfold exponent. simpl. rewrite Z.sub_0_r.
    assert (pow2 (Z.log2 k) <= inject_Z k) as Hle.
    { rewrite pow2_nonneg by apply Z.log2_nonneg.
      rewrite <- Zle_Qle. apply Z.log2_spec. lia. }
    apply Qle_bool_iff in Hle. by rewrite Hle. }
  rewrite He.
  pose proof (Z.log2_nonneg k) as Hl0.
  assert (Z.log2 k < 53)%Z as Hl by (apply Z.log2_lt_pow2; lia).
  rewrite Z.max_l by lia.
  set (j := (52 - Z.log2 k)%Z).
  replace (Z.log2 k - 52)%Z with (- j)%Z by lia.
  assert (0 <= j)%Z as Hj by lia.
  assert (pow2 (- j) * inject_Z (2 ^ j) == 1) as Hinv.
  { rewrite <- pow2_nonneg by done. rewrite <- pow2_add.
    replace (- j + j)%Z with 0%Z by lia. reflexivity. }
  assert (0 < inject_Z (2 ^ j)) as Hpj.
  { change 0 with (inject_Z 0). rewrite <- Zlt_Qlt. lia. }
  assert (0 < pow2 (- j)) as Hpn by apply pow2_pos.
  rewrite (nearest_even_int _ (k * 2 ^ j)).
  - rewrite inject_Z_mult. 
    rewrite <- Qmult_assoc, (Qmult_comm (inject_Z (2 ^ j))), Hinv. ring.
  - rewrite inject_Z_mult. field_simplify_eq; [|lra].
    rewrite (Qmult_comm (inject_Z k)), <- Qmult_assoc, (Qmult_comm (inject_Z k)), Qmult_assoc, Hinv. ring.
Qed.

(** The rounding written out above and the doubles of the kernel agree:
    on the quotients [a / b] and the differences [1 / a - 7 / b] of the
    integers from 1 to 24, on the conversion of integers beyond [2^53],
    and on the scores for up to 64 documents. *)
Example round_agrees_with_kernel :
  forallb (λ a,
             forallb (λ b,
                        same_value
                          (PrimFloat.div (float_of_nat a) (float_of_nat b))
                          (div (inject_Z (Z.of_nat a)) (inject_Z (Z.of_nat b)))
                        && same_value
                             (PrimFloat.sub
                                (PrimFloat.div (float_of_nat 1)
                                   (float_of_nat a))
                                (PrimFloat.div (float_of_nat 7)
                                   (float_of_nat b)))
                             (sub (div 1 (inject_Z (Z.of_nat a)))
                                (div 7 (inject_Z (Z.of_nat b)))))
                     (seq 1 24))
          (seq 1 24)
  && forallb (λ z, same_value (PrimFloat.of_uint63 (Uint63.of_Z z)) (of_int z))
       [9007199254740992%Z; 9007199254740993%Z; 9007199254740995%Z;
        18014398509481987%Z; 4611686018427387903%Z]
  = true.
Proof. vm_compute. reflexivity. Qed.

End F64Facts.

(** They give the same scores for up to 64 documents. *)
Example rank_score_agrees_with_kernel :
  forallb (λ n,
             forallb (λ i,
                        match kernel_score n i with
                        | Some s =>
                            bool_decide
                              (Qnum s = Qnum (rank_score (replicate n tt) i)
                               ∧ Qden s = Qden (rank_score (replicate n tt) i))
                        | None => false
                        end)
                     (seq 0 n))
          (seq 1 64)
  = true.
Proof. vm_compute. reflexivity. Qed.

(** ** Synthetic scores *)

Section ScoreFacts.
Context {A : Type}.
Implicit Types (docs : list A) (k : nat).
Import F64.
Local Open Scope Q_scope.

Lemma score_decrement_nonempty docs :
  docs ≠ [] →
  score_decrement docs
  = div 1 (of_int (Z.of_nat (length docs) + 1)).
Proof. intros Hdocs. unfold score_decrement. by destruct docs. Qed.

Lemma rank_score_first docs : rank_score docs 0 = 1.
Proof.
  unfold rank_score, sub, mul. change (of_int (Z.of_nat 0)) with 0.
  rewrite (round_0 (0 * _)) by ring. by apply round_1.
Qed.

Lemma inverse_bounds (m : Z) :
  (2 <= m <= 2 ^ 26)%Z →
  inject_Z m * (1 / inject_Z m) == 1
  ∧ (1 # 67108864) <= 1 / inject_Z m ∧ 1 / inject_Z m <= 1 # 2.
Proof.
  intros [Hlo Hhi].
  assert (2 <= inject_Z m) as Hlo'.
  { change 2 with (inject_Z 2). by rewrite <- Zle_Qle. }
  assert (inject_Z m <= 67108864) as Hhi'.
  { change 67108864 with (inject_Z (2 ^ 26)). by rewrite <- Zle_Qle. }
  assert (inject_Z m * (1 / inject_Z m) == 1) as Hinv by (field; lra).
  set (N := inject_Z m) in *. set (v := 1 / N) in *.
  assert (0 < v) as Hv.
  { unfold v. apply Qlt_shift_div_l; lra. }
  split; [done|]. split; nra.
Qed.

Lemma score_decrement_close docs :
  docs ≠ [] → few docs →
  let v := exact_step (length docs) in
  v - half_ulp <= score_decrement docs
  ∧ score_decrement docs <= v + half_ulp.
Proof.
  intros Hdocs Hfew v. unfold exact_step in v.
  rewrite score_decrement_nonempty by done.
  assert (1 <= Z.of_nat (length docs))%Z as Hlen.
  { destruct docs; [done|]. simpl length. lia. }
  unfold few in Hfew.
  pose proof (inverse_bounds (Z.of_nat (length docs) + 1) ltac:(lia))
    as (_ & Hlo & Hhi).
  unfold div.
  rewrite (round_comp _ v).
  - pose proof (round_unit v) as Hr. fold v in Hlo, Hhi.
    destruct Hr as (? & ? & ?); [lra | lra |]. by split.
  - unfold v. rewrite of_int_exact by lia. reflexivity.
Qed.

Lemma rank_score_close docs k :
  few docs → (k < length docs)%nat →
  let d := score_decrement docs in
  let x := 1 - inject_Z (Z.of_nat k) * d in
  x - 2 * half_ulp <= rank_score docs k
  ∧ rank_score docs k <= x + 2 * half_ulp.
Proof.
  intros Hfew Hk d x.
  assert (Hdocs : docs ≠ []) by (destruct docs; simpl in *; [lia|done]).
  pose proof (score_decrement_close docs Hdocs Hfew) as [Hdlo Hdhi].
  unfold exact_step in Hdlo, Hdhi.
  unfold few in Hfew.
  pose proof (inverse_bounds (Z.of_nat (length docs) + 1) ltac:(lia))
    as (Hinv & Hvlo & Hvhi).
  fold d in Hdlo, Hdhi. unfold x.
  set (v := 1 / inject_Z (Z.of_nat (length docs) + 1)) in *.
  rewrite inject_Z_plus in Hinv. change (inject_Z 1) with 1 in Hinv.
  assert (0 <= inject_Z (Z.of_nat k)) as HK0.
  { change 0 with (inject_Z 0). rewrite <- Zle_Qle. lia. }
  assert (inject_Z (Z.of_nat k) + 1 <= inject_Z (Z.of_nat (length docs)))
    as HKn.
  { change 1 with (inject_Z 1). rewrite <- inject_Z_plus, <- Zle_Qle. lia. }
  assert (inject_Z (Z.of_nat (length docs)) <= 67108864) as HN.
  { change 67108864 with (inject_Z (2 ^ 26)). rewrite <- Zle_Qle. lia. }
  set (K := inject_Z (Z.of_nat k)) in *.
  set (n := inject_Z (Z.of_nat (length docs))) in *.
  unfold half_ulp in *.
  assert (0 <= d) as Hd0 by lra.
  assert (0 <= K * d) as HKd0 by (apply Qmult_le_0_compat; lra).
  assert (0 <= (n - 1 - K) * v) as H1 by (apply Qmult_le_0_compat; lra).
  assert (0 <= K * (v + (1 # 18014398509481984) - d)) as H2
    by (apply Qmult_le_0_compat; lra).
  assert (0 <= K * (d - (v - (1 # 18014398509481984)))) as H3
    by (apply Qmult_le_0_compat; lra).
  assert (K * d <= 1 - (1 # 67108864)) as HKd1 by nra.
  unfold rank_score, sub, mul. fold d.
  rewrite (round_comp (of_int (Z.of_nat k) * d) (K * d))
    by (rewrite of_int_exact by lia; reflexivity).
  pose proof (round_unit (K * d)) as (Hplo & Hphi & Hp0); [lra | lra |].
  unfold half_ulp in *.
  set (p := round (K * d)) in *.
  pose proof (round_unit (1 - p)) as (Hslo & Hshi & _); [lra | lra |].
  unfold half_ulp in *. lra.
Qed.

Lemma rank_score_step docs k :
  few docs → (S k < length docs)%nat →
  let v := exact_step (length docs) in
  rank_score docs (S k) < rank_score docs k
  ∧ Qabs (rank_score docs k - rank_score docs (S k) - v) <= 5 * half_ulp.
Proof.
  intros Hfew Hk v. unfold exact_step in v.
  assert (Hdocs : docs ≠ []) by (destruct docs; simpl in *; [lia|done]).
  pose proof (score_decrement_close docs Hdocs Hfew) as [Hdlo Hdhi].
  pose proof (rank_score_close docs k Hfew ltac:(lia)) as [Halo Hahi].
  unfold exact_step in Hdlo, Hdhi.
  pose proof (rank_score_close docs (S k) Hfew Hk) as [Hblo Hbhi].
  unfold few in Hfew.
  assert (1 <= Z.of_nat (length docs))%Z as Hlen by lia.
  pose proof (inverse_bounds (Z.of_nat (length docs) + 1) ltac:(lia))
    as (_ & Hvlo & _).
  fold v in Hdlo, Hdhi, Hvlo. cbv zeta in *.
  rewrite Nat2Z.inj_succ, <- Z.add_1_r, inject_Z_plus in Hblo, Hbhi.
  change (inject_Z 1) with 1 in *.
  set (K := inject_Z (Z.of_nat k)) in *.
  set (d := score_decrement docs) in *.
  set (a := rank_score docs k) in *. set (b := rank_score docs (S k)) in *.
  unfold half_ulp in *.
  split; [nra|]. apply Qabs_Qle_condition. split; nra.
Qed.

Lemma rank_score_last docs k :
  few docs → S k = length docs → 0 < rank_score docs k.
Proof.
  intros Hfew Hk.
  assert (Hdocs : docs ≠ []) by (destruct docs; simpl in *; [lia|done]).
  pose proof (score_decrement_close docs Hdocs Hfew) as [Hdlo Hdhi].
  unfold exact_step in Hdlo, Hdhi.
  pose proof (rank_score_close docs k Hfew ltac:(lia)) as [Halo _].
  unfold few in Hfew.
  pose proof (inverse_bounds (Z.of_nat (length docs) + 1) ltac:(lia))
    as (Hinv & Hvlo & _).
  cbv zeta in *.
  set (v := 1 / inject_Z (Z.of_nat (length docs) + 1)) in *.
  rewrite <- Hk in Hinv, Hfew.
  rewrite Nat2Z.inj_succ, <- Z.add_1_r, !inject_Z_plus in Hinv.
  change (inject_Z 1) with 1 in *.
  assert (0 <= inject_Z (Z.of_nat k)) as HK0.
  { change 0 with (inject_Z 0). rewrite <- Zle_Qle. lia. }
  assert (inject_Z (Z.of_nat k) <= 67108864) as HN.
  { change 67108864 with (inject_Z (2 ^ 26)). rewrite <- Zle_Qle. lia. }
  set (K := inject_Z (Z.of_nat k)) in *.
  set (d := score_decrement docs) in *.
  unfold half_ulp in *.
  assert (0 <= K * (v + (1 # 18014398509481984) - d)) as H2
    by (apply Qmult_le_0_compat; lra).
  nra.
Qed.


(** Results whose score is [rank_score] at their position have the
    descending shape. *)
Lemma ranked_results_descending docs (mk : nat → A → SearchResult) :
  docs ≠ [] → few docs →
  (∀ k doc, score (mk k doc) = rank_score docs k) →
  descending_scores (length docs) (imap mk docs).
Proof.
  intros Hdocs Hfew Hscore. split; [|split].
  - destruct docs as [|doc docs']; [done|].
    exists (mk 0%nat doc). split; [done|]. rewrite Hscore.
    apply rank_score_first.
  - intros k a b Ha Hb. rewrite list_lookup_imap in Ha, Hb.
    destruct (docs !! k) as [da|]; [|done].
    destruct (docs !! S k) as [db|] eqn:Hdb; [|done].
    simpl in Ha, Hb. injection Ha as <-. injection Hb as <-.
    rewrite !Hscore. apply rank_score_step; [done|].
    by apply lookup_lt_Some in Hdb.
  - destruct docs as [|doc docs' _] using rev_ind; [done|].
    exists (mk (length docs') doc). split.
    + rewrite imap_app. simpl. rewrite Nat.add_0_r. apply last_snoc.
    + rewrite Hscore. apply rank_score_last; [done|].
      rewrite length_app. simpl. lia.
Qed.

End ScoreFacts.

Section HugeLists.
Context {A : Type}.

(** The bound on the number of documents is not an artefact: a list of
    [2^54 - 1] documents would get the score 1 at its first two ranks,
    since [1.0 - 2^-54] rounds to [1.0]. *)
Remark scores_coincide_on_huge_lists (docs : list A) :
  Z.of_nat (length docs) = (2 ^ 54 - 1)%Z →
  rank_score docs 0 = 1%Q ∧ rank_score docs 1 = 1%Q.
Proof.
  intros Hlen. unfold rank_score, score_decrement.
  destruct docs as [|doc docs]; [done|].
  cbn [Py.nonempty]. rewrite Hlen. split; vm_compute; reflexivity.
Qed.

End HugeLists.

(** C6 as stated fails on the code: the scores are doubles, and the
    difference of two consecutive scores is not [1 / (doc_count + 1)].
    For the two records of the example the scores are 1 and
    0.66666666666666674..., the double that [1.0 - 1 * (1.0 / 3)] rounds
    to; their difference is not [1 / 3]. *)
Lemma synthetic_score_step_inexact :
  ∃ r a b,
    Pubmed.process_single_query Pubmed.two_records 0 "statin therapy" []
    = ([Request 0 "statin therapy"], inr r)
    ∧ results r = [a; b]
    ∧ score a = 1%Q
    ∧ score b = (3002399751580331 # 4503599627370496)%Q
    ∧ ¬ (score a - score b == 1 / inject_Z (Z.of_nat 2 + 1))%Q.
Proof.
  eexists _, _, _. split; [vm_compute; reflexivity|].
  split; [reflexivity|]. split; [reflexivity|]. split; [reflexivity|].
  intros H. vm_compute in H. discriminate H.
Qed.

(** C6 (as the code has it).  In the arXiv and in the PubMed adapter, a
    query for which the provider returns at least one document, and fewer
    than [2^26] of them, is answered by as many results as documents,
    with these scores: the score at rank [k] is the double
    [1.0 - k * (1.0 / (doc_count + 1))]; the first is exactly 1; each next
    one is strictly lower than the one before it, by
    [1 / (doc_count + 1)] up to rounding (the difference is within
    [5 * 2^-54] of it); and the last is above 0. *)
Theorem synthetic_scores_descend :
  (∀ (retriever : Arxiv.provider) (get_full_documents : bool) (i : nat)
     (q : string) (docs : list Arxiv.document) (t : list event),
     retriever i q = inr docs → docs ≠ [] → few docs →
     ∃ r, Arxiv.process_single_query retriever get_full_documents i q t
          = (t ++ [Request i q], inr r)
          ∧ error r = None
          ∧ length (results r) = length docs
          ∧ (∀ k s, results r !! k = Some s → score s = rank_score docs k)
          ∧ descending_scores (length docs) (results r))
  ∧ (∀ (wrapper : Pubmed.provider) (i : nat) (q : string)
       (docs : list Pubmed.document) (t : list event),
       wrapper i q = inr docs → docs ≠ [] → few docs →
       ∃ r, Pubmed.process_single_query wrapper i q t
            = (t ++ [Request i q], inr r)
            ∧ error r = None
            ∧ length (results r) = length docs
            ∧ (∀ k s, results r !! k = Some s → score s = rank_score docs k)
            ∧ descending_scores (length docs) (results r)).
Proof.
  split.
  - intros retriever full i q docs t Hdocs Hne Hfew. eexists.
    split; [apply arxiv_process_single_query_spec|].
    unfold Arxiv.outcome. rewrite Hdocs. simpl.
    split; [done|]. split; [by rewrite length_imap|]. split.
    + intros k s. rewrite list_lookup_imap.
      destruct (docs !! k); [|done]. by intros [= <-].
    + by apply ranked_results_descending.
  - intros wrapper i q docs t Hdocs Hne Hfew. eexists.
    split; [apply pubmed_process_single_query_spec|].
    unfold Pubmed.outcome. rewrite Hdocs. simpl.
    split; [done|]. split; [by rewrite length_imap|]. split.
    + intros k s. rewrite list_lookup_imap.
      destruct (docs !! k); [|done]. by intros [= <-].
    + by apply ranked_results_descending.
Qed.

Lemma synthetic_scores_descend_witness :
  Pubmed.two_records 0 "statin therapy" = inr Pubmed.sample_docs
  ∧ Pubmed.sample_docs ≠ []
  ∧ few Pubmed.sample_docs
  ∧ ∃ r, Pubmed.process_single_query Pubmed.two_records 0 "statin therapy" []
         = ([] ++ [Request 0 "statin therapy"], inr r)
         ∧ error r = None
         ∧ length (results r) = length Pubmed.sample_docs
         ∧ (∀ k s, results r !! k = Some s
                   → score s = rank_score Pubmed.sample_docs k)
         ∧ descending_scores (length Pubmed.sample_docs) (results r).
Proof.
  assert (Hne : Pubmed.sample_docs ≠ []) by discriminate.
  assert (Hfew : few Pubmed.sample_docs) by (unfold few; simpl; lia).
  split; [reflexivity|]. split; [exact Hne|]. split; [exact Hfew|].
  exact (proj2 synthetic_scores_descend Pubmed.two_records 0 "statin therapy"
           Pubmed.sample_docs [] eq_refl Hne Hfew).
Defined.

(** ** The adaptive delay of the PubMed adapter *)

Section DelayFacts.
Import Pubmed.
Variable wrapper : provider.

Lemma delay_after_bounds (i : nat) (q : string) (d : Q) :
  (1 # 2 <= d)%Q →
  (1 # 2 <= delay_after wrapper i q d)%Q ∧ (delay_after wrapper i q d <= d)%Q.
Proof.
  intros Hd. unfold delay_after.
  destruct (Py.nonempty (results (outcome wrapper i q))).
  - split; [apply Q.le_max_l|].
    apply Q.max_lub; [done | lra].
  - split; [done | lra].
Qed.

(** Whatever the provider does, the delay never rises above the delay the
    batch started with: the branch that raises it is never taken, because
    [process_single_query] catches the exceptions itself. *)
Lemma final_delay_bounds (search_queries : list string) (i : nat) (d : Q) :
  (1 # 2 <= d)%Q →
  (1 # 2 <= final_delay wrapper i search_queries d)%Q
  ∧ (final_delay wrapper i search_queries d <= d)%Q.
Proof.
  revert i d. induction search_queries as [|q qs IH]; intros i d Hd; simpl.
  - split; [done | lra].
  - destruct (delay_after_bounds i q d Hd) as [Hlo Hhi].
    destruct (IH (S i) _ Hlo) as [Hlo' Hhi']. split; [done | lra].
Qed.

End DelayFacts.

(** C4 (what the code does on a failure).  Three queries answered with a
    record bring the delay from 1.0 to 0.9, 0.81 and 0.729, as claimed:
    these are the pauses taken before the second, third and fourth query.
    The fourth query fails in the provider: its response carries the
    error, but the delay stays at 0.729 instead of becoming
    [min(5.0, 0.729 * 1.5)], and the pause before the fifth query is again
    0.729 seconds. *)
Theorem pubmed_delay_ignores_failure :
  ∃ st,
    run (Pubmed.pubmed_batch Pubmed.three_then_failing
           ["a"; "b"; "c"; "d"; "e"])
    = ([Request 0 "a"; Sleep (9 # 10)%Q; Request 1 "b"; Sleep (81 # 100)%Q;
        Request 2 "c"; Sleep (729 # 1000)%Q; Request 3 "d";
        Sleep (729 # 1000)%Q; Request 4 "e"],
       inr st)
    ∧ Pubmed.search_docs st !! 3
      = Some (mkResponse "d" [] []
                (Some "HTTP Error 429: Too Many Requests"))
    ∧ Pubmed.delay st = (729 # 1000)%Q
    ∧ (Qmax (1 # 2) (1 * (9 # 10) * (9 # 10) * (9 # 10)) == 729 # 1000)%Q
    ∧ ¬ (Pubmed.delay st == Qmin 5 ((729 # 1000) * (3 # 2)))%Q.
Proof.
  eexists. split; [vm_compute; reflexivity|].
  split; [reflexivity|]. split; [reflexivity|].
  split; [vm_compute; reflexivity|].
  vm_compute. discriminate.
Qed.

(** * Further properties *)

Set Warnings "-clear-no-such-hyp".

(** ** Formatter *)

Section FormatterMore.
Import Formatter.
Implicit Types (l : list SearchResult) (s : SearchResult).

Lemma bind_results_empty (search_response : list QueryResponse) :
  (∀ r, r ∈ search_response → results r = []) →
  search_response ≫= results = [].
Proof.
  induction search_response as [|r rs IH]; intros Hall; [done|].
  csimpl. rewrite (Hall r) by apply list_elem_of_here.
  apply IH. intros r' Hr'. apply Hall. by apply list_elem_of_further.
Qed.

Lemma take_length_le (n : nat) (t : string) :
  String.length (Py.take n t) ≤ n.
Proof.
  revert t. induction n as [|n IH]; intros [|c t]; simpl; try lia.
  specialize (IH t). lia.
Qed.

Lemma dict_set_fresh k (v : SearchResult) (d : list (string * SearchResult)) :
  k ∉ d.*1 → dict_set k v d = d ++ [(k, v)].
Proof.
  induction d as [|[k' v'] d IH]; intros Hk; [done|].
  csimpl in Hk. apply not_elem_of_cons in Hk as [Hne Hk]. simpl.
  rewrite bool_decide_false by done. by rewrite IH.
Qed.

Lemma unique_sources_distinct l :
  NoDup (url <$> l) → unique_sources l = (λ s, (url s, s)) <$> l.
Proof.
  induction l as [|s l IH] using rev_ind; intros Hnd; [done|].
  rewrite fmap_app in Hnd. apply NoDup_app in Hnd as (Hl & Hs & _).
  rewrite unique_sources_snoc, IH by done.
  rewrite dict_set_fresh.
  - by rewrite fmap_app.
  - rewrite <- list_fmap_compose. intros Hin. apply (Hs (url s)); [done|].
    apply list_elem_of_here.
Qed.

Lemma first_occurrences_length (us : list string) :
  length (first_occurrences us) ≤ length us.
Proof.
  induction us as [|u us IH]; simpl; [done|].
  pose proof (length_filter (λ v, v ≠ u) (first_occurrences us)). lia.
Qed.

(** [dict_set] and a change of the values that keeps their URL. *)
Lemma unique_sources_fmap (f : SearchResult → SearchResult) l :
  (∀ s, url (f s) = url s) →
  unique_sources (f <$> l) = prod_map id f <$> unique_sources l.
Proof.
  intros Hf. induction l as [|s l IH] using rev_ind; [done|].
  rewrite fmap_app. csimpl. rewrite !unique_sources_snoc, IH, Hf.
  generalize (unique_sources l). intros d.
  induction d as [|[k v] d IHd]; [done|].
  csimpl. case_bool_decide; [done|]. by rewrite IHd.
Qed.

Lemma sources_list_without_raw (search_response : list QueryResponse) :
  sources_list (without_raw_content <$> search_response)
  = without_raw <$> sources_list search_response.
Proof.
  rewrite !sources_list_flat.
  induction search_response as [|r rs IH]; [done|].
  csimpl. by rewrite IH, fmap_app.
Qed.

(** The returned text, by the values of the dict of the formatter. *)
Lemma returned_text_blocks (search_response : list QueryResponse)
    (max_tokens_per_source : Z) (include_raw_content : bool) :
  deduplicate_and_format_sources search_response max_tokens_per_source
    include_raw_content
  = Py.strip (header
              +:+ blocks (format_source max_tokens_per_source
                            include_raw_content
                            <$> (unique_sources
                                   (sources_list search_response)).*2)).
Proof.
  unfold deduplicate_and_format_sources.
  by rewrite formatted_text_blocks, unique_sources_values.
Qed.

Lemma size_first_occurrences (us : list string) :
  size (list_to_set us : gset string) = length (first_occurrences us).
Proof.
  rewrite <- (size_list_to_set (C:=gset string) (first_occurrences us))
    by apply first_occurrences_NoDup.
  f_equal. apply set_eq. intros u.
  by rewrite !elem_of_list_to_set, first_occurrences_elem.
Qed.

End FormatterMore.

(** X1.  When no response carries a result (an empty batch, or a batch
    in which every query failed), the formatter returns the bare header
    "Sources:". *)
Theorem format_nothing_found (search_response : list QueryResponse)
    (max_tokens_per_source : Z) (include_raw_content : bool) :
  (∀ r, r ∈ search_response → results r = []) →
  Formatter.deduplicate_and_format_sources search_response
    max_tokens_per_source include_raw_content = "Sources:".
Proof.
  intros Hall.
  unfold Formatter.deduplicate_and_format_sources, Formatter.formatted_text.
  rewrite sources_list_flat, bind_results_empty by done. reflexivity.
Qed.

Lemma format_nothing_found_witness :
  (∀ r, r ∈ [failed_response "a" (ProviderError "timeout");
             failed_response "b" (ProviderError "timeout")] →
        results r = [])
  ∧ Formatter.deduplicate_and_format_sources
      [failed_response "a" (ProviderError "timeout");
       failed_response "b" (ProviderError "timeout")] 1000 true
    = "Sources:".
Proof.
  assert (Hall : ∀ r, r ∈ [failed_response "a" (ProviderError "timeout");
                           failed_response "b" (ProviderError "timeout")] →
                      results r = []).
  { intros r Hr. apply elem_of_cons in Hr as [-> | Hr]; [reflexivity|].
    apply elem_of_cons in Hr as [-> | Hr]; [reflexivity|].
    by apply elem_of_nil in Hr. }
  split; [exact Hall|].
  exact (format_nothing_found _ 1000 true Hall).
Defined.

(** X2.  With raw-content inclusion enabled and a budget that is not
    negative, the raw content printed for a source is never longer than
    [max_tokens_per_source * 4] characters plus the 15 characters of the
    truncation marker. *)
Theorem printed_raw_content_bounded (max_tokens_per_source : Z)
    (source : SearchResult) :
  (0 ≤ max_tokens_per_source)%Z →
  (Py.len (Formatter.limited_raw_content max_tokens_per_source source)
   ≤ max_tokens_per_source * 4 + 15)%Z.
Proof.
  intros Hmax. unfold Formatter.limited_raw_content.
  set (raw := match raw_content source with
              | RawStr t => t
              | _ => ""
              end).
  replace (match raw_content source with
           | RawAbsent => "" | RawNone => "" | RawStr t => t end)
    with raw by (unfold raw; by destruct (raw_content source)).
  destruct (max_tokens_per_source * 4 <? Py.len raw)%Z eqn:Hlong.
  - rewrite slice_to_nonneg by lia. unfold Py.len.
    rewrite string_length_app. simpl.
    pose proof (take_length_le (Z.to_nat (max_tokens_per_source * 4)) raw).
    lia.
  - apply Z.ltb_ge in Hlong. lia.
Qed.

Lemma printed_raw_content_bounded_witness :
  (0 ≤ 2)%Z
  ∧ (Py.len (Formatter.limited_raw_content 2
               (mkResult "T" "https://a.example" "snippet" 1%Q
                  (RawStr "abcdefghijklmnopqrstuvwxyz")))
     ≤ 2 * 4 + 15)%Z.
Proof.
  assert (Hmax : (0 ≤ 2)%Z) by lia.
  split; [exact Hmax|].
  exact (printed_raw_content_bounded 2 _ Hmax).
Defined.

(** X3.  With raw-content inclusion disabled, the returned text depends
    neither on the token budget nor on any [raw_content]: it is the text
    obtained for the same results with their [raw_content] removed, under
    any other budget. *)
Theorem raw_content_never_printed_when_disabled
    (search_response : list QueryResponse) (budget budget' : Z) :
  Formatter.deduplicate_and_format_sources search_response budget false
  = Formatter.deduplicate_and_format_sources
      (Formatter.without_raw_content <$> search_response) budget' false.
Proof.
  unfold Formatter.deduplicate_and_format_sources. f_equal.
  unfold Formatter.formatted_text.
  rewrite sources_list_without_raw.
  rewrite (unique_sources_fmap Formatter.without_raw) by done.
  rewrite <- list_fmap_compose.
  generalize (Formatter.unique_sources
                (Formatter.sources_list search_response)).
  generalize Formatter.header. intros text d. revert text.
  induction d as [|[k v] d IH]; intros text; [done|].
  csimpl. by rewrite <- IH.
Qed.

(** X4.  The formatter prints one block per distinct URL of the merged
    results, so at most as many blocks as there are merged results; and
    when the merged results have pairwise different URLs it drops none of
    them and keeps their order: the returned text is the header followed
    by the block of every merged result, stripped. *)
Theorem dedup_count_and_lossless (search_response : list QueryResponse)
    (max_tokens_per_source : Z) (include_raw_content : bool) :
  let merged := Formatter.sources_list search_response in
  let printed := (Formatter.unique_sources merged).*2 in
  Formatter.deduplicate_and_format_sources search_response
    max_tokens_per_source include_raw_content
  = Py.strip (Formatter.header
              +:+ Formatter.blocks
                    (Formatter.format_source max_tokens_per_source
                       include_raw_content <$> printed))
  ∧ length printed = size (list_to_set (url <$> merged) : gset string)
  ∧ length printed ≤ length merged
  ∧ (NoDup (url <$> merged) →
     printed = merged
     ∧ Formatter.deduplicate_and_format_sources search_response
         max_tokens_per_source include_raw_content
       = Py.strip (Formatter.header
                   +:+ Formatter.blocks
                         (Formatter.format_source max_tokens_per_source
                            include_raw_content <$> merged))).
Proof.
  intros merged printed.
  assert (Hout : Formatter.deduplicate_and_format_sources search_response
                   max_tokens_per_source include_raw_content
                 = Py.strip (Formatter.header
                             +:+ Formatter.blocks
                                   (Formatter.format_source
                                      max_tokens_per_source
                                      include_raw_content <$> printed))).
  { apply returned_text_blocks. }
  assert (Hlen : length printed
                 = length (Formatter.first_occurrences (url <$> merged))).
  { unfold printed. rewrite unique_sources_values.
    rewrite <- last_write_wins_urls. by rewrite length_fmap. }
  split; [exact Hout|]. split; [|split].
  - rewrite Hlen. symmetry. apply size_first_occurrences.
  - rewrite Hlen.
    pose proof (first_occurrences_length (url <$> merged)) as Hle.
    by rewrite length_fmap in Hle.
  - intros Hnd.
    assert (Hall : printed = merged).
    { unfold printed. rewrite unique_sources_distinct by done.
      rewrite <- list_fmap_compose. apply list_fmap_id. }
    split; [exact Hall|]. by rewrite Hout, Hall.
Qed.

Lemma dedup_count_and_lossless_witness :
  NoDup (url <$> Formatter.sources_list
                   [mkResponse "q" []
                      [mkResult "A" "https://a.example" "one" 1%Q RawNone;
                       mkResult "B" "https://b.example" "two" 1%Q RawNone]
                      None])
  ∧ (Formatter.unique_sources
       (Formatter.sources_list
          [mkResponse "q" []
             [mkResult "A" "https://a.example" "one" 1%Q RawNone;
              mkResult "B" "https://b.example" "two" 1%Q RawNone] None])).*2
    = Formatter.sources_list
        [mkResponse "q" []
           [mkResult "A" "https://a.example" "one" 1%Q RawNone;
            mkResult "B" "https://b.example" "two" 1%Q RawNone] None]
  ∧ Formatter.deduplicate_and_format_sources
      [mkResponse "q" []
         [mkResult "A" "https://a.example" "one" 1%Q RawNone;
          mkResult "B" "https://b.example" "two" 1%Q RawNone] None]
      100 false
    = Py.strip (Formatter.header
                +:+ Formatter.blocks
                      (Formatter.format_source 100 false
                         <$> Formatter.sources_list
                               [mkResponse "q" []
                                  [mkResult "A" "https://a.example" "one" 1%Q
                                     RawNone;
                                   mkResult "B" "https://b.example" "two" 1%Q
                                     RawNone] None])).
Proof.
  assert (Hnd : NoDup (url <$> Formatter.sources_list
                   [mkResponse "q" []
                      [mkResult "A" "https://a.example" "one" 1%Q RawNone;
                       mkResult "B" "https://b.example" "two" 1%Q RawNone]
                      None])).
  { apply (bool_decide_unpack _). vm_compute. exact I. }
  split; [exact Hnd|].
  exact (proj2 (proj2 (proj2 (dedup_count_and_lossless _ 100 false))) Hnd).
Defined.

Section StripMore.

Lemma lstrip_blank (a : string) : Py.blank a = true → Py.lstrip a = "".
Proof.
  induction a as [|c a IH]; [done|]. simpl.
  intros [Hc Ha]%andb_true_iff. rewrite Hc. by apply IH.
Qed.

Lemma lstrip_app (a b : string) :
  Py.lstrip (a +:+ b)
  = if Py.blank a then Py.lstrip b else Py.lstrip a +:+ b.
Proof.
  induction a as [|c a IH]; [done|].
  rewrite string_app_cons. simpl. destruct (Py.isspace c); [|done].
  simpl. exact IH.
Qed.

Lemma lstrip_nonspace (c : ascii) (s : string) :
  Py.isspace c = false → Py.lstrip (String c s) = String c s.
Proof. intros Hc. simpl. by rewrite Hc. Qed.

Lemma lstrip_head (s : string) :
  Py.lstrip s = ""
  ∨ ∃ c s', Py.lstrip s = String c s' ∧ Py.isspace c = false.
Proof.
  induction s as [|c s IH]; [by left|]. simpl.
  destruct (Py.isspace c) eqn:Hc; [exact IH|]. right. by exists c, s.
Qed.

Lemma rstrip_cons_nonspace (c : ascii) (s : string) :
  Py.isspace c = false → Py.rstrip (String c s) = String c (Py.rstrip s).
Proof.
  intros Hc. unfold Py.rstrip. rewrite rev_cons, lstrip_app.
  destruct (Py.blank (String.rev s)) eqn:Hblank.
  - rewrite (lstrip_blank _ Hblank). simpl. by rewrite Hc.
  - rewrite rev_app_distr. reflexivity.
Qed.

Lemma string_snoc_inj (s1 s2 : string) (a b : ascii) :
  s1 +:+ String a "" = s2 +:+ String b "" → a = b.
Proof.
  intros Heq. apply (f_equal String.rev) in Heq.
  rewrite !rev_app_distr in Heq. by injection Heq.
Qed.

(** A stripped text does not end with whitespace. *)
Lemma rstrip_last (x s : string) (c : ascii) :
  Py.rstrip x = s +:+ String c "" → Py.isspace c = false.
Proof.
  unfold Py.rstrip.
  destruct (lstrip_head (String.rev x)) as [-> | (c0 & s0 & -> & Hc0)].
  - intros Heq. by destruct s.
  - rewrite rev_cons. intros Heq. by apply string_snoc_inj in Heq as <-.
Qed.

End StripMore.

(** ** The truncation law on the returned text *)

Section ContainsFacts.

Lemma startswith_app (x b : string) : Py.startswith x (x +:+ b) = true.
Proof.
  induction x as [|c x IH]; [by destruct b|].
  rewrite string_app_cons. simpl. rewrite bool_decide_true by done.
  exact IH.
Qed.

Lemma contains_app (x a b : string) : Py.contains x (a +:+ x +:+ b) = true.
Proof.
  induction a as [|c a IH].
  - change ("" +:+ x +:+ b) with (x +:+ b).
    pose proof (startswith_app x b) as Hstart.
    destruct (x +:+ b); simpl; by rewrite Hstart.
  - rewrite string_app_cons. simpl. rewrite IH. apply orb_true_r.
Qed.

Lemma blank_app_nonspace (a b : string) (c : ascii) :
  Py.isspace c = false → Py.blank (a +:+ String c b) = false.
Proof.
  intros Hc. induction a as [|d a IH].
  - change ("" +:+ String c b) with (String c b). simpl. by rewrite Hc.
  - rewrite string_app_cons. simpl. rewrite IH. apply andb_false_r.
Qed.

(** Whitespace removed at the end of a text leaves everything up to its
    last character that is not whitespace. *)
Lemma prefix_survives_rstrip (p after out ws : string) (c : ascii) :
  Py.isspace c = false → Py.blank ws = true →
  p +:+ String c after = out +:+ ws →
  ∃ after', out = p +:+ String c after'.
Proof.
  intros Hc Hws. revert out. induction p as [|d p IH]; intros out Heq.
  - change ("" +:+ String c after) with (String c after) in Heq.
    destruct out as [|c' out].
    + change ("" +:+ ws) with ws in Heq. subst ws. simpl in Hws.
      by rewrite Hc in Hws.
    + rewrite string_app_cons in Heq. injection Heq as <- _. by exists out.
  - rewrite string_app_cons in Heq. destruct out as [|d' out].
    + change ("" +:+ ws) with ws in Heq. subst ws. simpl in Hws.
      apply andb_true_iff in Hws as [_ Hws].
      by rewrite blank_app_nonspace in Hws.
    + rewrite string_app_cons in Heq. injection Heq as <- Heq.
      destruct (IH out Heq) as [after' ->]. exists after'.
      by rewrite string_app_cons.
Qed.

Lemma string_snoc_cases (s : string) :
  s = "" ∨ ∃ s' c, s = s' +:+ String c "".
Proof.
  induction s as [|c s [-> | (s' & c' & ->)]]; [by left| |].
  - right. by exists "", c.
  - right. exists (String c s'), c'. by rewrite string_app_cons.
Qed.

(** A needle that ends with a character that is not whitespace, and that
    stands in a text, stands in the text with its trailing whitespace
    removed. *)
Lemma contains_survives_rstrip (before x after out ws : string) (c : ascii) :
  Py.isspace c = false → Py.blank ws = true →
  before +:+ (x +:+ String c "") +:+ after = out +:+ ws →
  Py.contains (x +:+ String c "") out = true.
Proof.
  intros Hc Hws Heq.
  assert (before +:+ (x +:+ String c "") +:+ after
          = (before +:+ x) +:+ String c after) as Hshape.
  { rewrite !string_app_assoc. reflexivity. }
  rewrite Hshape in Heq.
  destruct (prefix_survives_rstrip _ _ _ _ _ Hc Hws Heq) as [after' ->].
  replace ((before +:+ x) +:+ String c after')
    with (before +:+ (x +:+ String c "") +:+ after')
    by (rewrite !string_app_assoc; reflexivity).
  apply contains_app.
Qed.

(** The same for a needle cut at its own trailing whitespace. *)
Lemma contains_rstrip (before y after out ws : string) (c0 : ascii) (y0 : string) :
  y = String c0 y0 → Py.isspace c0 = false → Py.blank ws = true →
  before +:+ y +:+ after = out +:+ ws →
  Py.contains (Py.rstrip y) out = true.
Proof.
  intros Hy Hc0 Hws Heq.
  destruct (rstrip_spec y) as (ws' & Hsplit & _).
  destruct (string_snoc_cases (Py.rstrip y)) as [Hnil | (x & c & Hx)].
  { rewrite Hy, rstrip_cons_nonspace in Hnil by done. discriminate. }
  pose proof (rstrip_last _ _ _ Hx) as Hc.
  rewrite Hx. rewrite Hsplit, Hx in Heq.
  rewrite string_app_assoc in Heq.
  by apply (contains_survives_rstrip before x (ws' +:+ after) out ws c).
Qed.

End ContainsFacts.

Section TruncationFacts.
Import Formatter.

(** The text before the final [strip] is the returned text followed by
    whitespace. *)
Lemma returned_text_spec (search_response : list QueryResponse)
    (max_tokens_per_source : Z) (include_raw_content : bool) :
  ∃ ws, Py.blank ws = true
        ∧ deduplicate_and_format_sources search_response
            max_tokens_per_source include_raw_content +:+ ws
          = header
            +:+ blocks (format_source max_tokens_per_source include_raw_content
                          <$> (unique_sources
                                 (sources_list search_response)).*2).
Proof.
  unfold deduplicate_and_format_sources.
  rewrite formatted_text_blocks, unique_sources_values.
  destruct (strip_trailing_only "S"
              ("ources:" +:+ Py.nl +:+ Py.nl
               +:+ blocks (format_source max_tokens_per_source
                             include_raw_content
                             <$> last_write_wins (sources_list search_response))))
    as (ws & Heq & Hws); [reflexivity|].
  exists ws. split; [done|]. symmetry. exact Heq.
Qed.

(** The block of a kept source, up to any point inside it that is not
    whitespace, stands in the returned text. *)
Lemma returned_text_contains (search_response : list QueryResponse)
    (max_tokens_per_source : Z) (source : SearchResult) (x rest : string)
    (c : ascii) :
  source ∈ (unique_sources (sources_list search_response)).*2 →
  format_source max_tokens_per_source true source
  = (x +:+ String c "") +:+ rest →
  Py.isspace c = false →
  Py.contains (x +:+ String c "")
    (deduplicate_and_format_sources search_response max_tokens_per_source true)
  = true.
Proof.
  intros Hin Hblock Hc.
  destruct (returned_text_spec search_response max_tokens_per_source true)
    as (ws & Hws & Hout).
  rewrite unique_sources_values in Hin.
  destruct (formatted_text_contains_block search_response
              max_tokens_per_source true source Hin) as (before & after & Ht).
  rewrite formatted_text_blocks, <- unique_sources_values in Ht.
  rewrite Ht, Hblock in Hout.
  apply (contains_survives_rstrip before x (rest +:+ after) _ ws c Hc Hws).
  rewrite Hout. by rewrite !string_app_assoc.
Qed.

Lemma format_source_starts (max_tokens_per_source : Z)
    (source : SearchResult) (tail : string) :
  ∃ y0, format_source max_tokens_per_source false source +:+ tail
        = String "S" y0.
Proof. unfold format_source. by eexists. Qed.

End TruncationFacts.

(** C3 as stated fails on the returned text.  The formatter strips the
    text it has built: the whitespace that ends the [raw_content] of the
    last source is not returned, so a [raw_content] that fits the budget
    does not appear in full.  And with a negative budget a source whose
    [raw_content] is [None] gets the truncation marker. *)
Lemma full_raw_content_not_returned :
  (Py.len "abc  " ≤ 10 * 4)%Z
  ∧ Formatter.deduplicate_and_format_sources
      [mkResponse "q" []
         [mkResult "T" "https://a.example" "snippet" 1%Q (RawStr "abc  ")]
         None] 10 true
    = "Sources:" +:+ Py.nl +:+ Py.nl
      +:+ "Source T:" +:+ Py.nl +:+ "===" +:+ Py.nl
      +:+ "URL: https://a.example" +:+ Py.nl +:+ "===" +:+ Py.nl
      +:+ "Most relevant content from source: snippet" +:+ Py.nl
      +:+ "===" +:+ Py.nl
      +:+ "Full source content limited to 10 tokens: abc"
  ∧ Py.contains "abc  "
      (Formatter.deduplicate_and_format_sources
         [mkResponse "q" []
            [mkResult "T" "https://a.example" "snippet" 1%Q (RawStr "abc  ")]
            None] 10 true)
    = false
  ∧ Py.contains "... [truncated]"
      (Formatter.deduplicate_and_format_sources
         [mkResponse "q" []
            [mkResult "T" "https://a.example" "snippet" 1%Q RawNone]
            None] (-1) true)
    = true.
Proof.
  split; [unfold Py.len; simpl; lia|].
  repeat split; vm_compute; reflexivity.
Qed.

(** C3 (as the code has it).  With raw-content inclusion enabled and a
    token budget that is not negative, the text before the final [strip]
    is the header and the blocks of the kept sources, and the returned
    text is that text without the whitespace at its end.  The block of a
    kept source ends with "Full source content limited to N tokens: ", the
    printed raw content and two newlines.  When [raw_content] is longer
    than [max_tokens_per_source * 4] characters, the printed raw content
    is its first [max_tokens_per_source * 4] characters followed by
    "... [truncated]", and the block up to and including the marker stands
    in the returned text.  Otherwise it is the whole [raw_content] with
    nothing after it (the empty string when [raw_content] is missing or
    [None]), and the block up to it stands in the returned text except for
    the whitespace it ends with; when the [raw_content] does not end with
    whitespace it stands there in full. *)
Theorem truncation_law (search_response : list QueryResponse)
    (max_tokens_per_source : Z) (source : SearchResult) :
  (0 ≤ max_tokens_per_source)%Z →
  source ∈ (Formatter.unique_sources
              (Formatter.sources_list search_response)).*2 →
  let char_limit := (max_tokens_per_source * 4)%Z in
  let out := Formatter.deduplicate_and_format_sources search_response
               max_tokens_per_source true in
  let block := Formatter.format_source max_tokens_per_source true source in
  let lead := Formatter.format_source max_tokens_per_source false source
              +:+ "Full source content limited to "
              +:+ pretty max_tokens_per_source +:+ " tokens: " in
  (∃ ws, Py.blank ws = true
         ∧ out +:+ ws
           = Formatter.header
             +:+ Formatter.blocks
                   (Formatter.format_source max_tokens_per_source true
                      <$> (Formatter.unique_sources
                             (Formatter.sources_list search_response)).*2))
  ∧ (∀ raw, raw_content source = RawStr raw → (char_limit < Py.len raw)%Z →
       ∃ kept rest,
         raw = kept +:+ rest ∧ Py.len kept = char_limit
         ∧ block = lead +:+ kept +:+ "... [truncated]" +:+ Py.nl +:+ Py.nl
         ∧ Py.contains (lead +:+ kept +:+ "... [truncated]") out = true)
  ∧ (∀ raw, raw_content source = RawStr raw → (Py.len raw ≤ char_limit)%Z →
       block = lead +:+ raw +:+ Py.nl +:+ Py.nl
       ∧ Py.contains (Py.rstrip (lead +:+ raw)) out = true
       ∧ (Py.rstrip raw = raw → raw ≠ "" →
          Py.contains (lead +:+ raw) out = true))
  ∧ (raw_content source = RawAbsent ∨ raw_content source = RawNone →
       block = lead +:+ Py.nl +:+ Py.nl
       ∧ Py.contains (Py.rstrip lead) out = true).
Proof.
  intros Hmax Hin char_limit out block lead.
  assert (Hblock : block
                   = lead +:+ Formatter.limited_raw_content
                                max_tokens_per_source source
                     +:+ Py.nl +:+ Py.nl).
  { unfold block, lead. rewrite format_source_raw_section.
    by rewrite !string_app_assoc. }
  destruct (format_source_starts max_tokens_per_source source
              ("Full source content limited to "
               +:+ pretty max_tokens_per_source +:+ " tokens: "))
    as [lead0 Hlead0].
  fold lead in Hlead0.
  destruct (returned_text_spec search_response max_tokens_per_source true)
    as (ws & Hws & Hout).
  assert (Hstands : ∀ y y0 rest,
            y = String "S" y0 → block = y +:+ rest →
            Py.contains (Py.rstrip y) out = true).
  { intros y y0 rest Hy Hrest.
    assert (Hin' := Hin). rewrite unique_sources_values in Hin'.
    destruct (formatted_text_contains_block search_response
                max_tokens_per_source true source Hin')
      as (before & after & Ht).
    rewrite formatted_text_blocks, <- unique_sources_values in Ht.
    fold block in Ht. rewrite Ht, Hrest in Hout.
    apply (contains_rstrip before y (rest +:+ after) out ws "S" y0 Hy);
      [reflexivity | exact Hws |].
    fold out in Hout. rewrite Hout. by rewrite !string_app_assoc. }
  split; [by exists ws|]. split; [|split].
  - intros raw Hraw Hlong.
    destruct (limited_raw_content_truncated max_tokens_per_source source raw
                Hmax Hraw Hlong) as (kept & rest & Hsplit & Hlen & Hprinted).
    exists kept, rest. split; [done|]. split; [done|].
    rewrite Hprinted in Hblock.
    assert (Hblock' : block
                      = lead +:+ kept +:+ "... [truncated]"
                        +:+ Py.nl +:+ Py.nl).
    { rewrite Hblock. by rewrite !string_app_assoc. }
    split; [exact Hblock'|].
    assert (lead +:+ kept +:+ "... [truncated]"
            = (lead +:+ kept +:+ "... [truncated") +:+ String "]" "") as ->.
    { rewrite !string_app_assoc. reflexivity. }
    apply (returned_text_contains search_response max_tokens_per_source
             source _ (Py.nl +:+ Py.nl)); [done| |reflexivity].
    fold block. rewrite Hblock'. rewrite !string_app_assoc. reflexivity.
  - intros raw Hraw Hfits.
    rewrite (limited_raw_content_fits max_tokens_per_source source raw)
      in Hblock by done.
    split; [exact Hblock|]. split.
    + destruct (format_source_starts max_tokens_per_source source
                  ("Full source content limited to "
                   +:+ pretty max_tokens_per_source +:+ " tokens: "
                   +:+ raw)) as [y0 Hy0].
      apply (Hstands (lead +:+ raw) y0 (Py.nl +:+ Py.nl)).
      * rewrite <- Hy0. unfold lead. by rewrite !string_app_assoc.
      * rewrite Hblock. by rewrite !string_app_assoc.
    + intros Hstrip Hne.
      destruct (string_snoc_cases raw) as [-> | (raw' & c & ->)]; [done|].
      pose proof (rstrip_last _ _ _ Hstrip) as Hc.
      assert (lead +:+ raw' +:+ String c ""
              = (lead +:+ raw') +:+ String c "") as ->
        by by rewrite string_app_assoc.
      apply (returned_text_contains search_response max_tokens_per_source
               source _ (Py.nl +:+ Py.nl)); [done| |done].
      fold block. rewrite Hblock. by rewrite !string_app_assoc.
  - intros Hmissing.
    rewrite (limited_raw_content_missing max_tokens_per_source source)
      in Hblock by done.
    split; [exact Hblock|].
    apply (Hstands lead lead0 (Py.nl +:+ Py.nl)); [done|].
    exact Hblock.
Qed.

Lemma truncation_law_witness :
  (0 ≤ 2)%Z
  ∧ mkResult "T" "https://a.example" "snippet" 1%Q (RawStr "abcdefghij")
    ∈ (Formatter.unique_sources
         (Formatter.sources_list
            [mkResponse "q" []
               [mkResult "T" "https://a.example" "snippet" 1%Q
                  (RawStr "abcdefghij")] None])).*2
  ∧ ∃ kept rest,
      "abcdefghij" = kept +:+ rest ∧ Py.len kept = (2 * 4)%Z
      ∧ Formatter.format_source 2 true
          (mkResult "T" "https://a.example" "snippet" 1%Q
             (RawStr "abcdefghij"))
        = (Formatter.format_source 2 false
             (mkResult "T" "https://a.example" "snippet" 1%Q
                (RawStr "abcdefghij"))
           +:+ "Full source content limited to " +:+ pretty 2%Z
           +:+ " tokens: ")
          +:+ kept +:+ "... [truncated]" +:+ Py.nl +:+ Py.nl
      ∧ Py.contains
          ((Formatter.format_source 2 false
              (mkResult "T" "https://a.example" "snippet" 1%Q
                 (RawStr "abcdefghij"))
            +:+ "Full source content limited to " +:+ pretty 2%Z
            +:+ " tokens: ")
           +:+ kept +:+ "... [truncated]")
          (Formatter.deduplicate_and_format_sources
             [mkResponse "q" []
                [mkResult "T" "https://a.example" "snippet" 1%Q
                   (RawStr "abcdefghij")] None] 2 true)
        = true.
Proof.
  assert (Hmax : (0 ≤ 2)%Z) by lia.
  assert (Hin :
    mkResult "T" "https://a.example" "snippet" 1%Q (RawStr "abcdefghij")
    ∈ (Formatter.unique_sources
         (Formatter.sources_list
            [mkResponse "q" []
               [mkResult "T" "https://a.example" "snippet" 1%Q
                  (RawStr "abcdefghij")] None])).*2).
  { vm_compute. apply list_elem_of_here. }
  split; [exact Hmax|]. split; [exact Hin|].
  refine (proj1 (proj2 (truncation_law _ 2 _ Hmax Hin)) "abcdefghij" eq_refl _).
  vm_compute. reflexivity.
Defined.

(** X5.  Whatever the responses, the returned text starts with
    "Sources:" and does not end with a whitespace character. *)
Theorem formatted_output_shape (search_response : list QueryResponse)
    (max_tokens_per_source : Z) (include_raw_content : bool) :
  let out := Formatter.deduplicate_and_format_sources search_response
               max_tokens_per_source include_raw_content in
  (∃ rest, out = "Sources:" +:+ rest)
  ∧ (∀ s c, out = s +:+ String c "" → Py.isspace c = false).
Proof.
  intros out. unfold out, Formatter.deduplicate_and_format_sources.
  split.
  - rewrite formatted_text_blocks. unfold Py.strip.
    set (body := Formatter.blocks _).
    assert (Formatter.header +:+ body
            = String "S" (String "o" (String "u" (String "r" (String "c"
                (String "e" (String "s" (String ":"
                  (Py.nl +:+ Py.nl +:+ body))))))))) as -> by reflexivity.
    rewrite lstrip_nonspace by reflexivity.
    rewrite !rstrip_cons_nonspace by reflexivity.
    by eexists.
  - intros s c. unfold Py.strip. apply rstrip_last.
Qed.

Lemma formatted_output_shape_witness :
  Formatter.deduplicate_and_format_sources [] 10 true = "Sources" +:+ String ":" ""
  ∧ Py.isspace ":" = false.
Proof.
  split; [reflexivity|].
  exact (proj2 (formatted_output_shape [] 10 true) "Sources" ":"%char eq_refl).
Defined.

(** ** Exa responses *)

Section ExaMore.
Import Exa.
Implicit Types (p : page) (pages : list page) (seen : gset (option string)).

Lemma filter_iff {A} (P Q : A → Prop) `{∀ x, Decision (P x)}
    `{∀ x, Decision (Q x)} (l : list A) :
  (∀ x, P x ↔ Q x) → filter P l = filter Q l.
Proof.
  intros HPQ. induction l as [|x l IH]; [done|].
  rewrite !filter_cons, IH.
  destruct (decide (P x)) as [HP|HP], (decide (Q x)) as [HQ|HQ];
    try done; exfalso; apply HPQ in HP || apply HPQ in HQ; done.
Qed.

Lemma filter_filter_and {A} (P Q : A → Prop) `{∀ x, Decision (P x)}
    `{∀ x, Decision (Q x)} (l : list A) :
  filter P (filter Q l) = filter (λ x, P x ∧ Q x) l.
Proof.
  induction l as [|x l IH]; [done|].
  rewrite !filter_cons.
  destruct (decide (Q x)) as [HQ|HQ].
  - rewrite filter_cons, IH.
    destruct (decide (P x)) as [HP|HP].
    + by rewrite decide_True.
    + rewrite decide_False; [done | tauto].
  - rewrite IH. rewrite decide_False; [done | tauto].
Qed.

Lemma filter_trivial {A} (P : A → Prop) `{∀ x, Decision (P x)}
    (l : list A) :
  (∀ x, P x) → filter P l = l.
Proof.
  intros HP. induction l as [|x l IH]; [done|].
  by rewrite filter_cons_True, IH.
Qed.

Lemma add_pages_spec pages (acc : list entry) seen :
  add_pages pages (acc, seen)
  = (acc ++ (result_entry
               <$> filter (λ p, page_url p ∉ seen) (first_by_url pages)),
     seen ∪ list_to_set (page_url <$> pages)).
Proof.
  unfold add_pages. revert acc seen.
  induction pages as [|p pages IH]; intros acc seen.
  - simpl. rewrite app_nil_r. f_equal.
    by rewrite (right_id_L ∅ (∪)).
  - cbn [foldl first_by_url]. rewrite fmap_cons, list_to_set_cons.
    cbn beta. cbn [fst snd]. fold (page_url p).
    case_bool_decide as Hseen.
    + rewrite IH. f_equal.
      * f_equal. f_equal. rewrite filter_cons_False by (intros Hn; by apply Hn).
        rewrite filter_filter_and. apply filter_iff. intros x.
        split; [|tauto]. intros Hx. split; [done|].
        intros Heq. by rewrite Heq in Hx.
      * set_solver.
    + rewrite IH. f_equal.
      * rewrite filter_cons_True by done. rewrite fmap_cons.
        rewrite <- app_assoc. simpl. f_equal. f_equal. f_equal.
        rewrite filter_filter_and. apply filter_iff. intros x. set_solver.
      * set_solver.
Qed.

Lemma add_pages_app (main subs : list page)
    (st : list entry * gset (option string)) :
  add_pages (main ++ subs) st = add_pages subs (add_pages main st).
Proof. unfold add_pages. by rewrite foldl_app. Qed.

Lemma add_subpages_spec (results_list : list result)
    (st : list entry * gset (option string)) :
  add_subpages results_list st
  = match subpages_in_order results_list with
    | Some subs => inr (add_pages subs st)
    | None => inl (TypeError "'NoneType' object is not iterable")
    end.
Proof.
  revert st. induction results_list as [|r rl IH]; intros st; [done|].
  simpl. destruct (r_subpages r) as [| |subs]; simpl.
  - rewrite IH. by destruct (subpages_in_order rl).
  - done.
  - rewrite IH. destruct (subpages_in_order rl) as [rest|]; simpl; [|done].
    by rewrite add_pages_app.
Qed.

Lemma first_by_url_app (main subs : list page) :
  first_by_url (main ++ subs)
  = first_by_url main
    ++ filter (λ p, page_url p
                    ∉ ((list_to_set (page_url <$> main)) : gset (option string)))
         (first_by_url subs).
Proof.
  induction main as [|p main IH].
  - simpl. symmetry. apply filter_trivial. intros x. set_solver.
  - simpl. rewrite IH, filter_app. f_equal. f_equal.
    rewrite filter_filter_and. apply filter_iff. intros x. set_solver.
Qed.

Lemma add_pages_from_empty pages :
  (add_pages pages ([], ∅)).1 = result_entry <$> first_by_url pages.
Proof.
  rewrite add_pages_spec. simpl. by rewrite filter_trivial by set_solver.
Qed.

(** The response of a payload, by the pages the passes go through. *)
Lemma format_response_spec (ps : params) (q : string)
    (results_list : list result) :
  format_response ps q results_list
  = match all_pages ps results_list with
    | Some pages =>
        inr {| query := q; images := collect_images results_list;
               results := result_entry <$> first_by_url pages;
               error := None |}
    | None => inl (TypeError "'NoneType' object is not iterable")
    end.
Proof.
  unfold format_response, all_pages. destruct (subpages ps).
  - rewrite add_subpages_spec.
    destruct (subpages_in_order results_list) as [subs|]; simpl; [|done].
    by rewrite <- add_pages_app, add_pages_from_empty.
  - simpl. by rewrite add_pages_from_empty.
Qed.

Lemma subpages_in_order_None (results_list : list result) :
  subpages_in_order results_list = None
  ↔ ∃ r, r ∈ results_list ∧ r_subpages r = HoldsNone.
Proof.
  induction results_list as [|r rl IH].
  - split; [done|]. intros (r & Hr & _). by apply elem_of_nil in Hr.
  - simpl. destruct (r_subpages r) as [| |subs] eqn:Hsub.
    + rewrite IH. split.
      * intros (r0 & Hr0 & H0). exists r0. split; [|done].
        by apply list_elem_of_further.
      * intros (r0 & [-> | Hr0]%elem_of_cons & H0); [congruence|].
        by exists r0.
    + split; [|done]. intros _. exists r. split; [|done].
      apply list_elem_of_here.
    + rewrite fmap_None, IH. split.
      * intros (r0 & Hr0 & H0). exists r0. split; [|done].
        by apply list_elem_of_further.
      * intros (r0 & [-> | Hr0]%elem_of_cons & H0); [congruence|].
        by exists r0.
Qed.

Lemma first_by_url_NoDup pages : NoDup (page_url <$> first_by_url pages).
Proof.
  induction pages as [|p pages IH]; [constructor|].
  cbn [first_by_url]. rewrite fmap_cons. constructor.
  - intros (x & Hx & Hin)%list_elem_of_fmap.
    apply list_elem_of_filter in Hin as [Hne _]. by apply Hne.
  - eapply sublist_NoDup; [exact IH|].
    apply fmap_sublist, sublist_filter.
Qed.

Lemma first_by_url_elem pages p :
  p ∈ first_by_url pages
  ↔ ∃ before after,
      pages = before ++ p :: after
      ∧ ∀ x, x ∈ before → page_url x ≠ page_url p.
Proof.
  induction pages as [|y pages IH].
  - split; [by intros ?%elem_of_nil|]. intros (b & a & Hl & _).
    by destruct b.
  - simpl. rewrite elem_of_cons, list_elem_of_filter, IH. split.
    + intros [-> | (Hne & b & a & -> & Hb)].
      * exists [], pages. split; [done|]. by intros x ?%elem_of_nil.
      * exists (y :: b), a. split; [done|].
        intros x [-> | Hx]%elem_of_cons; [by intros Heq; apply Hne|].
        by apply Hb.
    + intros (b & a & Hl & Hb). destruct b as [|y' b].
      * left. simpl in Hl. by injection Hl.
      * right. simpl in Hl. injection Hl as -> ->. split.
        -- intros Heq. eapply Hb; [apply list_elem_of_here | done].
        -- exists b, a. split; [done|].
           intros x Hx. apply Hb. by apply list_elem_of_further.
Qed.

Lemma collect_images_snoc (rl : list result) (r : result) :
  collect_images (rl ++ [r])
  = match r_image r with
    | Some image =>
        if Py.truthy image && negb (bool_decide (image ∈ collect_images rl))
        then collect_images rl ++ [image] else collect_images rl
    | None => collect_images rl
    end.
Proof. unfold collect_images. by rewrite foldl_app. Qed.

Lemma combined_content_shape p :
  match get_value (p_text p) (Some "") with
  | Some text =>
      ∃ lead, combined_content p = Some (lead +:+ text)
              ∧ (lead = "" ∨ text = ""
                 ∨ ∃ summary, lead = summary +:+ Py.nl +:+ Py.nl)
  | None =>
      combined_content p = None
      ∨ ∃ summary, summary ≠ "" ∧ p_summary p = Holds summary
                   ∧ combined_content p = Some summary
  end.
Proof.
  unfold combined_content.
  assert (Htruthy : ∀ x, Py.truthy x = false → x = "").
  { intros x Hx. unfold Py.truthy in Hx. apply negb_false_iff in Hx.
    by apply bool_decide_eq_true in Hx. }
  assert (Hfalsy : ∀ x, Py.truthy x = true → x ≠ "").
  { intros x Hx. unfold Py.truthy in Hx. apply negb_true_iff in Hx.
    by apply bool_decide_eq_false in Hx. }
  destruct (p_text p) as [| |text], (p_summary p) as [| |summary]; simpl;
    try (by left); try (by exists ""; split; [|left]).
  - destruct (Py.truthy summary) eqn:Hs.
    + exists summary. split; [by rewrite string_app_nil_r|]. by right; left.
    + exists "". split; [done|]. by left.
  - destruct (Py.truthy summary) eqn:Hs; [|by left].
    right. exists summary. by split; [apply Hfalsy|].
  - destruct (Py.truthy summary) eqn:Hs.
    + destruct (Py.truthy text) eqn:Ht.
      * exists (summary +:+ Py.nl +:+ Py.nl).
        split; [by rewrite !string_app_assoc|]. right. right. by eexists.
      * rewrite (Htruthy _ Ht). exists summary.
        split; [by rewrite string_app_nil_r|]. by right; left.
    + exists "". split; [done|]. by left.
Qed.

End ExaMore.

(** X6.  In one Exa response the results are the entries of the pages
    whose URL has not occurred before, in the order main results first and
    (when subpages were asked for) subpages after them: of the pages that
    share a URL the FIRST one is kept, so the URLs of a response are
    pairwise different.  There is no response when subpages were asked for
    and the [subpages] attribute of a main result holds [None]: the
    formatting then raises [TypeError], which the batch records as the
    error of the query. *)
Theorem exa_first_page_wins (ps : Exa.params) (q : string)
    (results_list : list Exa.result) :
  match Exa.all_pages ps results_list with
  | Some pages =>
      ∃ response,
        Exa.format_response ps q results_list = inr response
        ∧ results response = Exa.result_entry <$> Exa.first_by_url pages
        ∧ NoDup (Exa.e_url <$> results response)
        ∧ (∀ p, p ∈ Exa.first_by_url pages
                ↔ ∃ before after,
                    pages = before ++ p :: after
                    ∧ ∀ x, x ∈ before → Exa.page_url x ≠ Exa.page_url p)
  | None =>
      Exa.format_response ps q results_list
      = inl (TypeError "'NoneType' object is not iterable")
  end
  ∧ (Exa.all_pages ps results_list = None
     ↔ Exa.subpages ps ≠ None
       ∧ ∃ r, r ∈ results_list ∧ Exa.r_subpages r = Exa.HoldsNone).
Proof.
  split.
  - rewrite format_response_spec.
    destruct (Exa.all_pages ps results_list) as [pages|]; [|done].
    eexists. split; [done|]. simpl. split; [done|]. split.
    + rewrite <- list_fmap_compose. apply first_by_url_NoDup.
    + intros p. apply first_by_url_elem.
  - unfold Exa.all_pages. destruct (Exa.subpages ps) as [n|].
    + rewrite fmap_None, subpages_in_order_None. split.
      * intros H. by split.
      * by intros [_ H].
    + split; [done|]. by intros [H _].
Qed.

(** The subpages of the second result hold [None]: with subpages asked
    for, the query is answered by the error response of the [TypeError];
    without, by the two main results. *)
Example exa_subpages_none :
  Exa.outcome Exa.lacking_subpages Exa.with_subpages 0 "q"
  = mkResponse "q" [] [] (Some "'NoneType' object is not iterable")
  ∧ results (Exa.outcome Exa.lacking_subpages Exa.default_params 0 "q")
    = [Exa.mkEntry (Some "A") (Some "https://a.example") (Some "one")
         (Some 1%Q) (Some "one");
       Exa.mkEntry (Some "B") (Some "https://b.example") (Some "Summary.")
         None None].
Proof. split; reflexivity. Qed.

(** X7.  The [raw_content] of an Exa result is the text of its page as
    [get_value] read it, so it is [None] when the [text] attribute holds
    [None].  When it is a string, the [content] ends with it: it is the
    text alone, or the summary, a blank line and the text.  When it is
    [None], the [content] is the summary if there is a non-empty one, and
    [None] otherwise. *)
Theorem exa_content_ends_with_raw (ps : Exa.params) (q : string)
    (results_list : list Exa.result) (response : Response Exa.entry)
    (r : Exa.entry) :
  Exa.format_response ps q results_list = inr response →
  r ∈ results response →
  ∃ p, r = Exa.result_entry p
       ∧ Exa.e_raw_content r = Exa.get_value (Exa.p_text p) (Some "")
       ∧ match Exa.e_raw_content r with
         | Some text =>
             ∃ lead, Exa.e_content r = Some (lead +:+ text)
                     ∧ (lead = "" ∨ text = ""
                        ∨ ∃ summary, lead = summary +:+ Py.nl +:+ Py.nl)
         | None =>
             Exa.e_content r = None
             ∨ ∃ summary, summary ≠ "" ∧ Exa.p_summary p = Exa.Holds summary
                          ∧ Exa.e_content r = Some summary
         end.
Proof.
  rewrite format_response_spec.
  destruct (Exa.all_pages ps results_list) as [pages|]; [|done].
  intros [= <-]. simpl. intros (p & -> & _)%list_elem_of_fmap.
  exists p. split; [done|]. split; [done|].
  apply combined_content_shape.
Qed.

Lemma exa_content_ends_with_raw_witness :
  Exa.format_response Exa.default_params "q"
    [Exa.mkExaResult
       (Exa.mkPage (Exa.Holds "T") (Exa.Holds "https://a.example")
          Exa.HoldsNone (Exa.Holds "Summary.") Exa.HoldsNone)
       Exa.HoldsNone None]
  = inr (mkResponse "q" []
           [Exa.mkEntry (Some "T") (Some "https://a.example")
              (Some "Summary.") None None] None)
  ∧ Exa.mkEntry (Some "T") (Some "https://a.example") (Some "Summary.")
      None None
    ∈ results (mkResponse "q" []
                 [Exa.mkEntry (Some "T") (Some "https://a.example")
                    (Some "Summary.") None None] None)
  ∧ ∃ p, Exa.mkEntry (Some "T") (Some "https://a.example") (Some "Summary.")
           None None = Exa.result_entry p
       ∧ None = Exa.get_value (Exa.p_text p) (Some "")
       ∧ (Some "Summary." = None
          ∨ ∃ summary, summary ≠ "" ∧ Exa.p_summary p = Exa.Holds summary
                       ∧ Some "Summary." = Some summary).
Proof.
  assert (Hf : Exa.format_response Exa.default_params "q"
                 [Exa.mkExaResult
                    (Exa.mkPage (Exa.Holds "T") (Exa.Holds "https://a.example")
                       Exa.HoldsNone (Exa.Holds "Summary.") Exa.HoldsNone)
                    Exa.HoldsNone None]
               = inr (mkResponse "q" []
                        [Exa.mkEntry (Some "T") (Some "https://a.example")
                           (Some "Summary.") None None] None))
    by reflexivity.
  assert (Hin : Exa.mkEntry (Some "T") (Some "https://a.example")
                  (Some "Summary.") None None
                ∈ results (mkResponse "q" []
                             [Exa.mkEntry (Some "T") (Some "https://a.example")
                                (Some "Summary.") None None] None))
    by apply list_elem_of_here.
  split; [exact Hf|]. split; [exact Hin|].
  exact (exa_content_ends_with_raw _ _ _ _ _ Hf Hin).
Defined.

(** X8.  The images of an Exa response are the non-empty images of its
    main results, each listed once. *)
Theorem exa_images_distinct (results_list : list Exa.result) :
  NoDup (Exa.collect_images results_list)
  ∧ ∀ image, image ∈ Exa.collect_images results_list
             ↔ image ≠ ""
               ∧ ∃ r, r ∈ results_list ∧ Exa.r_image r = Some image.
Proof.
  induction results_list as [|r rl [IHnd IHin]] using rev_ind.
  - split; [constructor|]. intros image. split; [by intros ?%elem_of_nil|].
    intros (_ & r & Hr & _). by apply elem_of_nil in Hr.
  - rewrite collect_images_snoc.
    assert (Hold : ∀ image,
              (image ≠ "" ∧ ∃ r0, r0 ∈ rl ∧ Exa.r_image r0 = Some image)
              → image ≠ "" ∧ ∃ r0, r0 ∈ rl ++ [r]
                                   ∧ Exa.r_image r0 = Some image).
    { intros image (Hne & r0 & Hr0 & Himg). split; [done|].
      exists r0. split; [|done]. apply elem_of_app. by left. }
    destruct (Exa.r_image r) as [img|] eqn:Himg.
    + destruct (Py.truthy img) eqn:Htruthy; simpl.
      * assert (Hne : img ≠ "").
        { unfold Py.truthy in Htruthy. apply negb_true_iff in Htruthy.
          by apply bool_decide_eq_false in Htruthy. }
        case_bool_decide as Hseen; simpl.
        -- split; [done|]. intros image. rewrite IHin. split; [apply Hold|].
           intros (Hi & r0 & [Hr0 | Hr0]%elem_of_app & Hr0img).
           ++ split; [done|]. by exists r0.
           ++ apply list_elem_of_singleton in Hr0 as ->.
              rewrite Himg in Hr0img. injection Hr0img as <-.
              by apply IHin.
        -- split.
           ++ apply NoDup_app. split; [done|]. split; [|apply NoDup_singleton].
              intros x Hx ->%list_elem_of_singleton. done.
           ++ intros image. rewrite elem_of_app, list_elem_of_singleton, IHin.
              split.
              ** intros [Hin | ->]; [by apply Hold|]. split; [done|].
                 exists r. split; [|done]. apply elem_of_app. right.
                 apply list_elem_of_here.
              ** intros (Hi & r0 & [Hr0 | Hr0]%elem_of_app & Hr0img).
                 --- left. split; [done|]. by exists r0.
                 --- apply list_elem_of_singleton in Hr0 as ->.
                     rewrite Himg in Hr0img. injection Hr0img as <-.
                     by right.
      * assert (img = "") as ->.
        { unfold Py.truthy in Htruthy. apply negb_false_iff in Htruthy.
          by apply bool_decide_eq_true in Htruthy. }
        split; [done|]. intros image. rewrite IHin. split; [apply Hold|].
        intros (Hi & r0 & [Hr0 | Hr0]%elem_of_app & Hr0img).
        -- split; [done|]. by exists r0.
        -- apply list_elem_of_singleton in Hr0 as ->.
           rewrite Himg in Hr0img. by injection Hr0img as <-.
    + split; [done|]. intros image. rewrite IHin. split; [apply Hold|].
      intros (Hi & r0 & [Hr0 | Hr0]%elem_of_app & Hr0img).
      * split; [done|]. by exists r0.
      * apply list_elem_of_singleton in Hr0 as ->. congruence.
Qed.

(** ** Requests and pauses *)

Section TraceFacts.

Lemma requests_of_app (t1 t2 : list event) :
  requests_of (t1 ++ t2) = requests_of t1 ++ requests_of t2.
Proof. unfold requests_of. apply omap_app. Qed.

Lemma pauses_of_app (t1 t2 : list event) :
  pauses_of (t1 ++ t2) = pauses_of t1 ++ pauses_of t2.
Proof. unfold pauses_of. apply omap_app. Qed.

Lemma total_sleep_app (t1 t2 : list event) :
  (total_sleep (t1 ++ t2) == total_sleep t1 + total_sleep t2)%Q.
Proof.
  unfold total_sleep. rewrite pauses_of_app.
  induction (pauses_of t1) as [|d ds IH]; simpl; [ring|].
  rewrite IH. ring.
Qed.

(** The requests of a batch whose queries each issue one request. *)
Lemma requests_of_shifted (ev : nat → string → list event) (g : nat → nat)
    (qs : list string) :
  (∀ i q, requests_of (ev i q) = [(g i, q)]) →
  requests_of (mjoin (imap ev qs)) = imap (λ i, pair (g i)) qs.
Proof.
  revert ev g. induction qs as [|q qs IH]; intros ev g Hev; [done|].
  csimpl. rewrite requests_of_app, Hev. simpl. f_equal.
  apply (IH (ev ∘ S) (g ∘ S)). intros i q'. apply Hev.
Qed.

Lemma requests_of_per_query (ev : nat → string → list event)
    (qs : list string) :
  (∀ i q, requests_of (ev i q) = [(i, q)]) →
  requests_of (mjoin (imap ev qs)) = imap pair qs.
Proof. intros Hev. by apply (requests_of_shifted ev id). Qed.

Lemma exa_events_requests (exa : Exa.provider) (ps : Exa.params) i q :
  requests_of (Exa.events exa ps i q) = [(i, q)].
Proof.
  unfold Exa.events.
  destruct (0 <? i), (Exa.processed exa ps i q) as [e|?];
    try destruct (Py.contains "429" (str_exn e)); done.
Qed.

Lemma arxiv_events_requests i q : requests_of (Arxiv.events i q) = [(i, q)].
Proof. unfold Arxiv.events. by destruct (0 <? i). Qed.

Lemma pubmed_events_requests (wrapper : Pubmed.provider)
    (qs : list string) (i : nat) (d : Q) :
  requests_of (Pubmed.events wrapper i qs d) = imap (λ j, pair (i + j)) qs.
Proof.
  revert i d. induction qs as [|q qs IH]; intros i d; [done|].
  cbn [Pubmed.events]. rewrite !requests_of_app, IH. csimpl.
  rewrite Nat.add_0_r.
  rewrite (imap_ext ((λ j, pair (i + j)) ∘ S) (λ j, pair (S i + j)))
    by (intros j x _; simpl; f_equal; lia).
  by destruct (0 <? i).
Qed.

Lemma arxiv_pauses_from (i : nat) (qs : list string) :
  pauses_of (mjoin (imap (λ j, Arxiv.events (S i + j)) qs))
  = replicate (length qs) 3%Q.
Proof.
  revert i. induction qs as [|q qs IH]; intros i; [done|].
  csimpl. f_equal. rewrite <- (IH (S i)). f_equal. f_equal.
  apply imap_ext. intros j x _. simpl. f_equal. lia.
Qed.

End TraceFacts.

(** X10.  Each sequential adapter sends exactly one request per query, in
    the order of the queries, whether the earlier queries succeeded or
    failed ([exa_search]: when the domain filters pass the check). *)
Theorem one_request_per_query :
  (∀ (exa : Exa.provider) (ps : Exa.params) (search_queries : list string),
     Py.given (Exa.include_domains ps) && Py.given (Exa.exclude_domains ps)
     = false →
     requests_of (run (Exa.exa_search exa search_queries ps)).1
     = imap pair search_queries)
  ∧ (∀ (retriever : Arxiv.provider) (get_full_documents : bool)
       (search_queries : list string),
       requests_of
         (run (Arxiv.arxiv_search_async retriever search_queries
                 get_full_documents)).1
       = imap pair search_queries)
  ∧ (∀ (wrapper : Pubmed.provider) (search_queries : list string),
       requests_of (run (Pubmed.pubmed_search_async wrapper search_queries)).1
       = imap pair search_queries).
Proof.
  split; [|split].
  - intros exa ps qs Hguard. rewrite exa_search_spec by done. simpl.
    apply requests_of_per_query. intros i q. apply exa_events_requests.
  - intros retriever full qs. rewrite arxiv_search_spec. simpl.
    apply requests_of_per_query. intros i q. apply arxiv_events_requests.
  - intros wrapper qs. rewrite pubmed_search_spec. simpl.
    apply pubmed_events_requests.
Qed.

Lemma one_request_per_query_witness :
  Py.given (Exa.include_domains Exa.default_params)
  && Py.given (Exa.exclude_domains Exa.default_params) = false
  ∧ requests_of
      (run (Exa.exa_search Exa.always_failing ["a"; "b"; "c"]
              Exa.default_params)).1
    = imap pair ["a"; "b"; "c"].
Proof.
  split; [reflexivity|].
  exact (proj1 one_request_per_query Exa.always_failing Exa.default_params
           ["a"; "b"; "c"] eq_refl).
Defined.

(** X11.  The pauses of [arxiv_search_async] are one pause of 3 seconds
    before every query but the first, and nothing else: whatever the
    retriever raises (a "429" or "Too Many Requests" error included), the
    additional 5-second pause of the loop is never taken, because
    [process_single_query] catches the exception before the loop sees
    it. *)
Theorem arxiv_pauses_fixed (retriever : Arxiv.provider)
    (get_full_documents : bool) (search_queries : list string) :
  pauses_of
    (run (Arxiv.arxiv_search_async retriever search_queries
            get_full_documents)).1
  = replicate (length search_queries - 1) 3%Q.
Proof.
  rewrite arxiv_search_spec. simpl.
  destruct search_queries as [|q qs]; [done|].
  csimpl. rewrite Nat.sub_0_r. apply (arxiv_pauses_from 0).
Qed.

Section PauseFacts.

Lemma inject_nat_succ (n : nat) :
  (inject_Z (Z.of_nat (S n)) == inject_Z (Z.of_nat n) + 1)%Q.
Proof.
  rewrite Nat2Z.inj_succ, <- Z.add_1_r, inject_Z_plus. reflexivity.
Qed.

Lemma inject_nat_add (a b : nat) :
  (inject_Z (Z.of_nat (a + b))
   == inject_Z (Z.of_nat a) + inject_Z (Z.of_nat b))%Q.
Proof. rewrite Nat2Z.inj_add, inject_Z_plus. reflexivity. Qed.

Lemma exa_events_sleep (exa : Exa.provider) (ps : Exa.params) i q :
  (total_sleep (Exa.events exa ps i q)
   == (if 0 <? i then 1 # 4 else 0)
      + inject_Z (Z.of_nat (if Exa.rate_limited exa ps i q then 1%nat else 0%nat)))%Q.
Proof.
  unfold Exa.events, Exa.rate_limited, Exa.processed.
  destruct (0 <? i), (exa i q (Exa.build_kwargs ps)) as [e|rl];
    try destruct (Py.contains "429" (str_exn e)); try reflexivity;
    (destruct (Exa.format_response ps q rl) as [e|?] eqn:Hf;
     [apply format_response_error in Hf as ->|]; reflexivity).
Qed.

Lemma exa_sleep_from (exa : Exa.provider) (ps : Exa.params) (i : nat)
    (qs : list string) :
  (total_sleep (mjoin (imap (λ j, Exa.events exa ps (S i + j)) qs))
   == inject_Z (Z.of_nat (length qs)) * (1 # 4)
      + inject_Z (Z.of_nat
          (sum_list
             (imap (λ j q, if Exa.rate_limited exa ps (S i + j) q
                           then 1%nat else 0%nat) qs))))%Q.
Proof.
  revert i. induction qs as [|q qs IH]; intros i; [reflexivity|].
  rewrite !imap_cons. cbn [mjoin list_join length sum_list sum_list_with].
  rewrite total_sleep_app, exa_events_sleep.
  rewrite (imap_ext ((λ j, Exa.events exa ps (S i + j)) ∘ S)
             (λ j, Exa.events exa ps (S (S i) + j)))
    by (intros j x _; simpl; f_equal; lia).
  rewrite (imap_ext
             ((λ j q, if Exa.rate_limited exa ps (S i + j) q then 1%nat else 0%nat)
              ∘ S)
             (λ j q, if Exa.rate_limited exa ps (S (S i) + j) q
                     then 1%nat else 0%nat))
    by (intros j x _; unfold compose;
        by replace (S i + S j) with (S (S i) + j) by lia).
  rewrite IH, inject_nat_succ, inject_nat_add.
  replace (0 <? S i + 0) with true by done. unfold id. ring.
Qed.

Lemma pubmed_pauses_bounded (wrapper : Pubmed.provider) (qs : list string)
    (i : nat) (d x : Q) :
  (1 # 2 <= d)%Q →
  x ∈ pauses_of (Pubmed.events wrapper i qs d) →
  (1 # 2 <= x)%Q ∧ (x <= d)%Q.
Proof.
  revert i d. induction qs as [|q qs IH]; intros i d Hd Hx.
  - by apply elem_of_nil in Hx.
  - cbn [Pubmed.events] in Hx. rewrite !pauses_of_app in Hx.
    destruct (delay_after_bounds wrapper i q d Hd) as [Hlo Hhi].
    apply elem_of_app in Hx as [Hx | Hx].
    + destruct (0 <? i); [|by apply elem_of_nil in Hx].
      apply list_elem_of_singleton in Hx as ->. split; [done | lra].
    + simpl in Hx. destruct (IH _ _ Hlo Hx) as [Hlo' Hhi'].
      split; [done | lra].
Qed.

Lemma pubmed_pauses_descend (wrapper : Pubmed.provider) (qs : list string)
    (i : nat) (d : Q) (k : nat) (a b : Q) :
  (1 # 2 <= d)%Q →
  pauses_of (Pubmed.events wrapper i qs d) !! k = Some a →
  pauses_of (Pubmed.events wrapper i qs d) !! S k = Some b →
  (b <= a)%Q.
Proof.
  revert i d k. induction qs as [|q qs IH]; intros i d k Hd Ha Hb; [done|].
  cbn [Pubmed.events] in Ha, Hb. rewrite !pauses_of_app in Ha, Hb.
  destruct (delay_after_bounds wrapper i q d Hd) as [Hlo Hhi].
  simpl in Ha, Hb. destruct (0 <? i); simpl in Ha, Hb.
  - destruct k as [|k]; simpl in Ha, Hb.
    + injection Ha as <-.
      assert (Hin : b ∈ pauses_of (Pubmed.events wrapper (S i) qs
                                     (Pubmed.delay_after wrapper i q d)))
        by (apply list_elem_of_lookup; eauto).
      destruct (pubmed_pauses_bounded _ _ _ _ _ Hlo Hin). lra.
    + exact (IH _ _ k Hlo Ha Hb).
  - exact (IH _ _ k Hlo Ha Hb).
Qed.

Lemma pubmed_pauses_count (wrapper : Pubmed.provider) (qs : list string)
    (i : nat) (d : Q) :
  length (pauses_of (Pubmed.events wrapper (S i) qs d)) = length qs.
Proof.
  revert i d. induction qs as [|q qs IH]; intros i d; [done|].
  cbn [Pubmed.events]. rewrite !pauses_of_app, !length_app, IH. done.
Qed.



End PauseFacts.

(** X12.  When the domain filters pass the check, the pauses of
    [exa_search] add up to a quarter of a second for every query but the
    first, plus one second for every query that failed with a message
    containing "429". *)
Theorem exa_total_pause (exa : Exa.provider) (ps : Exa.params)
    (search_queries : list string) :
  Py.given (Exa.include_domains ps) && Py.given (Exa.exclude_domains ps)
  = false →
  (total_sleep (run (Exa.exa_search exa search_queries ps)).1
   == inject_Z (Z.of_nat (length search_queries - 1)) * (1 # 4)
      + inject_Z (Z.of_nat
          (sum_list
             (imap (λ i q, if Exa.rate_limited exa ps i q then 1%nat else 0%nat)
                search_queries))))%Q.
Proof.
  intros Hguard. rewrite exa_search_spec by done. simpl.
  destruct search_queries as [|q qs]; [reflexivity|].
  rewrite !imap_cons. cbn [mjoin list_join length sum_list sum_list_with].
  rewrite total_sleep_app, exa_events_sleep.
  replace (S (length qs) - 1) with (length qs) by lia.
  rewrite (exa_sleep_from exa ps 0 qs).
  rewrite inject_nat_add. unfold id.
  change ((λ (i : nat) (q0 : string),
             if Exa.rate_limited exa ps i q0 then 1%nat else 0%nat) ∘ S)
    with (λ (j : nat) (q0 : string),
            if Exa.rate_limited exa ps (1 + j) q0 then 1%nat else 0%nat).
  change (0 <? 0) with false. cbv iota. ring.
Qed.

Lemma exa_total_pause_witness :
  Py.given (Exa.include_domains Exa.default_params)
  && Py.given (Exa.exclude_domains Exa.default_params) = false
  ∧ (total_sleep
       (run (Exa.exa_search Exa.always_failing ["a"; "b"; "c"]
               Exa.default_params)).1
     == inject_Z (Z.of_nat (length ["a"; "b"; "c"] - 1)) * (1 # 4)
        + inject_Z (Z.of_nat
            (sum_list
               (imap (λ i q, if Exa.rate_limited Exa.always_failing
                                  Exa.default_params i q then 1%nat else 0%nat)
                  ["a"; "b"; "c"]))))%Q.
Proof.
  split; [reflexivity|].
  exact (exa_total_pause Exa.always_failing Exa.default_params
           ["a"; "b"; "c"] eq_refl).
Defined.

(** X13.  The pauses of [pubmed_search_async]: there is one before every
    query but the first, each lasts between 0.5 and 1.0 seconds, and no
    pause is longer than the one before it.  The delay only ever shrinks:
    a failing provider never lengthens it. *)
Theorem pubmed_pauses_never_grow (wrapper : Pubmed.provider)
    (search_queries : list string) :
  let pauses :=
    pauses_of (run (Pubmed.pubmed_search_async wrapper search_queries)).1 in
  length pauses = length search_queries - 1
  ∧ (∀ x, x ∈ pauses → (1 # 2 <= x)%Q ∧ (x <= 1)%Q)
  ∧ (∀ k a b, pauses !! k = Some a → pauses !! S k = Some b → (b <= a)%Q).
Proof.
  intros pauses. unfold pauses. rewrite pubmed_search_spec. simpl.
  assert (Hstart : (1 # 2 <= Pubmed.initial_delay)%Q) by (by vm_compute).
  split; [|split].
  - destruct search_queries as [|q qs]; [done|].
    cbn [Pubmed.events]. rewrite !pauses_of_app, !length_app.
    rewrite pubmed_pauses_count. simpl. lia.
  - intros x Hx. by apply (pubmed_pauses_bounded wrapper _ _ _ _ Hstart Hx).
  - intros k a b. by apply pubmed_pauses_descend.
Qed.

Lemma pubmed_pauses_never_grow_witness :
  (9 # 10)%Q
  ∈ pauses_of (run (Pubmed.pubmed_search_async Pubmed.three_then_failing
                      ["a"; "b"; "c"])).1
  ∧ (1 # 2 <= 9 # 10)%Q ∧ (9 # 10 <= 1)%Q.
Proof.
  assert (Hin : (9 # 10)%Q
                ∈ pauses_of
                    (run (Pubmed.pubmed_search_async Pubmed.three_then_failing
                            ["a"; "b"; "c"])).1)
    by (vm_compute; apply list_elem_of_here).
  split; [exact Hin|].
  exact (proj1 (proj2 (pubmed_pauses_never_grow Pubmed.three_then_failing
                         ["a"; "b"; "c"])) _ Hin).
Defined.


(** ** Responses *)

Section ResponseFacts.

Lemma exa_outcome_error (exa : Exa.provider) (ps : Exa.params) i q :
  error_or_results (Exa.processed exa ps i q) (Exa.outcome exa ps i q).
Proof.
  unfold error_or_results, Exa.outcome.
  destruct (Exa.processed exa ps i q) as [e|v] eqn:Hp; simpl.
  - split; [|done]. split; [done|]. by intros [v Hv].
  - assert (error v = None) as Herr.
    { unfold Exa.processed in Hp.
      destruct (exa i q (Exa.build_kwargs ps)) as [e|rl]; [done|].
      by apply format_response_query in Hp as [_ ?]. }
    split; [|by rewrite Herr]. split; [by eexists | done].
Qed.

Lemma exa_processed_returned (exa : Exa.provider) (ps : Exa.params) i q v :
  Exa.processed exa ps i q = inr v →
  ∃ results_list, exa i q (Exa.build_kwargs ps) = inr results_list.
Proof.
  unfold Exa.processed.
  destruct (exa i q (Exa.build_kwargs ps)) as [e|rl]; [done|]. by eexists.
Qed.

Lemma arxiv_outcome_error (retriever : Arxiv.provider) (full : bool) i q :
  error_or_results (retriever i q) (Arxiv.outcome retriever full i q).
Proof.
  unfold error_or_results, Arxiv.outcome.
  destruct (retriever i q) as [e|v]; simpl.
  - split; [|done]. split; [done|]. by intros [v Hv].
  - split; [|done]. split; [by eexists | done].
Qed.

Lemma pubmed_outcome_error (wrapper : Pubmed.provider) i q :
  error_or_results (wrapper i q) (Pubmed.outcome wrapper i q).
Proof.
  unfold error_or_results, Pubmed.outcome.
  destruct (wrapper i q) as [e|v]; simpl.
  - split; [|done]. split; [done|]. by intros [v Hv].
  - split; [|done]. split; [by eexists | done].
Qed.

End ResponseFacts.

(** X15.  In the list a sequential adapter returns, the response at
    position [i] carries no error exactly when the processing of the
    query at position [i] raised nothing; and a response that carries an
    error has no results and no images.  For [arxiv_search_async] and
    [pubmed_search_async] the processing raises exactly when the provider
    call does.  For [exa_search] it is the provider call followed by the
    formatting of its payload, which can raise as well: a response without
    error means that the provider call returned, but not the converse. *)
Theorem error_means_no_results :
  (∀ (exa : Exa.provider) (ps : Exa.params) (search_queries : list string)
     t docs i q r,
     run (Exa.exa_search exa search_queries ps) = (t, inr docs) →
     search_queries !! i = Some q → docs !! i = Some r →
     error_or_results (Exa.processed exa ps i q) r
     ∧ (error r = None →
        ∃ results_list, exa i q (Exa.build_kwargs ps) = inr results_list))
  ∧ (∀ (retriever : Arxiv.provider) (get_full_documents : bool)
       (search_queries : list string) t docs i q r,
       run (Arxiv.arxiv_search_async retriever search_queries
              get_full_documents) = (t, inr docs) →
       search_queries !! i = Some q → docs !! i = Some r →
       error_or_results (retriever i q) r)
  ∧ (∀ (wrapper : Pubmed.provider) (search_queries : list string)
       t docs i q r,
       run (Pubmed.pubmed_search_async wrapper search_queries)
       = (t, inr docs) →
       search_queries !! i = Some q → docs !! i = Some r →
       error_or_results (wrapper i q) r).
Proof.
  split; [|split].
  - intros exa ps qs t docs i q r Hrun Hq Hr.
    destruct (Py.given (Exa.include_domains ps)
              && Py.given (Exa.exclude_domains ps)) eqn:Hguard.
    { unfold run, Exa.exa_search in Hrun. rewrite Hguard in Hrun.
      discriminate Hrun. }
    rewrite exa_search_spec in Hrun by done. injection Hrun as _ <-.
    rewrite list_lookup_imap, Hq in Hr. injection Hr as <-.
    pose proof (exa_outcome_error exa ps i q) as Hout.
    split; [exact Hout|]. intros Herr.
    apply (proj1 Hout) in Herr as [v Hv].
    by apply exa_processed_returned in Hv.
  - intros retriever full qs t docs i q r Hrun Hq Hr.
    rewrite arxiv_search_spec in Hrun. injection Hrun as _ <-.
    rewrite list_lookup_imap, Hq in Hr. injection Hr as <-.
    apply arxiv_outcome_error.
  - intros wrapper qs t docs i q r Hrun Hq Hr.
    rewrite pubmed_search_spec in Hrun. injection Hrun as _ <-.
    rewrite list_lookup_imap, Hq in Hr. injection Hr as <-.
    apply pubmed_outcome_error.
Qed.

(** With subpages asked for and a result whose subpages hold [None], the
    provider call returns and the response carries an error all the
    same. *)
Example exa_error_without_provider_failure :
  run (Exa.exa_search Exa.lacking_subpages ["q"] Exa.with_subpages)
  = ([Request 0 "q"],
     inr [mkResponse "q" [] [] (Some "'NoneType' object is not iterable")])
  ∧ ∃ results_list,
      Exa.lacking_subpages 0 "q" (Exa.build_kwargs Exa.with_subpages)
      = inr results_list.
Proof. split; [reflexivity | by eexists]. Qed.

Lemma error_means_no_results_witness :
  run (Pubmed.pubmed_search_async Pubmed.three_then_failing
         ["a"; "b"; "c"; "d"])
  = ((run (Pubmed.pubmed_search_async Pubmed.three_then_failing
             ["a"; "b"; "c"; "d"])).1,
     inr (imap (Pubmed.outcome Pubmed.three_then_failing)
            ["a"; "b"; "c"; "d"]))
  ∧ ["a"; "b"; "c"; "d"] !! 3 = Some "d"
  ∧ imap (Pubmed.outcome Pubmed.three_then_failing) ["a"; "b"; "c"; "d"] !! 3
    = Some (failed_response "d"
              (ProviderError "HTTP Error 429: Too Many Requests"))
  ∧ error_or_results (Pubmed.three_then_failing 3 "d")
      (failed_response "d"
         (ProviderError "HTTP Error 429: Too Many Requests")).
Proof.
  assert (Hrun :
    run (Pubmed.pubmed_search_async Pubmed.three_then_failing
           ["a"; "b"; "c"; "d"])
    = ((run (Pubmed.pubmed_search_async Pubmed.three_then_failing
               ["a"; "b"; "c"; "d"])).1,
       inr (imap (Pubmed.outcome Pubmed.three_then_failing)
              ["a"; "b"; "c"; "d"]))) by reflexivity.
  split; [exact Hrun|]. split; [reflexivity|]. split; [reflexivity|].
  exact (proj2 (proj2 error_means_no_results) Pubmed.three_then_failing
           ["a"; "b"; "c"; "d"] _ _ 3 "d" _ Hrun eq_refl eq_refl).
Defined.

(** ** PubMed records and the formatter *)

Section PubmedUrlFacts.
Import Pubmed.

Lemma string_app_inj_r (s1 s2 t : string) :
  s1 +:+ t = s2 +:+ t → s1 = s2.
Proof.
  intros Heq. apply (f_equal String.rev) in Heq.
  rewrite !rev_app_distr in Heq. apply String.app_inj in Heq.
  apply (f_equal String.rev) in Heq. by rewrite !rev_involutive in Heq.
Qed.

Lemma make_url_missing (doc : document) :
  Py.given_str (d_uid doc) = false → make_url doc = "".
Proof.
  unfold make_url, Py.given_str. destruct (d_uid doc) as [uid|]; simpl.
  - by intros ->.
  - done.
Qed.

Lemma make_url_given (doc : document) :
  Py.given_str (d_uid doc) = true →
  ∃ uid, d_uid doc = Some uid
         ∧ make_url doc = "https://pubmed.ncbi.nlm.nih.gov/" +:+ uid +:+ "/".
Proof.
  unfold make_url, Py.given_str. destruct (d_uid doc) as [uid|]; simpl.
  - intros ->. by exists uid.
  - done.
Qed.

Lemma make_url_inj (d1 d2 : document) :
  Py.given_str (d_uid d1) = true → Py.given_str (d_uid d2) = true →
  make_url d1 = make_url d2 → d_uid d1 = d_uid d2.
Proof.
  intros (u1 & -> & ->)%make_url_given (u2 & -> & ->)%make_url_given Heq.
  apply (inj (String.app _)) in Heq.
  apply string_app_inj_r in Heq. by rewrite Heq.
Qed.

Lemma results_urls (docs : list document) :
  url <$> imap (make_result docs) docs = make_url <$> docs.
Proof.
  enough (∀ (h : nat → document → SearchResult),
            (∀ i d, url (h i d) = make_url d) →
            url <$> imap h docs = make_url <$> docs) as H
    by (by apply H).
  induction docs as [|d docs IH]; intros h Hh; [done|].
  csimpl. rewrite Hh. f_equal. apply IH. intros i d'. apply Hh.
Qed.

Lemma first_occurrences_const (u : string) (us : list string) :
  us ≠ [] → (∀ x, x ∈ us → x = u) → Formatter.first_occurrences us = [u].
Proof.
  induction us as [|x us IH]; intros Hne Hall; [done|].
  assert (x = u) as -> by (apply Hall, list_elem_of_here).
  simpl. f_equal. destruct us as [|y us]; [done|].
  rewrite IH; [|done|].
  - rewrite filter_cons_False by (intros Hn; by apply Hn). done.
  - intros z Hz. apply Hall. by apply list_elem_of_further.
Qed.

Lemma last_write_wins_single_url (u : string) (l : list SearchResult) :
  l ≠ [] → (∀ s, s ∈ l → url s = u) →
  ∃ s, last l = Some s ∧ Formatter.last_write_wins l = [s].
Proof.
  intros Hne Hall. destruct l as [|s0 l' _] using rev_ind; [done|].
  exists s0. split; [apply last_snoc|].
  unfold Formatter.last_write_wins.
  rewrite (first_occurrences_const u).
  - simpl. rewrite last_with_url_snoc. rewrite decide_True; [done|].
    apply Hall. apply elem_of_app. right. apply list_elem_of_here.
  - rewrite fmap_app. simpl. by destruct (url <$> l').
  - intros x (s & -> & Hs)%list_elem_of_fmap. by apply Hall.
Qed.

Lemma last_imap {A B} (f : nat → A → B) (l : list A) :
  last (imap f l) = f (length l - 1) <$> last l.
Proof.
  destruct l as [|x l _] using rev_ind; [done|].
  rewrite imap_app, length_app. simpl. rewrite !last_snoc.
  by replace (length l + 1 - 1) with (length l + 0) by lia.
Qed.

End PubmedUrlFacts.

(** X16.  PubMed records without an identifier all get the empty URL, so
    the formatter treats them as one source: of the results of a query
    whose records all lack a usable [uid], only the last one is printed;
    the returned text is the header and the block of that result,
    stripped. *)
Theorem pubmed_records_without_uid_collapse (wrapper : Pubmed.provider)
    (i : nat) (q : string) (docs : list Pubmed.document) (t : list event)
    (max_tokens_per_source : Z) (include_raw_content : bool) :
  wrapper i q = inr docs →
  docs ≠ [] →
  (∀ d, d ∈ docs → Py.given_str (Pubmed.d_uid d) = false) →
  ∃ r d,
    Pubmed.process_single_query wrapper i q t = (t ++ [Request i q], inr r)
    ∧ length (results r) = length docs
    ∧ last docs = Some d
    ∧ (Formatter.unique_sources (Formatter.sources_list [r])).*2
      = [Pubmed.make_result docs (length docs - 1) d]
    ∧ Formatter.deduplicate_and_format_sources [r] max_tokens_per_source
        include_raw_content
      = Py.strip (Formatter.header
                  +:+ Formatter.format_source max_tokens_per_source
                        include_raw_content
                        (Pubmed.make_result docs (length docs - 1) d)).
Proof.
  intros Hdocs Hne Hnouid.
  destruct (last docs) as [d|] eqn:Hlast.
  2:{ apply last_None in Hlast. done. }
  eexists _, d. split; [apply pubmed_process_single_query_spec|].
  unfold Pubmed.outcome. rewrite Hdocs. simpl.
  split; [by rewrite length_imap|]. split; [done|].
  assert (Hkept : (Formatter.unique_sources
                     (Formatter.sources_list
                        [mkResponse q []
                           (imap (Pubmed.make_result docs) docs) None])).*2
                  = [Pubmed.make_result docs (length docs - 1) d]).
  { rewrite unique_sources_values.
    rewrite sources_list_flat. csimpl. rewrite app_nil_r.
    destruct (last_write_wins_single_url ""
                (imap (Pubmed.make_result docs) docs)) as (s & Hs & ->).
    - destruct docs; [done|]. done.
    - intros s Hs.
      assert (Hin : url s ∈ url <$> imap (Pubmed.make_result docs) docs)
        by (apply list_elem_of_fmap; eauto).
      rewrite results_urls in Hin.
      apply list_elem_of_fmap in Hin as (d' & -> & Hd').
      apply make_url_missing. by apply Hnouid.
    - rewrite last_imap, Hlast in Hs. simpl in Hs. by injection Hs as <-. }
  split; [exact Hkept|].
  rewrite returned_text_blocks, Hkept. unfold Formatter.blocks. simpl.
  by rewrite string_app_nil_r.
Qed.

Lemma pubmed_records_without_uid_collapse_witness :
  Pubmed.no_uid_records 0 "q" = inr Pubmed.no_uid_docs
  ∧ Pubmed.no_uid_docs ≠ []
  ∧ (∀ d, d ∈ Pubmed.no_uid_docs → Py.given_str (Pubmed.d_uid d) = false)
  ∧ ∃ r d,
      Pubmed.process_single_query Pubmed.no_uid_records 0 "q" []
      = ([] ++ [Request 0 "q"], inr r)
      ∧ length (results r) = length Pubmed.no_uid_docs
      ∧ last Pubmed.no_uid_docs = Some d
      ∧ (Formatter.unique_sources (Formatter.sources_list [r])).*2
        = [Pubmed.make_result Pubmed.no_uid_docs
             (length Pubmed.no_uid_docs - 1) d]
      ∧ Formatter.deduplicate_and_format_sources [r] 100 false
        = Py.strip (Formatter.header
                    +:+ Formatter.format_source 100 false
                          (Pubmed.make_result Pubmed.no_uid_docs
                             (length Pubmed.no_uid_docs - 1) d)).
Proof.
  assert (Hne : Pubmed.no_uid_docs ≠ []) by discriminate.
  assert (Hall : ∀ d, d ∈ Pubmed.no_uid_docs →
                      Py.given_str (Pubmed.d_uid d) = false).
  { intros d Hd. apply elem_of_cons in Hd as [-> | Hd]; [reflexivity|].
    apply elem_of_cons in Hd as [-> | Hd]; [reflexivity|].
    by apply elem_of_nil in Hd. }
  split; [reflexivity|]. split; [exact Hne|]. split; [exact Hall|].
  exact (pubmed_records_without_uid_collapse Pubmed.no_uid_records 0 "q"
           Pubmed.no_uid_docs [] 100 false eq_refl Hne Hall).
Defined.

(** X17.  PubMed records with pairwise different, non-empty identifiers
    get pairwise different URLs, so the formatter prints every result of
    such a query, in the order of the records: the returned text is the
    header followed by the block of every result, stripped. *)
Theorem pubmed_distinct_uids_all_printed (wrapper : Pubmed.provider)
    (i : nat) (q : string) (docs : list Pubmed.document) (t : list event)
    (max_tokens_per_source : Z) (include_raw_content : bool) :
  wrapper i q = inr docs →
  (∀ d, d ∈ docs → Py.given_str (Pubmed.d_uid d) = true) →
  NoDup (Pubmed.d_uid <$> docs) →
  ∃ r,
    Pubmed.process_single_query wrapper i q t = (t ++ [Request i q], inr r)
    ∧ NoDup (url <$> results r)
    ∧ (Formatter.unique_sources (Formatter.sources_list [r])).*2 = results r
    ∧ Formatter.deduplicate_and_format_sources [r] max_tokens_per_source
        include_raw_content
      = Py.strip (Formatter.header
                  +:+ Formatter.blocks
                        (Formatter.format_source max_tokens_per_source
                           include_raw_content <$> results r)).
Proof.
  intros Hdocs Hgiven Hnd.
  eexists. split; [apply pubmed_process_single_query_spec|].
  unfold Pubmed.outcome. rewrite Hdocs. simpl.
  assert (Hurls : NoDup (url <$> imap (Pubmed.make_result docs) docs)).
  { rewrite results_urls. clear Hdocs.
    induction docs as [|d docs IH]; [constructor|].
    csimpl in Hnd. apply NoDup_cons in Hnd as [Hd Hnd]. csimpl.
    apply NoDup_cons. split.
    - intros (d' & Heq & Hd')%list_elem_of_fmap. apply Hd.
      apply list_elem_of_fmap. exists d'. split; [|done].
      apply make_url_inj; [| |done].
      + apply Hgiven, list_elem_of_here.
      + by apply Hgiven, list_elem_of_further.
    - apply IH; [|done]. intros d' Hd'.
      by apply Hgiven, list_elem_of_further. }
  split; [exact Hurls|].
  assert (Hkept : (Formatter.unique_sources
                     (Formatter.sources_list
                        [mkResponse q []
                           (imap (Pubmed.make_result docs) docs) None])).*2
                  = imap (Pubmed.make_result docs) docs).
  { rewrite sources_list_flat. csimpl. rewrite app_nil_r.
    rewrite unique_sources_distinct by done.
    rewrite <- list_fmap_compose. apply list_fmap_id. }
  split; [exact Hkept|]. by rewrite returned_text_blocks, Hkept.
Qed.

Lemma pubmed_distinct_uids_all_printed_witness :
  Pubmed.two_records 0 "q" = inr Pubmed.sample_docs
  ∧ (∀ d, d ∈ Pubmed.sample_docs → Py.given_str (Pubmed.d_uid d) = true)
  ∧ NoDup (Pubmed.d_uid <$> Pubmed.sample_docs)
  ∧ ∃ r,
      Pubmed.process_single_query Pubmed.two_records 0 "q" []
      = ([] ++ [Request 0 "q"], inr r)
      ∧ NoDup (url <$> results r)
      ∧ (Formatter.unique_sources (Formatter.sources_list [r])).*2
        = results r
      ∧ Formatter.deduplicate_and_format_sources [r] 100 false
        = Py.strip (Formatter.header
                    +:+ Formatter.blocks
                          (Formatter.format_source 100 false <$> results r)).
Proof.
  assert (Hall : ∀ d, d ∈ Pubmed.sample_docs →
                      Py.given_str (Pubmed.d_uid d) = true).
  { intros d Hd. apply elem_of_cons in Hd as [-> | Hd]; [reflexivity|].
    apply elem_of_cons in Hd as [-> | Hd]; [reflexivity|].
    by apply elem_of_nil in Hd. }
  assert (Hnd : NoDup (Pubmed.d_uid <$> Pubmed.sample_docs)).
  { apply (bool_decide_unpack _). vm_compute. exact I. }
  split; [reflexivity|]. split; [exact Hall|]. split; [exact Hnd|].
  exact (pubmed_distinct_uids_all_printed Pubmed.two_records 0 "q"
           Pubmed.sample_docs [] 100 false eq_refl Hall Hnd).
Defined.

(** ** arXiv content *)

Section ArxivContentFacts.
Import Arxiv.

Lemma find_first_match {A} (P : A → bool) (before after : list A) (x : A) :
  (∀ y, y ∈ before → P y = false) → P x = true →
  List.find P (before ++ x :: after) = Some x.
Proof.
  intros Hbefore Hx. induction before as [|y before IH]; simpl.
  - by rewrite Hx.
  - rewrite (Hbefore y) by apply list_elem_of_here.
    apply IH. intros z Hz. apply Hbefore. by apply list_elem_of_further.
Qed.

Lemma join_snoc (sep : string) (parts : list string) (x : string) :
  ∃ lead, Py.join sep (parts ++ [x]) = lead +:+ x.
Proof.
  induction parts as [|p parts [lead IH]]; [by exists ""|].
  destruct parts as [|p' parts].
  - exists (p +:+ sep). simpl. by rewrite string_app_assoc.
  - exists (p +:+ sep +:+ lead).
    change (Py.join sep ((p :: p' :: parts) ++ [x]))
      with (p +:+ sep +:+ Py.join sep ((p' :: parts) ++ [x])).
    rewrite IH. by rewrite !string_app_assoc.
Qed.

End ArxivContentFacts.

(** X18.  The content of an arXiv result ends with the line "PDF: "
    followed by the first of the document's links that contains "pdf":
    later links are ignored, and no other part comes after it. *)
Theorem arxiv_pdf_link_is_first_match (get_full_documents : bool)
    (docs : list Arxiv.document) (i : nat) (doc : Arxiv.document)
    (before after : list string) (link : string) :
  Arxiv.md_links doc = Some (before ++ link :: after) →
  (∀ l, l ∈ before → Py.contains "pdf" l = false) →
  Py.contains "pdf" link = true →
  ∃ lead,
    content (Arxiv.make_result get_full_documents docs i doc)
    = lead +:+ "PDF: " +:+ link.
Proof.
  intros Hlinks Hbefore Hlink. unfold Arxiv.make_result. simpl.
  unfold Arxiv.content_parts. rewrite Hlinks.
  rewrite (find_first_match _ _ _ _ Hbefore Hlink).
  rewrite !app_assoc. apply join_snoc.
Qed.

Lemma arxiv_pdf_link_is_first_match_witness :
  Arxiv.md_links Arxiv.sample_document
  = Some (["http://arxiv.org/abs/2401.00001v1"]
          ++ "http://arxiv.org/pdf/2401.00001v1"
             :: ["http://mirror.example/pdf/2401.00001"])
  ∧ (∀ l, l ∈ ["http://arxiv.org/abs/2401.00001v1"] →
          Py.contains "pdf" l = false)
  ∧ Py.contains "pdf" "http://arxiv.org/pdf/2401.00001v1" = true
  ∧ ∃ lead,
      content (Arxiv.make_result true [Arxiv.sample_document] 0
                 Arxiv.sample_document)
      = lead +:+ "PDF: " +:+ "http://arxiv.org/pdf/2401.00001v1".
Proof.
  assert (Hbefore : ∀ l, l ∈ ["http://arxiv.org/abs/2401.00001v1"] →
                         Py.contains "pdf" l = false).
  { intros l Hl. apply list_elem_of_singleton in Hl as ->. reflexivity. }
  split; [reflexivity|]. split; [exact Hbefore|]. split; [reflexivity|].
  exact (arxiv_pdf_link_is_first_match true [Arxiv.sample_document] 0
           Arxiv.sample_document ["http://arxiv.org/abs/2401.00001v1"]
           ["http://mirror.example/pdf/2401.00001"]
           "http://arxiv.org/pdf/2401.00001v1" eq_refl Hbefore eq_refl).
Defined.

(** ** Tavily *)

Section TavilyFacts.
Context {R : Type}.
Variable search : nat → string → exn + R.

Lemma first_raised_Some (qs : list string) (completion : list nat) (e : exn) :
  Tavily.first_raised search qs completion = Some e →
  ∃ i q, qs !! i = Some q ∧ search i q = inl e.
Proof.
  induction completion as [|i completion IH]; [done|]. simpl.
  destruct (qs !! i) as [q|] eqn:Hq; [|exact IH].
  destruct (search i q) as [e'|r] eqn:Hs; [|exact IH].
  intros [= <-]. by exists i, q.
Qed.

Lemma first_raised_None (qs : list string) (completion : list nat) :
  (∀ i q, qs !! i = Some q → ∃ r, search i q = inr r) →
  Tavily.first_raised search qs completion = None.
Proof.
  intros Hall. induction completion as [|i completion IH]; [done|]. simpl.
  destruct (qs !! i) as [q|] eqn:Hq; [|exact IH].
  destruct (Hall i q Hq) as [r ->]. exact IH.
Qed.

Lemma collect_inl (qs : list string) (i : nat) (e : exn) :
  Tavily.collect search i qs = inl e →
  ∃ j q, qs !! j = Some q ∧ search (i + j) q = inl e.
Proof.
  revert i. induction qs as [|q qs IH]; intros i; [done|]. simpl.
  destruct (search i q) as [e'|r] eqn:Hs.
  - intros [= <-]. exists 0, q. by rewrite Nat.add_0_r.
  - destruct (Tavily.collect search (S i) qs) as [e'|rs] eqn:Hc; [|done].
    intros [= <-]. destruct (IH (S i) Hc) as (j & q' & Hq' & Hs').
    exists (S j), q'. split; [done|].
    by replace (i + S j) with (S i + j) by lia.
Qed.

Lemma collect_inr (qs : list string) (i : nat) :
  (∀ j q, qs !! j = Some q → ∃ r, search (i + j) q = inr r) →
  ∃ rs, Tavily.collect search i qs = inr rs
        ∧ length rs = length qs
        ∧ ∀ j q, qs !! j = Some q →
            ∃ r, rs !! j = Some r ∧ search (i + j) q = inr r.
Proof.
  revert i. induction qs as [|q qs IH]; intros i Hall.
  - exists []. by split.
  - simpl. destruct (Hall 0 q eq_refl) as [r Hr].
    rewrite Nat.add_0_r in Hr. rewrite Hr.
    destruct (IH (S i)) as (rs & -> & Hlen & Hrs).
    { intros j q' Hq'. destruct (Hall (S j) q' Hq') as [r' Hr'].
      exists r'. by replace (S i + j) with (i + S j) by lia. }
    exists (r :: rs). split; [done|]. split; [simpl; by rewrite Hlen|].
    intros [|j] q' Hq'; simpl in *.
    + injection Hq' as <-. exists r. by rewrite Nat.add_0_r.
    + destruct (Hrs j q' Hq') as (r' & Hr' & Hs').
      exists r'. split; [done|].
      by replace (i + S j) with (S i + j) by lia.
Qed.

End TavilyFacts.

(** X19.  [tavily_search_async] is all or nothing.  When every search
    returns, the call returns one response per query in the order of the
    queries, whatever the order in which the searches finish.  When some
    search raises, the call raises the exception of a failed search and
    returns no response at all, not even for the queries that
    succeeded. *)
Theorem tavily_all_or_nothing {R : Type} (search : nat → string → exn + R)
    (search_queries : list string) (completion : list nat) :
  ((∀ i q, search_queries !! i = Some q → ∃ r, search i q = inr r) →
   ∃ rs, Tavily.tavily_search_async search search_queries completion = inr rs
         ∧ length rs = length search_queries
         ∧ ∀ i q, search_queries !! i = Some q →
             ∃ r, rs !! i = Some r ∧ search i q = inr r)
  ∧ (∀ i q e, search_queries !! i = Some q → search i q = inl e →
       ∃ e' j q',
         Tavily.tavily_search_async search search_queries completion = inl e'
         ∧ search_queries !! j = Some q' ∧ search j q' = inl e').
Proof.
  unfold Tavily.tavily_search_async. split.
  - intros Hall. rewrite first_raised_None by done.
    by apply (collect_inr search search_queries 0).
  - intros i q e Hq He.
    destruct (Tavily.first_raised search search_queries completion)
      as [e'|] eqn:Hfirst.
    + destruct (first_raised_Some _ _ _ _ Hfirst) as (j & q' & Hq' & Hs').
      by exists e', j, q'.
    + destruct (Tavily.collect search 0 search_queries) as [e'|rs] eqn:Hc.
      * destruct (collect_inl _ _ _ _ Hc) as (j & q' & Hq' & Hs').
        by exists e', j, q'.
      * exfalso.
        assert (Hnone : ∀ qs k rs',
                  Tavily.collect search k qs = inr rs' →
                  ∀ j q0 e0, qs !! j = Some q0 →
                    search (k + j) q0 = inl e0 → False).
        { clear. induction qs as [|q0 qs IH]; intros k rs' Hc j q1 e0 Hq1 Hs;
            [done|].
          simpl in Hc. destruct (search k q0) as [?|r] eqn:Hk; [done|].
          destruct (Tavily.collect search (S k) qs) as [?|rs''] eqn:Hc';
            [done|].
          destruct j as [|j]; simpl in Hq1.
          - injection Hq1 as <-. rewrite Nat.add_0_r in Hs. congruence.
          - apply (IH (S k) rs'' Hc' j q1 e0 Hq1).
            by replace (S k + j) with (k + S j) by lia. }
        by apply (Hnone _ _ _ Hc i q e Hq).
Qed.

Lemma tavily_all_or_nothing_witness :
  (∀ i q, ["a"; "b"] !! i = Some q → ∃ r, Tavily.echo i q = inr r)
  ∧ ∃ rs, Tavily.tavily_search_async Tavily.echo ["a"; "b"] [1; 0] = inr rs
          ∧ length rs = length ["a"; "b"]
          ∧ ∀ i q, ["a"; "b"] !! i = Some q →
              ∃ r, rs !! i = Some r ∧ Tavily.echo i q = inr r.
Proof.
  assert (Hall : ∀ i q, ["a"; "b"] !! i = Some q →
                        ∃ r, Tavily.echo i q = inr r)
    by (intros i q _; by eexists).
  split; [exact Hall|].
  exact (proj1 (tavily_all_or_nothing Tavily.echo ["a"; "b"] [1; 0]) Hall).
Defined.

(** ** Section report *)

Section ReportFacts.
Import Report.

Lemma format_from_acc (idx : nat) (sections : list Section_) (acc : string) :
  format_from idx sections acc = acc +:+ format_from idx sections "".
Proof.
  revert idx acc. induction sections as [|s sections IH]; intros idx acc.
  - simpl. by rewrite string_app_nil_r.
  - cbn [format_from].
    rewrite (IH (S idx) (acc +:+ section_block idx s)).
    rewrite (IH (S idx) ("" +:+ section_block idx s)).
    by rewrite !string_app_assoc.
Qed.

Lemma format_from_app (idx : nat) (xs ys : list Section_) :
  format_from idx (xs ++ ys) ""
  = format_from idx xs "" +:+ format_from (idx + length xs) ys "".
Proof.
  revert idx. induction xs as [|s xs IH]; intros idx.
  - simpl. by rewrite Nat.add_0_r.
  - cbn [format_from app length].
    rewrite (format_from_acc _ (xs ++ ys)), (format_from_acc _ xs).
    rewrite IH, !string_app_assoc.
    by replace (S idx + length xs) with (idx + S (length xs)) by lia.
Qed.

End ReportFacts.

(** X20.  [format_sections] writes the sections one after the other and
    numbers them from 1: the report of two lists put together is the
    report of the first followed by the blocks of the second, numbered
    from where the first stopped; the report of no section is empty; and
    a section without content (empty or [None]) gets the placeholder
    "[Not yet written]". *)
Theorem format_sections_appends (xs ys : list Report.Section_) :
  Report.format_sections (xs ++ ys)
  = Report.format_sections xs
    +:+ Report.format_from (S (length xs)) ys ""
  ∧ Report.format_sections [] = ""
  ∧ (∀ s, Report.format_sections [s] = Report.section_block 1 s)
  ∧ (∀ idx s, Py.given_str (Report.content_text s) = false →
       ∃ lead,
         Report.section_block idx s
         = lead +:+ "Content:" +:+ Py.nl +:+ "[Not yet written]"
           +:+ Py.nl +:+ Py.nl).
Proof.
  split; [|split; [|split]].
  - unfold Report.format_sections. apply (format_from_app 1).
  - done.
  - done.
  - intros idx s Hnone. unfold Report.section_block. rewrite Hnone.
    eexists. rewrite <- !string_app_assoc. reflexivity.
Qed.

Lemma format_sections_appends_witness :
  Py.given_str (Report.content_text Report.unwritten) = false
  ∧ ∃ lead,
      Report.section_block 1 Report.unwritten
      = lead +:+ "Content:" +:+ Py.nl +:+ "[Not yet written]"
        +:+ Py.nl +:+ Py.nl.
Proof.
  split; [reflexivity|].
  exact (proj2 (proj2 (proj2 (format_sections_appends [] [])))
           1 Report.unwritten eq_refl).
Defined.

(** ** Vapi resources *)

Ltac unfold_V :=
  unfold mbind, Vapi.V_bind, Vapi.vbind, mret, Vapi.V_ret, Vapi.vret,
    Vapi.vraise.

Section VapiFacts.
Import Vapi.
Variable rm : remote.
Variables (url : string) (matches : resource → bool)
  (name_of : resource → option string).

Lemma item_Some (key v : string) : item key (Some v) = vret v.
Proof. reflexivity. Qed.

Lemma item_None (key : string) : item key None = vraise (KeyError key).
Proof. reflexivity. Qed.

(** One loop only deletes, and only listed resources that match. *)
Lemma delete_matching_calls (listed : list resource) (t : list call) :
  ∃ new r,
    delete_matching matches (λ r, item "name" (name_of r))
      (delete_at url rm) listed t = (t ++ new, r)
    ∧ ∀ c, c ∈ new →
        ∃ x id, x ∈ listed ∧ matches x = true ∧ res_id x = Some id
                ∧ c = Delete (url +:+ "/" +:+ id).
Proof.
  revert t. induction listed as [|x listed IH]; intros t.
  - exists [], (inr tt). split; [by rewrite app_nil_r|].
    by intros c ?%elem_of_nil.
  - cbn [delete_matching]. unfold_V.
    destruct (matches x) eqn:Hx.
    + destruct (name_of x) as [n|].
      2:{ rewrite item_None. unfold_V.
          exists [], (inl (KeyError "name")). split; [by rewrite app_nil_r|].
          by intros c ?%elem_of_nil. }
      rewrite item_Some. unfold_V.
      destruct (res_id x) as [id|] eqn:Hid.
      2:{ rewrite item_None. unfold_V.
          exists [], (inl (KeyError "id")). split; [by rewrite app_nil_r|].
          by intros c ?%elem_of_nil. }
      rewrite item_Some. unfold_V.
      unfold delete_at at 1.
      destruct (on_delete rm (length t) (url +:+ "/" +:+ id)) as [e|[]].
      * exists [Delete (url +:+ "/" +:+ id)], (inl e). split; [done|].
        intros c ->%list_elem_of_singleton. exists x, id.
        split; [apply list_elem_of_here | done].
      * destruct (IH (t ++ [Delete (url +:+ "/" +:+ id)]))
          as (new & r & -> & Hnew).
        exists (Delete (url +:+ "/" +:+ id) :: new), r.
        split; [by rewrite <- app_assoc|].
        intros c [-> | Hc]%elem_of_cons.
        -- exists x, id. split; [apply list_elem_of_here | done].
        -- destruct (Hnew c Hc) as (y & id' & Hy & Hrest).
           exists y, id'. split; [by apply list_elem_of_further | done].
    + destruct (IH t) as (new & r & -> & Hnew). exists new, r.
      split; [done|]. intros c Hc.
      destruct (Hnew c Hc) as (y & id' & Hy & Hrest).
      exists y, id'. split; [by apply list_elem_of_further | done].
Qed.

(** When every matching resource has a name and an id and every deletion
    succeeds, the loop deletes all of them, in the order of the list. *)
Lemma delete_matching_all (listed : list resource) (t : list call) :
  (∀ x, x ∈ listed → matches x = true →
        is_Some (name_of x) ∧ is_Some (res_id x)) →
  (∀ n u, on_delete rm n u = inr tt) →
  delete_matching matches (λ r, item "name" (name_of r))
    (delete_at url rm) listed t
  = (t ++ ((λ x, Delete (url +:+ "/" +:+ default "" (res_id x)))
           <$> filter (λ x, matches x = true) listed),
     inr tt).
Proof.
  intros Hkeys Hdel. revert t.
  induction listed as [|x listed IH]; intros t.
  - simpl. unfold_V. by rewrite app_nil_r.
  - cbn [delete_matching]. unfold_V. rewrite filter_cons.
    assert (Hrest : ∀ y, y ∈ listed → matches y = true →
                         is_Some (name_of y) ∧ is_Some (res_id y)).
    { intros y Hy. apply Hkeys. by apply list_elem_of_further. }
    destruct (matches x) eqn:Hx.
    + destruct (Hkeys x (list_elem_of_here _ _) Hx) as [[n Hn] [id Hid]].
      rewrite decide_True by done.
      rewrite Hn, Hid, !item_Some. unfold_V. unfold delete_at at 1.
      rewrite Hdel, (IH Hrest). rewrite fmap_cons, Hid. simpl.
      by rewrite <- app_assoc.
    + rewrite decide_False by (by intros ?). apply (IH Hrest).
Qed.

End VapiFacts.

Section VapiCleanupFacts.
Import Vapi.
Variable rm : remote.

Lemma cleanup_files_only (file_name : string) (t : list call) :
  file_name ≠ "" →
  cleanup_vapi_resources_by_name rm (Some file_name) None None t
  = match on_list rm (length t) file_url with
    | inl e => (t ++ [Get file_url], inl e)
    | inr files =>
        delete_matching (file_matches file_name)
          (λ file, item "name" (res_name file)) (delete_vapi_file rm)
          files (t ++ [Get file_url])
    end.
Proof.
  intros Hne. unfold cleanup_vapi_resources_by_name. simpl.
  unfold Py.truthy. rewrite bool_decide_false by done. simpl.
  unfold_V. unfold list_vapi_files, get_list.
  destruct (on_list rm (length t) file_url) as [e|files]; [done|].
  by destruct (delete_matching _ _ _ files (t ++ [Get file_url]))
    as [t' [e|[]]].
Qed.

Lemma deletions_app (t1 t2 : list call) :
  deletions (t1 ++ t2) = deletions t1 ++ deletions t2.
Proof. unfold deletions. apply omap_app. Qed.

Lemma posts_app (t1 t2 : list call) : posts (t1 ++ t2) = posts t1 ++ posts t2.
Proof. unfold posts. apply omap_app. Qed.

Lemma deletions_elem (u : string) (t : list call) :
  u ∈ deletions t ↔ Delete u ∈ t.
Proof.
  unfold deletions. rewrite list_elem_of_omap. split.
  - intros (c & Hc & Hu). destruct c; try done. by injection Hu as ->.
  - intros Hin. by exists (Delete u).
Qed.

Lemma posts_of_deletes {A} (f : A → string) (l : list A) :
  posts ((λ x, Delete (f x)) <$> l) = [].
Proof. induction l as [|x l IH]; [done|]. by csimpl. Qed.

End VapiCleanupFacts.

(** X21.  Cleaning up by file name never deletes anything else: every
    deletion it requests is that of a file of the listing it fetched,
    whose ["name"] or ["originalName"] is the given name; and when the
    listing cannot be fetched nothing is deleted. *)
Theorem vapi_cleanup_deletes_only_matches (rm : Vapi.remote)
    (file_name : string) (t : list Vapi.call) :
  file_name ≠ "" →
  ∃ new r,
    Vapi.cleanup_vapi_resources_by_name rm (Some file_name) None None t
    = (t ++ new, r)
    ∧ (∀ u, u ∈ Vapi.deletions new →
         ∃ files f id,
           Vapi.on_list rm (length t) Vapi.file_url = inr files
           ∧ f ∈ files
           ∧ (Vapi.res_name f = Some file_name
              ∨ Vapi.res_originalName f = Some file_name)
           ∧ Vapi.res_id f = Some id
           ∧ u = Vapi.file_url +:+ "/" +:+ id)
    ∧ (∀ e, Vapi.on_list rm (length t) Vapi.file_url = inl e →
         Vapi.deletions new = [] ∧ r = inl e).
Proof.
  intros Hne. rewrite cleanup_files_only by done.
  destruct (Vapi.on_list rm (length t) Vapi.file_url) as [e|files] eqn:Hlist.
  - exists [Vapi.Get Vapi.file_url], (inl e). split; [done|]. split.
    + intros u Hu. apply deletions_elem in Hu.
      by apply list_elem_of_singleton in Hu.
    + intros e' [= <-]. done.
  - destruct (delete_matching_calls rm Vapi.file_url
                (Vapi.file_matches file_name) Vapi.res_name files
                (t ++ [Vapi.Get Vapi.file_url])) as (new & r & Hrun & Hnew).
    exists (Vapi.Get Vapi.file_url :: new), r. split.
    { unfold Vapi.delete_vapi_file. rewrite Hrun. by rewrite <- app_assoc. }
    split; [|done].
    intros u Hu. apply deletions_elem in Hu.
    apply elem_of_cons in Hu as [Hu | Hu]; [done|].
    destruct (Hnew _ Hu) as (f & id & Hf & Hm & Hid & Heq).
    injection Heq as ->. exists files, f, id.
    split; [done|]. split; [done|]. split; [|done].
    unfold Vapi.file_matches in Hm. apply orb_true_iff in Hm as [Hm | Hm];
      apply bool_decide_eq_true in Hm; auto.
Qed.

Lemma vapi_cleanup_deletes_only_matches_witness :
  "bill.pdf" ≠ ""
  ∧ ∃ new r,
      Vapi.cleanup_vapi_resources_by_name (Vapi.obliging Vapi.sample_files)
        (Some "bill.pdf") None None []
      = ([] ++ new, r)
      ∧ (∀ u, u ∈ Vapi.deletions new →
           ∃ files f id,
             Vapi.on_list (Vapi.obliging Vapi.sample_files) (length ([] : list Vapi.call))
               Vapi.file_url = inr files
             ∧ f ∈ files
             ∧ (Vapi.res_name f = Some "bill.pdf"
                ∨ Vapi.res_originalName f = Some "bill.pdf")
             ∧ Vapi.res_id f = Some id
             ∧ u = Vapi.file_url +:+ "/" +:+ id)
      ∧ (∀ e, Vapi.on_list (Vapi.obliging Vapi.sample_files) (length ([] : list Vapi.call))
                Vapi.file_url = inl e →
           Vapi.deletions new = [] ∧ r = inl e).
Proof.
  assert (Hne : "bill.pdf" ≠ "") by discriminate.
  split; [exact Hne|].
  exact (vapi_cleanup_deletes_only_matches (Vapi.obliging Vapi.sample_files)
           "bill.pdf" [] Hne).
Defined.

(** X22.  When the listing is fetched, every file that matches the name
    has a ["name"] and an ["id"], and every deletion succeeds, cleaning up
    by file name requests the listing and then the deletion of every
    matching file, in the order of the listing, and returns. *)
Theorem vapi_cleanup_deletes_every_match (rm : Vapi.remote)
    (file_name : string) (t : list Vapi.call) (files : list Vapi.resource) :
  file_name ≠ "" →
  Vapi.on_list rm (length t) Vapi.file_url = inr files →
  (∀ f, f ∈ files → Vapi.file_matches file_name f = true →
        is_Some (Vapi.res_name f) ∧ is_Some (Vapi.res_id f)) →
  (∀ n u, Vapi.on_delete rm n u = inr tt) →
  Vapi.cleanup_vapi_resources_by_name rm (Some file_name) None None t
  = (t ++ Vapi.Get Vapi.file_url
          :: ((λ f, Vapi.Delete (Vapi.file_url +:+ "/"
                                 +:+ default "" (Vapi.res_id f)))
              <$> filter (λ f, Vapi.file_matches file_name f = true) files),
     inr tt).
Proof.
  intros Hne Hlist Hkeys Hdel. rewrite cleanup_files_only by done.
  rewrite Hlist. unfold Vapi.delete_vapi_file.
  rewrite (delete_matching_all rm Vapi.file_url _ Vapi.res_name) by done.
  by rewrite <- app_assoc.
Qed.

Lemma vapi_cleanup_deletes_every_match_witness :
  Vapi.cleanup_vapi_resources_by_name (Vapi.obliging Vapi.sample_files)
    (Some "bill.pdf") None None []
  = ([Vapi.Get "https://api.vapi.ai/file";
      Vapi.Delete "https://api.vapi.ai/file/f1";
      Vapi.Delete "https://api.vapi.ai/file/f3"],
     inr tt).
Proof.
  assert (Hne : "bill.pdf" ≠ "") by discriminate.
  assert (Hkeys : ∀ f, f ∈ Vapi.sample_files →
                       Vapi.file_matches "bill.pdf" f = true →
                       is_Some (Vapi.res_name f) ∧ is_Some (Vapi.res_id f)).
  { intros f Hf _. unfold Vapi.sample_files in Hf.
    repeat (apply elem_of_cons in Hf as [-> | Hf]; [by split; eexists|]).
    by apply elem_of_nil in Hf. }
  exact (vapi_cleanup_deletes_every_match (Vapi.obliging Vapi.sample_files)
           "bill.pdf" [] Vapi.sample_files Hne eq_refl Hkeys
           (λ _ _, eq_refl)).
Defined.

(** X23.  A listed file that matches by its ["originalName"] only and
    has no ["name"] entry stops the cleanup with [KeyError] on "name"
    (raised while the message about the deletion is built).  When the
    matching files listed before it have a ["name"] and an ["id"] and
    their deletions succeed, these files are deleted, in the order of the
    listing, and nothing else is: not that file, and no matching file
    listed after it. *)
Theorem vapi_cleanup_stops_on_nameless_file (rm : Vapi.remote)
    (file_name : string) (t : list Vapi.call)
    (before after : list Vapi.resource) (f : Vapi.resource) :
  file_name ≠ "" →
  Vapi.on_list rm (length t) Vapi.file_url = inr (before ++ f :: after) →
  (∀ x, x ∈ before → Vapi.file_matches file_name x = true →
        is_Some (Vapi.res_name x) ∧ is_Some (Vapi.res_id x)) →
  (∀ n u, Vapi.on_delete rm n u = inr tt) →
  Vapi.res_originalName f = Some file_name →
  Vapi.res_name f = None →
  Vapi.cleanup_vapi_resources_by_name rm (Some file_name) None None t
  = (t ++ Vapi.Get Vapi.file_url
          :: ((λ x, Vapi.Delete (Vapi.file_url +:+ "/"
                                 +:+ default "" (Vapi.res_id x)))
              <$> filter (λ x, Vapi.file_matches file_name x = true) before),
     inl (Vapi.KeyError "name")).
Proof.
  intros Hne Hlist Hkeys Hdel Horig Hname. rewrite cleanup_files_only by done.
  rewrite Hlist. clear Hlist.
  replace (t ++ Vapi.Get Vapi.file_url
             :: ((λ x, Vapi.Delete (Vapi.file_url +:+ "/"
                                    +:+ default "" (Vapi.res_id x)))
                 <$> filter (λ x, Vapi.file_matches file_name x = true)
                       before))
    with ((t ++ [Vapi.Get Vapi.file_url])
          ++ ((λ x, Vapi.Delete (Vapi.file_url +:+ "/"
                                 +:+ default "" (Vapi.res_id x)))
              <$> filter (λ x, Vapi.file_matches file_name x = true) before))
    by (by rewrite <- app_assoc).
  generalize (t ++ [Vapi.Get Vapi.file_url]). intros t'. revert t'.
  induction before as [|x before IH]; intros t'.
  - simpl. unfold_V. unfold Vapi.file_matches. rewrite Horig, Hname.
    rewrite (bool_decide_true (Some file_name = Some file_name)) by done.
    rewrite orb_true_r. by rewrite app_nil_r.
  - cbn [app Vapi.delete_matching]. unfold_V. rewrite filter_cons.
    assert (Hrest : ∀ y, y ∈ before →
                         Vapi.file_matches file_name y = true →
                         is_Some (Vapi.res_name y) ∧ is_Some (Vapi.res_id y)).
    { intros y Hy. apply Hkeys. by apply list_elem_of_further. }
    destruct (Vapi.file_matches file_name x) eqn:Hx.
    + destruct (Hkeys x (list_elem_of_here _ _) Hx) as [[n Hn] [id Hid]].
      rewrite decide_True by done.
      rewrite Hn, Hid, !item_Some. unfold_V.
      unfold Vapi.delete_vapi_file at 1, Vapi.delete_at at 1.
      rewrite Hdel, (IH Hrest). rewrite fmap_cons, Hid. simpl.
      by rewrite <- app_assoc.
    + rewrite decide_False by (by intros ?). apply (IH Hrest).
Qed.

Lemma vapi_cleanup_stops_on_nameless_file_witness :
  Vapi.cleanup_vapi_resources_by_name
    (Vapi.obliging
       ([Vapi.bill_file; Vapi.notes_file]
        ++ Vapi.nameless_file :: [Vapi.bill_file]))
    (Some "bill.pdf") None None []
  = ([Vapi.Get "https://api.vapi.ai/file";
      Vapi.Delete "https://api.vapi.ai/file/f1"],
     inl (Vapi.KeyError "name")).
Proof.
  assert (Hne : "bill.pdf" ≠ "") by discriminate.
  refine (vapi_cleanup_stops_on_nameless_file
            (Vapi.obliging
               ([Vapi.bill_file; Vapi.notes_file]
                ++ Vapi.nameless_file :: [Vapi.bill_file]))
            "bill.pdf" [] [Vapi.bill_file; Vapi.notes_file] [Vapi.bill_file]
            Vapi.nameless_file Hne eq_refl _ (λ _ _, eq_refl) eq_refl eq_refl).
  intros x Hx _.
  apply elem_of_cons in Hx as [-> | Hx]; [by split; eexists|].
  apply list_elem_of_singleton in Hx as ->. by split; eexists.
Defined.

(** X24.  [upload_file_to_vapi] cleans up before it opens the local
    file: when the cleanup succeeds and the file cannot be opened, the
    call raises the error of [open] after the deletions of the cleanup
    were requested, and nothing is uploaded. *)
Theorem vapi_upload_deletes_before_opening (rm : Vapi.remote)
    (path_name : string → string) (file_path : string)
    (file_name : option string) (t t1 : list Vapi.call) (e : Vapi.error) :
  Vapi.cleanup_vapi_resources_by_name rm
    (Some (default (path_name file_path) file_name)) None None t
  = (t1, inr tt) →
  Vapi.on_open rm (length t1) file_path = inl e →
  Vapi.upload_file_to_vapi rm path_name file_path file_name t
  = (t1 ++ [Vapi.Open file_path], inl e)
  ∧ Vapi.deletions (t1 ++ [Vapi.Open file_path]) = Vapi.deletions t1
  ∧ Vapi.posts (t1 ++ [Vapi.Open file_path]) = Vapi.posts t1.
Proof.
  intros Hclean Hopen. split; [|split].
  - unfold Vapi.upload_file_to_vapi.
    replace (match file_name with
             | Some n => n
             | None => path_name file_path
             end) with (default (path_name file_path) file_name)
      by (by destruct file_name).
    unfold mbind at 1, Vapi.V_bind, Vapi.vbind at 1. rewrite Hclean.
    unfold mbind at 1, Vapi.V_bind, Vapi.vbind at 1.
    unfold Vapi.open_file. by rewrite Hopen.
  - rewrite deletions_app. simpl. by rewrite app_nil_r.
  - rewrite posts_app. simpl. by rewrite app_nil_r.
Qed.

Lemma vapi_upload_deletes_before_opening_witness :
  Vapi.cleanup_vapi_resources_by_name (Vapi.unreadable Vapi.sample_files)
    (Some (default "bill.pdf" None)) None None []
  = ([Vapi.Get "https://api.vapi.ai/file";
      Vapi.Delete "https://api.vapi.ai/file/f1";
      Vapi.Delete "https://api.vapi.ai/file/f3"], inr tt)
  ∧ Vapi.on_open (Vapi.unreadable Vapi.sample_files) 3 "/tmp/bill.pdf"
    = inl (Vapi.OSError "No such file or directory")
  ∧ Vapi.upload_file_to_vapi (Vapi.unreadable Vapi.sample_files)
      (λ _, "bill.pdf") "/tmp/bill.pdf" None []
    = ([Vapi.Get "https://api.vapi.ai/file";
        Vapi.Delete "https://api.vapi.ai/file/f1";
        Vapi.Delete "https://api.vapi.ai/file/f3"]
       ++ [Vapi.Open "/tmp/bill.pdf"],
       inl (Vapi.OSError "No such file or directory")).
Proof.
  split; [reflexivity|]. split; [reflexivity|].
  exact (proj1 (vapi_upload_deletes_before_opening
                  (Vapi.unreadable Vapi.sample_files) (λ _, "bill.pdf")
                  "/tmp/bill.pdf" None [] _ _ eq_refl eq_refl)).
Defined.

Section VapiUploadFacts.
Import Vapi.

Lemma cleanup_files_calls (rm : remote) (file_name : string)
    (t : list call) :
  ∃ new r,
    cleanup_vapi_resources_by_name rm (Some file_name) None None t
    = (t ++ new, r)
    ∧ ∀ c, c ∈ new → c = Get file_url ∨ ∃ u, c = Delete u.
Proof.
  destruct (decide (file_name = "")) as [-> | Hne].
  - exists [], (inr tt). split; [by rewrite app_nil_r|].
    by intros c ?%elem_of_nil.
  - rewrite cleanup_files_only by done.
    destruct (on_list rm (length t) file_url) as [e|files].
    + exists [Get file_url], (inl e). split; [done|].
      intros c ->%list_elem_of_singleton. by left.
    + destruct (delete_matching_calls rm file_url (file_matches file_name)
                  res_name files (t ++ [Get file_url]))
        as (new & r & Hrun & Hnew).
      exists (Get file_url :: new), r. split.
      { unfold delete_vapi_file. rewrite Hrun. by rewrite <- app_assoc. }
      intros c [-> | Hc]%elem_of_cons; [by left|]. right.
      destruct (Hnew c Hc) as (x & id & _ & _ & _ & ->). by eexists.
Qed.

End VapiUploadFacts.

(** X25.  When [upload_file_to_vapi] returns an id, its calls were, in
    this order: the listing and the deletions of the cleanup, the opening
    of the local file, and one upload, which is the last call. *)
Theorem vapi_upload_posts_once_at_the_end (rm : Vapi.remote)
    (path_name : string → string) (file_path : string)
    (file_name : option string) (t t' : list Vapi.call) (id : string) :
  Vapi.upload_file_to_vapi rm path_name file_path file_name t
  = (t', inr id) →
  ∃ cleanup,
    t' = t ++ cleanup
         ++ [Vapi.Open file_path;
             Vapi.Post Vapi.file_url
               (Vapi.FileUpload (default (path_name file_path) file_name))]
    ∧ (∀ c, c ∈ cleanup → c = Vapi.Get Vapi.file_url ∨ ∃ u, c = Vapi.Delete u).
Proof.
  unfold Vapi.upload_file_to_vapi.
  replace (match file_name with
           | Some n => n
           | None => path_name file_path
           end) with (default (path_name file_path) file_name)
    by (by destruct file_name).
  set (fn := default (path_name file_path) file_name).
  destruct (cleanup_files_calls rm fn t) as (new & r & Hclean & Hnew).
  unfold mbind at 1, Vapi.V_bind, Vapi.vbind at 1. rewrite Hclean.
  destruct r as [e|[]]; [discriminate|].
  unfold mbind at 1, Vapi.V_bind, Vapi.vbind at 1. unfold Vapi.open_file.
  destruct (Vapi.on_open rm (length (t ++ new)) file_path) as [e|[]];
    [discriminate|].
  unfold mbind at 1, Vapi.V_bind, Vapi.vbind at 1. unfold Vapi.post.
  destruct (Vapi.on_post rm _ Vapi.file_url) as [e|response];
    [discriminate|].
  destruct response as [id'|]; [|discriminate].
  rewrite item_Some. unfold Vapi.vret. intros [= <- <-].
  exists new. split; [by rewrite <- !app_assoc|]. exact Hnew.
Qed.

Lemma vapi_upload_posts_once_at_the_end_witness :
  Vapi.upload_file_to_vapi (Vapi.obliging Vapi.sample_files)
    (λ _, "bill.pdf") "/tmp/bill.pdf" None []
  = ([Vapi.Get "https://api.vapi.ai/file";
      Vapi.Delete "https://api.vapi.ai/file/f1";
      Vapi.Delete "https://api.vapi.ai/file/f3";
      Vapi.Open "/tmp/bill.pdf";
      Vapi.Post "https://api.vapi.ai/file" (Vapi.FileUpload "bill.pdf")],
     inr "new-id")
  ∧ ∃ cleanup,
      [Vapi.Get "https://api.vapi.ai/file";
       Vapi.Delete "https://api.vapi.ai/file/f1";
       Vapi.Delete "https://api.vapi.ai/file/f3";
       Vapi.Open "/tmp/bill.pdf";
       Vapi.Post "https://api.vapi.ai/file" (Vapi.FileUpload "bill.pdf")]
      = [] ++ cleanup
        ++ [Vapi.Open "/tmp/bill.pdf";
            Vapi.Post Vapi.file_url
              (Vapi.FileUpload (default "bill.pdf" None))]
      ∧ (∀ c, c ∈ cleanup →
              c = Vapi.Get Vapi.file_url ∨ ∃ u, c = Vapi.Delete u).
Proof.
  assert (Hrun :
    Vapi.upload_file_to_vapi (Vapi.obliging Vapi.sample_files)
      (λ _, "bill.pdf") "/tmp/bill.pdf" None []
    = ([Vapi.Get "https://api.vapi.ai/file";
        Vapi.Delete "https://api.vapi.ai/file/f1";
        Vapi.Delete "https://api.vapi.ai/file/f3";
        Vapi.Open "/tmp/bill.pdf";
        Vapi.Post "https://api.vapi.ai/file" (Vapi.FileUpload "bill.pdf")],
       inr "new-id")) by reflexivity.
  split; [exact Hrun|].
  exact (vapi_upload_posts_once_at_the_end _ _ _ _ _ _ _ Hrun).
Defined.
